(* ===== verification/_CoqProject ===== *)
-Q . S2P
Prelude.v
PyStr.v
Helpers.v
Protocol.v
LocalResolver.v
DnsLib.v
Tier.v
RootServer.v
AuthoritativeServer.v
Bounds.v
Client.v
Session.v
System.v
