(* ===== verification/Prelude.v ===== *)
(** * A verification development of the simulated recursive DNS resolver

    The program (Computer_Networks_Project, under src/) is five Python
    scripts that talk over UDP on the loopback interface:

    - src/client.py: an interactive loop that lower-cases a line, stops on
      "break", checks it with the regular expression [([a-z]+\.[a-z]+)+]
      ([isValid]) and sends it to the local resolver on port 53
      ([connectClientToLocalDnsServer]);
    - src/localDnsServer.py: the local resolver.  It keeps the only
      persistent state of the system, the global dict [cache], and for
      every request splits the domain, computes the three cache keys
      [rootInput], [tldInput], [authoritativeInput], consults the cache for
      the root stage only, and queries the root (port 9001), the TLD
      (port 9002) and the authoritative (port 9003) tiers in sequence
      through [generalServerHandler];
    - src/helpers.py: the shared helpers: [splitInput], [getInput] (the
      rightmost labels of a domain), [actAsTemporaryClient] (one UDP
      exchange with a tier and the parsing of its reply),
      [getInputForNextServer] (the payload of a reply);
    - src/rootDnsServer.py and src/authoritativeDnsServer.py: the tiers.
      Each loops receiving two datagrams (the server to consult, then the
      domain), computes a list of messages whose last element is the
      payload ([findOutTld], [findOutResultantIp]) through the dnspython
      library, and replies with [str(list)]; any exception ends the process.

    The TLD tier's script is not part of the sources: it is left abstract
    (a handler supplied by the caller of the system model).

    ** Files and what they model (in the order of _CoqProject)

    - [Prelude] (this file): the scope [dns_scope], the Python exception
      type [PyExc], the resolver monad [PyM] (explicit state; outcomes
      [Ret], [Raise] for an uncaught exception, [Blocked] for a
      [recvfrom] that never returns), [preserves] (an invariant of the
      state kept by a computation whatever its outcome), Hoare triples
      [triple] (partial: the invariant whatever the outcome, the
      postcondition on a returned value) and [total] (the computation
      returns), the hint
      database [dns], the tactics [case_step], [dns_simpl],
      [preserves_steps], [triple_steps], [total_steps], and lemmas on
      strings, lists and maps.
    - [PyStr]: the Python [str] builtins the sources call, from CPython's
      semantics: [split], [join], [strip], [replace], [lower], the slice
      [s[:-1]], [repr] and [str(list)].
    - [Helpers]: src/helpers.py: [splitInput], [getInput] (with the
      [IndexError] of its loop), [getInputForNextServer], the parsing half
      of [actAsTemporaryClient]; the network as [Class Network] (one
      exchange of two datagrams and a reply, or none).
    - [Protocol]: the reply protocol between the tiers and the resolver:
      [encode_reply] is the tiers' [str(result)], [reply_payload] the
      resolver's [strip('[]').split(',')] followed by
      [getInputForNextServer].
    - [LocalResolver]: src/localDnsServer.py.  The state [LState] (the
      global [cache] as [gmap string string], the network, a log of the
      queries sent, the datagrams sent to the client); [fetchFromCache],
      [generalServerHandler], [root_stage] (the cache test of line 159),
      [handle_request] (the body of the [while True] loop) as a [PyM]
      computation over any [Network]; the process [localDnsServer] over a
      sequence of client datagrams ([Serving], [Crashed], [Waiting]).
      The spec's keys [suffix d k], its three-stage resolution as the
      step relation [spec_step] and the refinement relation [run_matches].
      The invariants of the network ([NetworkInvariant]) and of the
      cache's type ([cache_wf]), the repeated request ([Repeat]) and the
      progress on a network that answers ([Answering]).
    - [DnsLib]: dnspython as [Class DnsLib] ([name.from_text],
      [query.udp], [resolver.query], [resolver.resolve]); each call
      returns, raises or hangs ([lib_result]).
    - [Tier]: a tier process of rootDnsServer.py/authoritativeDnsServer.py
      as a state machine ([Listening], [Awaiting] the domain after the
      server's datagram, [Dead] after [exit()], [Hung] in a library call)
      and the client side of the two-datagram exchange.
    - [RootServer], [AuthoritativeServer]: [findOutTld] and
      [findOutResultantIp] on every branch over any [DnsLib].
    - [Bounds]: the lengths of [repr] and [str(list)], the limits of DNS
      as the laws of [Class DnsLimits], and the size of the tiers' replies.
    - [Client]: src/client.py: the regular expression as syntax with a
      backtracking matcher, [re.findall], [isValid], the input loop.
    - [Session]: the client against the resolver process:
      [connectClientToLocalDnsServer] reads the acknowledgement and the
      result of a request, or waits for ever; [client_session] is the
      client's loop with the resolver behind it.
    - [System]: the deployment: the three tier processes behind their
      ports ([World], [world_exchange]) as the network of the resolver;
      the TLD handler is a parameter.  A textbook instance (the example
      of Kurose and Ross) runs the whole system; a library that always
      answers ([steady_lib]) runs the progress theorems.

    ** Theorems (claims C1-C33 of the manifest)

    Resolver ([LocalResolver]): refinement of the spec's three stages
    (C1); a cached TLD address skips the root query (C4); a request
    writes only its three keys and loses none (C5); a one-label name
    raises [ValueError] (C19); the cache only grows over a run (C12); a
    completed request replies the address it cached (C9); the process
    stops at the first request that raises or blocks (C18, C20);
    [getInput] on every branch against the spec's [suffix] (C24); a
    repeated request, with tiers whose reply depends only on the query,
    repeats the last two queries, replies the same address and leaves
    the cache as it was (C6); the cache keeps its type, values without a
    comma or a single quote, over any run (C11); its keys are the spec's
    suffixes of the names requested (C13).
    Decomposition ([Helpers]): the authoritative key is the domain itself
    (C7).  Protocol: the payload survives when plain (C8), and is cut at
    its last comma (C29).  Client: [isValid] is a letter, a dot and
    a letter in a row (C22); every query has two labels (C23); empty
    labels pass (C33).  Tiers
    ([Tier]): a tier answers every request while its handler returns
    (C25) and is silent for ever after an exception (C26).  Session: the
    client prints the acknowledgement and the cached address, or waits
    for ever (C10), and stops at the first request not completed (C27).
    Bounds: within the limits of DNS no reply reaches [BUFFER_SIZE] (C28).
    System: an NXDOMAIN of the root tier is cached as a server address
    (C14), so is the remark of an SOA answer (C30); a resolution through
    the library caches the three payloads
    (C2) and, for a name of two labels, overwrites the TLD entry (C31);
    an NXDOMAIN of the authoritative tier is sent to the client as the
    address (C15); a name the library rejects kills the root tier and
    hangs the resolver and the client (C16, C32); no tier is ever left
    half-way through the protocol (C21).  Progress: when the handlers of
    the three tiers always return, the resolver serves every sequence of
    names of two labels or more to the end (C3) and the client never
    waits for ever (C17); a library that always answers shows the
    hypotheses can be met.

    ** Bounds and what is not modelled

    Strings are Rocq [string]s, one character per code point below 256;
    the UTF-8 encoding and decoding of datagrams is the identity on them.
    Datagrams are not truncated at [BUFFER_SIZE]: C28 shows that the
    tiers' replies are shorter for names and records within the limits of
    DNS, and the other datagrams are a domain or a short message; the
    lengths are counted in characters, not UTF-8 bytes (a code point
    below 256 takes one or two bytes).  The matcher's [+] iterates at most
    [length s + 1] times and the scan of [findall] makes at most
    [length s + 1] steps; the lemma [matcher_fuel_adequate] of [Client]
    shows any larger fuel gives the same results, so the bounded matcher
    is the unbounded one.  A concrete run of the spec's scenario of
    section 8 ([textbook_resolution], an example, not a claim) shows the
    keys "edu", "umass.edu" and the two full names.  Printing ([customPrint], [displayMessages], [print]) is not
    modelled; the loopback network delivers datagrams reliably and in
    order; the TLD tier's script is not among the sources.  Each
    resolver request is served to completion before the next datagram is
    read (spec section 5), so a session is a sequence of requests.
*)

From stdpp Require Export base list gmap strings.

Declare Scope dns_scope.
Delimit Scope dns_scope with dns.
Open Scope stdpp_scope.

(** ** Python exceptions that the sources can raise *)
Inductive PyExc :=
| ValueError          (* unpacking too few values *)
| IndexError          (* list index out of range *)
| AttributeError      (* missing attribute, e.g. [.target] *)
| LibraryError (msg : string). (* an exception raised inside dnspython *)

#[export] Instance PyExc_eq_dec : EqDecision PyExc.
Proof. solve_decision. Defined.

(** ** The resolver monad: state, uncaught exceptions, blocking *)
Inductive outcome (S A : Type) :=
| Ret (a : A) (s : S)
| Raise (e : PyExc) (s : S)
| Blocked (s : S).
Arguments Ret {S A} a s.
Arguments Raise {S A} e s.
Arguments Blocked {S A} s.

Definition PyM (S A : Type) := S -> outcome S A.

Definition ret {S A} (a : A) : PyM S A := fun s => Ret a s.
Definition bind {S A B} (m : PyM S A) (k : A -> PyM S B) : PyM S B :=
  fun s => match m s with
           | Ret a s' => k a s'
           | Raise e s' => Raise e s'
           | Blocked s' => Blocked s'
           end.
Definition raise {S A} (e : PyExc) : PyM S A := fun s => Raise e s.
Definition get {S} : PyM S S := fun s => Ret s s.
Definition put {S} (s : S) : PyM S unit := fun _ => Ret tt s.
Definition modify {S} (f : S -> S) : PyM S unit := fun s => Ret tt (f s).

(** Lift a fallible pure computation. *)
Definition lift {S A} (r : PyExc + A) : PyM S A :=
  match r with inl e => raise e | inr a => ret a end.

#[export] Instance PyM_ret {S} : MRet (PyM S) := @ret S.
#[export] Instance PyM_bind {S} : MBind (PyM S) := fun A B k m => bind m k.

(** The state after a computation, whatever its outcome. *)
Definition final_state {S A} (o : outcome S A) : S :=
  match o with Ret _ s | Raise _ s | Blocked s => s end.

Create HintDb dns discriminated.
Create Rewrite HintDb dns.

Lemma bind_ret {S A B} (a : A) (k : A -> PyM S B) s :
  bind (ret a) k s = k a s.
Proof. reflexivity. Qed.

Lemma bind_assoc {S A B C} (m : PyM S A) (k : A -> PyM S B) (h : B -> PyM S C) s :
  bind (bind m k) h s = bind m (fun a => bind (k a) h) s.
Proof. unfold bind. destruct (m s); reflexivity. Qed.

Lemma bind_Ret {S A B} (m : PyM S A) (k : A -> PyM S B) s a s' :
  m s = Ret a s' -> bind m k s = k a s'.
Proof. unfold bind. intros ->. reflexivity. Qed.

Lemma bind_Blocked {S A B} (m : PyM S A) (k : A -> PyM S B) s s' :
  m s = Blocked s' -> bind m k s = Blocked s'.
Proof. unfold bind. intros ->. reflexivity. Qed.

Lemma bind_Raise {S A B} (m : PyM S A) (k : A -> PyM S B) s e s' :
  m s = Raise e s' -> bind m k s = Raise e s'.
Proof. unfold bind. intros ->. reflexivity. Qed.

#[export] Hint Rewrite @bind_ret @bind_assoc : dns.

(** ** Strings *)
Lemma string_app_nil_r (s : string) : s +:+ "" = s.
Proof. induction s as [|c s IH]; [done | exact (f_equal (String c) IH)]. Qed.

Lemma string_app_assoc (a b c : string) : (a +:+ b) +:+ c = a +:+ (b +:+ c).
Proof. induction a as [|x a IH]; [done | exact (f_equal (String x) IH)]. Qed.

Lemma string_app_cons (c : Ascii.ascii) (a b : string) :
  String c a +:+ b = String c (a +:+ b).
Proof. reflexivity. Qed.

#[export] Hint Rewrite string_app_nil_r string_app_assoc string_app_cons : dns.

Lemma string_length_app (a b : string) :
  String.length (a +:+ b) = String.length a + String.length b.
Proof. induction a as [|x a IH]; [done | exact (f_equal S IH)]. Qed.

(** ** Lists *)
Lemma last_app_single {A} (l : list A) (x : A) : last (l ++ [x]) = Some x.
Proof. induction l as [|y l IH]; [done|]. destruct l; simpl in *; auto. Qed.

#[export] Hint Rewrite @last_app_single : dns.

(** ** Maps *)
(** Writing the same two entries again changes nothing. *)
Lemma insert2_idem `{Countable K} {A} (m : gmap K A) i j x y :
  <[i:=x]> (<[j:=y]> (<[i:=x]> (<[j:=y]> m))) = <[i:=x]> (<[j:=y]> m).
Proof.
  destruct (decide (i = j)) as [->|Hij]; [by rewrite !insert_insert_eq|].
  rewrite (insert_insert_ne _ j i y x) by congruence. by rewrite !insert_insert_eq.
Qed.

(** ** Invariants of the state

    [preserves Q m]: [m] keeps [Q] of the state, whether it returns,
    raises or blocks. *)
Definition preserves {S A} (Q : S -> Prop) (m : PyM S A) : Prop :=
  forall s, Q s -> Q (final_state (m s)).

Lemma preserves_ret {S A} (Q : S -> Prop) (a : A) : preserves Q (mret a).
Proof. by intros s. Qed.

Lemma preserves_raise {S A} (Q : S -> Prop) e : preserves (A:=A) Q (raise e).
Proof. by intros s. Qed.

Lemma preserves_get {S} (Q : S -> Prop) : preserves Q get.
Proof. by intros s. Qed.

Lemma preserves_lift {S A} (Q : S -> Prop) (r : PyExc + A) : preserves Q (lift r).
Proof. by destruct r; intros s. Qed.

Lemma preserves_modify {S} (Q : S -> Prop) f :
  (forall s, Q s -> Q (f s)) -> preserves Q (modify f).
Proof. intros Hf s. apply Hf. Qed.

Lemma preserves_bind {S A B} (Q : S -> Prop) (m : PyM S A) (k : A -> PyM S B) :
  preserves Q m -> (forall a, preserves Q (k a)) -> preserves Q (x ← m; k x).
Proof.
  intros Hm Hk s Hs. specialize (Hm s Hs). cbv [mbind PyM_bind bind].
  destruct (m s); simpl in *; [by apply Hk|done|done].
Qed.

#[export] Hint Resolve preserves_ret preserves_raise preserves_get preserves_lift : dns.

(** Split a computation at its binds and close the pieces the hints know. *)
Ltac preserves_steps :=
  repeat first [ progress auto with dns | apply preserves_bind; [|intros ?] ].

(** ** Hoare triples with an invariant

    [triple I m Q]: from a state satisfying [I], [m] ends in a state
    satisfying [I] whatever its outcome, and a value it returns
    satisfies [Q].  The rules are those of a state-and-error Hoare monad
    (a returned value flows to the continuation, an exception or a block
    ends the computation with the invariant). *)
Definition triple {S A} (I : S -> Prop) (m : PyM S A) (Q : A -> Prop) : Prop :=
  forall s, I s -> match m s with
                   | Ret a s' => I s' /\ Q a
                   | Raise _ s' | Blocked s' => I s'
                   end.

Lemma triple_ret {S A} (I : S -> Prop) (Q : A -> Prop) a : Q a -> triple I (mret a) Q.
Proof. by intros ? s. Qed.

Lemma triple_raise {S A} (I : S -> Prop) (Q : A -> Prop) e : triple I (raise e) Q.
Proof. by intros s. Qed.

Lemma triple_get {S} (I : S -> Prop) : triple I get I.
Proof. by intros s. Qed.

Lemma triple_lift {S A} (I : S -> Prop) (Q : A -> Prop) (r : PyExc + A) :
  (forall a, r = inr a -> Q a) -> triple I (lift r) Q.
Proof. destruct r; intros Hr s Hs; [done|]. split; [done|]. by apply Hr. Qed.

Lemma triple_bind {S A B} (I : S -> Prop) (Q : A -> Prop) (R : B -> Prop)
    (m : PyM S A) (k : A -> PyM S B) :
  triple I m Q -> (forall a, Q a -> triple I (k a) R) -> triple I (x ← m; k x) R.
Proof.
  intros Hm Hk s Hs. specialize (Hm s Hs). cbv [mbind PyM_bind bind].
  destruct (m s) as [a s'| |]; [|done|done]. destruct Hm as [Hs' Ha]. by apply Hk.
Qed.

Lemma triple_weaken {S A} (I : S -> Prop) (Q Q' : A -> Prop) (m : PyM S A) :
  triple I m Q -> (forall a, Q a -> Q' a) -> triple I m Q'.
Proof. intros Hm HQ s Hs. specialize (Hm s Hs). destruct (m s); naive_solver. Qed.

(** An invariant kept by [m] is a triple with no postcondition, and back. *)
Lemma triple_preserves {S A} (I : S -> Prop) (m : PyM S A) (Q : A -> Prop) :
  triple I m Q -> preserves I m.
Proof. intros Hm s Hs. specialize (Hm s Hs). destruct (m s); simpl; tauto. Qed.

Lemma preserves_triple {S A} (I : S -> Prop) (m : PyM S A) :
  preserves I m -> triple I m (fun _ => True).
Proof. intros Hm s Hs. specialize (Hm s Hs). by destruct (m s). Qed.

#[export] Hint Resolve triple_raise triple_get : dns.

(** Split a computation at its binds, keeping the postconditions of the
    pieces as hypotheses. *)
Ltac triple_steps :=
  repeat first [ progress eauto with dns | eapply triple_bind; [|intros ? ?] ].

(** Total correctness: [total I m Q] from a state satisfying [I], [m]
    returns (it neither raises nor blocks) a value satisfying [Q], in a
    state satisfying [I]. *)
Definition total {S A} (I : S -> Prop) (m : PyM S A) (Q : A -> Prop) : Prop :=
  forall s, I s -> exists a s', m s = Ret a s' /\ I s' /\ Q a.

Lemma total_ret {S A} (I : S -> Prop) (Q : A -> Prop) a : Q a -> total I (mret a) Q.
Proof. intros Ha s Hs. by exists a, s. Qed.

Lemma total_modify {S} (I : S -> Prop) f :
  (forall s, I s -> I (f s)) -> total I (modify f) (fun _ => True).
Proof. intros Hf s Hs. exists tt, (f s). auto. Qed.

Lemma total_bind {S A B} (I : S -> Prop) (Q : A -> Prop) (R : B -> Prop)
    (m : PyM S A) (k : A -> PyM S B) :
  total I m Q -> (forall a, Q a -> total I (k a) R) -> total I (x ← m; k x) R.
Proof.
  intros Hm Hk s Hs. destruct (Hm s Hs) as (a & s' & E & Hs' & Ha).
  cbv [mbind PyM_bind]. rewrite (bind_Ret _ _ _ _ _ E). by apply Hk.
Qed.

(** Split a computation at its binds, as [triple_steps] does. *)
Ltac total_steps :=
  repeat first [ progress eauto with dns | eapply total_bind; [|intros ? ?] ].

(** A quantity that every step keeps is kept along a run. *)
Lemma rtc_proj {A B} (R : relation A) (f : A -> B) :
  (forall a b, R a b -> f a = f b) -> forall a b, rtc R a b -> f a = f b.
Proof. intros Hs a b Hr. induction Hr as [|a b c Hab _ IH]; [done|]. by rewrite (Hs a b Hab). Qed.

(** Case analysis on the head of the goal's [match] or [if] with an
    equation, then simplification. *)
Ltac case_step :=
  match goal with
  | |- context [match ?x with _ => _ end] => destruct x eqn:?
  end; simpl in *.

Ltac dns_simpl := repeat (autorewrite with dns in *; simpl in *).

Example PyM_notation_runs :
  (x ← (ret 1 : PyM nat nat); put (x + 41);; get) 0 = Ret 42 42.
Proof. reflexivity. Qed.
