(* ===== verification/PyStr.v ===== *)
(** * The Python [str] builtins the sources call

    Each definition follows CPython's semantics of the method it names,
    on strings of code points below 256 (one [ascii] each):
    [str.split(sep)] with a one-character separator, [sep.join],
    [str.strip()] and [str.strip(chars)], [str.replace] of one character,
    [str.lower()], the slice [s[:-1]], [repr(s)] and [str(list)].  *)

From Stdlib Require Import Ascii.
From S2P Require Import Prelude.

(** ** Characters *)
Definition code (c : ascii) : nat := nat_of_ascii c.

Definition chr (n : nat) : ascii := ascii_of_nat n.

Definition DOT : ascii := "."%char.
Definition COMMA : ascii := ","%char.
Definition QUOTE : ascii := "'"%char.
Definition DQUOTE : ascii := chr 34.
Definition BACKSLASH : ascii := "\"%char.
Definition LBRACKET : ascii := "["%char.
Definition RBRACKET : ascii := "]"%char.

Definition ascii_eqb (a b : ascii) : bool := Ascii.eqb a b.

Lemma ascii_eqb_true a b : ascii_eqb a b = true <-> a = b.
Proof. unfold ascii_eqb. by destruct (Ascii.eqb_spec a b). Qed.

Lemma ascii_eqb_refl a : ascii_eqb a a = true.
Proof. by apply ascii_eqb_true. Qed.

#[export] Hint Rewrite ascii_eqb_refl : dns.

(** Membership of a character in a string. *)
Fixpoint str_mem (c : ascii) (s : string) : bool :=
  match s with
  | EmptyString => false
  | String d s' => ascii_eqb c d || str_mem c s'
  end.

(** Every character of [s] satisfies [p]. *)
Fixpoint all_chars (p : ascii -> bool) (s : string) : bool :=
  match s with
  | EmptyString => true
  | String c s' => p c && all_chars p s'
  end.

(** ** [str.split(sep)] for a one-character separator: every occurrence
    splits, empty fields are kept, the result is never empty. *)
Fixpoint py_split (sep : ascii) (s : string) : list string :=
  match s with
  | EmptyString => [""]
  | String c s' =>
      let r := py_split sep s' in
      if ascii_eqb c sep then "" :: r
      else match r with
           | h :: t => String c h :: t
           | [] => [String c ""]
           end
  end.

(** ** [sep.join(xs)] *)
Fixpoint py_join (sep : string) (xs : list string) : string :=
  match xs with
  | [] => ""
  | [x] => x
  | x :: t => x +:+ sep +:+ py_join sep t
  end.

(** ** [str.strip(chars)]: drop the leading and the trailing characters
    that belong to the set. *)
Fixpoint py_lstrip_by (p : ascii -> bool) (s : string) : string :=
  match s with
  | EmptyString => EmptyString
  | String c s' => if p c then py_lstrip_by p s' else s
  end.

Fixpoint py_rstrip_by (p : ascii -> bool) (s : string) : string :=
  match s with
  | EmptyString => EmptyString
  | String c s' =>
      match py_rstrip_by p s' with
      | EmptyString => if p c then EmptyString else String c EmptyString
      | r => String c r
      end
  end.

Definition py_strip_by (p : ascii -> bool) (s : string) : string :=
  py_rstrip_by p (py_lstrip_by p s).

(** The characters of [chars] in [s.strip(chars)]. *)
Definition in_chars (chars : string) (c : ascii) : bool := str_mem c chars.

(** [str.isspace()] on code points below 256: \t \n \v \f \r, the
    separators \x1c-\x1f, the space, \x85 and \xa0. *)
Definition py_isspace (c : ascii) : bool :=
  let n := code c in
  ((9 <=? n) && (n <=? 13)) || ((28 <=? n) && (n <=? 32)) ||
  (n =? 133) || (n =? 160).

(** [str.strip()] *)
Definition py_strip (s : string) : string := py_strip_by py_isspace s.

(** ** [str.replace(old, new)] with a one-character [old]. *)
Fixpoint py_replace (old : ascii) (new : string) (s : string) : string :=
  match s with
  | EmptyString => EmptyString
  | String c s' =>
      if ascii_eqb c old then new +:+ py_replace old new s'
      else String c (py_replace old new s')
  end.

(** ** [str.lower()]: A-Z and the Latin-1 capitals except the
    multiplication sign. *)
Definition py_lower_char (c : ascii) : ascii :=
  let n := code c in
  if ((65 <=? n) && (n <=? 90)) || ((192 <=? n) && (n <=? 222) && negb (n =? 215))
  then chr (n + 32) else c.

Fixpoint py_lower (s : string) : string :=
  match s with
  | EmptyString => EmptyString
  | String c s' => String (py_lower_char c) (py_lower s')
  end.

(** ** The slice [s[:-1]]: every character but the last; "" stays "". *)
Fixpoint py_drop_last (s : string) : string :=
  match s with
  | EmptyString => EmptyString
  | String _ EmptyString => EmptyString
  | String c s' => String c (py_drop_last s')
  end.

(** ** [repr(s)] (CPython's [unicode_repr]) *)
Definition hex_digit (n : nat) : ascii :=
  if n <? 10 then chr (48 + n) else chr (87 + n).

(** [str.isprintable()] of one code point below 256. *)
Definition py_isprintable (c : ascii) : bool :=
  let n := code c in
  ((32 <=? n) && (n <=? 126)) || ((161 <=? n) && negb (n =? 173)).

Definition repr_char (quote c : ascii) : string :=
  let n := code c in
  if ascii_eqb c quote || ascii_eqb c BACKSLASH then String BACKSLASH (String c "")
  else if n =? 9 then "\t"
  else if n =? 10 then "\n"
  else if n =? 13 then "\r"
  else if py_isprintable c then String c ""
  else String BACKSLASH (String "x"%char
         (String (hex_digit (n / 16)) (String (hex_digit (n mod 16)) ""))).

Fixpoint repr_body (quote : ascii) (s : string) : string :=
  match s with
  | EmptyString => EmptyString
  | String c s' => repr_char quote c +:+ repr_body quote s'
  end.

(** Single quotes, unless the string holds a single quote and no double
    quote. *)
Definition repr_quote (s : string) : ascii :=
  if str_mem QUOTE s && negb (str_mem DQUOTE s) then DQUOTE else QUOTE.

Definition py_repr (s : string) : string :=
  let q := repr_quote s in
  String q (repr_body q s +:+ String q "").

(** ** [str(xs)] for a list of strings: [repr] of each, ", " between. *)
Definition py_str_list (xs : list string) : string :=
  String LBRACKET (py_join ", " (map py_repr xs) +:+ String RBRACKET "").

(** The f-string fragment [\"{s}\"]: [s] between double quotes. *)
Definition dq (s : string) : string := String DQUOTE (s +:+ String DQUOTE "").

(** ** Lemmas on [split] and [join] *)
Lemma py_split_not_nil c s : py_split c s <> [].
Proof.
  induction s as [|d s IH]; simpl; [done|].
  destruct (ascii_eqb d c); [done|]. by destruct (py_split c s).
Qed.

Lemma py_join_cons2 sep x y t :
  py_join sep (x :: y :: t) = x +:+ sep +:+ py_join sep (y :: t).
Proof. reflexivity. Qed.

Lemma py_join_String sep c h t :
  py_join sep (String c h :: t) = String c (py_join sep (h :: t)).
Proof. by destruct t. Qed.

(** Splitting then joining with the same separator gives the string back. *)
Lemma py_join_split c s : py_join (String c "") (py_split c s) = s.
Proof.
  induction s as [|d s IH]; [done|]. simpl.
  destruct (ascii_eqb d c) eqn:E.
  - apply ascii_eqb_true in E as ->.
    destruct (py_split c s) as [|h t] eqn:Hs; [by destruct (py_split_not_nil c s)|].
    rewrite py_join_cons2, <- IH. reflexivity.
  - destruct (py_split c s) as [|h t] eqn:Hs; [by destruct (py_split_not_nil c s)|].
    rewrite py_join_String, <- IH. reflexivity.
Qed.

Lemma ascii_eqb_false_of_mem c d x :
  (ascii_eqb c d || str_mem c x) = false -> ascii_eqb d c = false.
Proof.
  intros H. apply orb_false_iff in H as [Hd _].
  destruct (ascii_eqb d c) eqn:E; [|done]. apply ascii_eqb_true in E; subst.
  by rewrite ascii_eqb_refl in Hd.
Qed.

(** A string without the separator is one field. *)
Lemma py_split_no_sep c x : str_mem c x = false -> py_split c x = [x].
Proof.
  induction x as [|d x IH]; intros Hx; [done|]. simpl.
  rewrite (ascii_eqb_false_of_mem c d x Hx).
  simpl in Hx. apply orb_false_iff in Hx as [_ Hx]. by rewrite IH.
Qed.

Lemma py_split_app_sep c x y :
  str_mem c x = false ->
  py_split c (x +:+ String c y) = "" :: py_split c y /\ x = "" \/
  (exists h t, py_split c y = h :: t /\ py_split c (x +:+ String c y) = x :: py_split c y).
Proof.
  induction x as [|d x IH]; simpl; intros Hm.
  - left. by rewrite ascii_eqb_refl.
  - rewrite (ascii_eqb_false_of_mem c d x Hm). right.
    apply orb_false_iff in Hm as [_ Hm].
    destruct (IH Hm) as [[-> ->]|(h & t & Hy & ->)].
    + destruct (py_split c y) as [|h t] eqn:Hy; [by destruct (py_split_not_nil c y)|].
      eauto.
    + eauto.
Qed.

(** Joining fields free of the separator then splitting gives the fields. *)
Lemma py_split_join c xs :
  xs <> [] -> Forall (fun x => str_mem c x = false) xs ->
  py_split c (py_join (String c "") xs) = xs.
Proof.
  induction xs as [|x [|y t] IH]; intros Hne Hall; [done| |].
  - inversion Hall; subst. by apply py_split_no_sep.
  - inversion Hall as [|? ? Hx Ht]; subst.
    rewrite py_join_cons2. change (String c "" +:+ ?r) with (String c r).
    assert (Hrec : py_split c (py_join (String c "") (y :: t)) = y :: t) by (apply IH; done).
    destruct (py_split_app_sep c x (py_join (String c "") (y :: t)) Hx)
      as [[H1 ->]|(h & t' & H2 & H3)]; [by rewrite H1, Hrec | by rewrite H3, Hrec].
Qed.

Lemma py_join_snoc sep xs y :
  xs <> [] -> py_join sep (xs ++ [y]) = py_join sep xs +:+ sep +:+ y.
Proof.
  induction xs as [|x [|x' xs] IH]; intros Hne; [done|done|].
  change ((x :: x' :: xs) ++ [y]) with (x :: x' :: (xs ++ [y])).
  rewrite py_join_cons2. change (x' :: xs ++ [y]) with ((x' :: xs) ++ [y]).
  rewrite IH by done. rewrite py_join_cons2. by rewrite !string_app_assoc.
Qed.

(** Every character of a concatenation. *)
Lemma all_chars_app p a b : all_chars p (a +:+ b) = all_chars p a && all_chars p b.
Proof. induction a as [|c a IH]; [done|]. simpl. rewrite IH. apply andb_assoc. Qed.

(** ** Characters that survive the builtins

    [strip] keeps a substring, [replace(old, "")] removes every [old],
    and the fields of [split(sep)] have no [sep]. *)
Lemma str_mem_lstrip c p s : str_mem c (py_lstrip_by p s) = true -> str_mem c s = true.
Proof.
  induction s as [|d s IH]; [done|]. simpl.
  destruct (p d); [intros H; rewrite IH by done; apply orb_true_r|done].
Qed.

Lemma str_mem_rstrip c p s : str_mem c (py_rstrip_by p s) = true -> str_mem c s = true.
Proof.
  induction s as [|d s IH]; [done|]. simpl.
  destruct (py_rstrip_by p s) as [|e r] eqn:E; [destruct (p d)|]; simpl; [done| |].
  - rewrite orb_false_r. by intros ->.
  - intros [->|Hm]%orb_true_iff; [done|]. rewrite IH by done. apply orb_true_r.
Qed.

Lemma str_mem_strip c p s : str_mem c (py_strip_by p s) = true -> str_mem c s = true.
Proof. intros H. by apply str_mem_lstrip with p, str_mem_rstrip with p. Qed.

Lemma str_mem_replace_del c old s :
  str_mem c (py_replace old "" s) = true -> c <> old /\ str_mem c s = true.
Proof.
  induction s as [|d s IH]; [done|]. simpl.
  destruct (ascii_eqb d old) eqn:Ed; simpl.
  - intros [? ->]%IH. auto using orb_true_r.
  - intros [Hc|Hm]%orb_true_iff.
    + apply ascii_eqb_true in Hc as ->. split; [|by rewrite ascii_eqb_refl].
      intros ->. by rewrite ascii_eqb_refl in Ed.
    + destruct (IH Hm) as [? ->]. auto using orb_true_r.
Qed.

Lemma py_split_fields sep s : Forall (fun x => str_mem sep x = false) (py_split sep s).
Proof.
  induction s as [|d s IH]; simpl; [by repeat constructor|].
  destruct (ascii_eqb d sep) eqn:Ed; [by constructor|].
  destruct (py_split sep s) as [|h t] eqn:Hs; [by destruct (py_split_not_nil sep s)|].
  apply Forall_cons in IH as [Hh Ht]. constructor; [|done].
  simpl. rewrite Hh, orb_false_r. destruct (ascii_eqb sep d) eqn:E; [|done].
  apply ascii_eqb_true in E as ->. by rewrite ascii_eqb_refl in Ed.
Qed.

(** Two separators in a row give an empty field, which is not the first. *)
Lemma py_split_double c u v : "" ∈ tail (py_split c (u +:+ String c (String c v))).
Proof.
  induction u as [|d u IH]; simpl.
  - rewrite ascii_eqb_refl. simpl. by left.
  - destruct (ascii_eqb d c).
    + simpl. destruct (py_split c (u +:+ String c (String c v))) as [|h t]; [done|].
      simpl in IH. by right.
    + destruct (py_split c (u +:+ String c (String c v))) as [|h t]; done.
Qed.

(** ** The slice [s[:-1]] *)
Lemma py_drop_last_snoc s c : py_drop_last (s +:+ String c "") = s.
Proof.
  induction s as [|d s IH]; [done|].
  change (String d s +:+ String c "") with (String d (s +:+ String c "")).
  simpl. rewrite IH. by destruct s.
Qed.
