(* ===== verification/Helpers.v ===== *)
(** * src/helpers.py: constants, domain decomposition, reply parsing

    [splitInput], [getInput] (the loop over [range(numberOfWords)] with
    its [IndexError]), [getInputForNextServer] (clean every message, take
    the last), the parsing half of [actAsTemporaryClient], and the
    network interface [Network] through which [actAsTemporaryClient]
    exchanges its two datagrams and its reply. *)

From Stdlib Require Import NArith.
From S2P Require Import Prelude PyStr.

(** ** Constants (helpers.py lines 3-8) *)
Definition LOCAL_HOST : string := "localhost".
Definition LOCAL_DNS_SERVER_PORT : N := 53.
Definition ROOT_SERVER_PORT : N := 9001.
Definition TLD_SERVER_PORT : N := 9002.
Definition AUTHORITATIVE_SERVER_PORT : N := 9003.
Definition BUFFER_SIZE : N := 65535.

(** ** [getInputForNextServer]: strip, drop single quotes, reverse, take
    element 0 ([IndexError] on an empty list). *)
Definition clean_message (message : string) : string :=
  py_replace QUOTE "" (py_strip message).

Definition getInputForNextServer (listOfMessages : list string) : PyExc + string :=
  let cleanList := map clean_message listOfMessages in
  match rev cleanList with
  | ipAddressOfTld :: _ => inr ipAddressOfTld
  | [] => inl IndexError
  end.

(** ** [splitInput] *)
Definition splitInput (userInput : string) : list string := py_split DOT userInput.

(** ** [getInput]: [result = splitInput(givenInput); result.reverse()],
    then for [i] in [range(numberOfWords)]:
    [returningString = result[i] + "." + returningString]. *)
Fixpoint getInput_loop (result : list string) (range : list nat) (returningString : string)
  : PyExc + string :=
  match range with
  | [] => inr returningString
  | i :: range' =>
      match result !! i with
      | Some w => getInput_loop result range' (w +:+ "." +:+ returningString)
      | None => inl IndexError
      end
  end.

Definition getInput (givenInput : string) (numberOfWords : nat) : PyExc + string :=
  getInput_loop (rev (splitInput givenInput)) (seq 0 numberOfWords) "".

(** ** The parsing half of [actAsTemporaryClient]:
    [serverMessage.strip('[]').split(',')]. *)
Definition parse_reply (serverMessage : string) : list string :=
  py_split COMMA (py_strip_by (in_chars "[]") serverMessage).

(** ** The network seen by a temporary client

    [exchange w port nameServer message] sends the datagram [nameServer]
    then the datagram [message] to [(LOCAL_HOST, port)] and waits for one
    reply: [Some reply] when one arrives, [None] when [recvfrom] never
    returns (no timeout is set). *)
Class Network (W : Type) := exchange : W -> N -> string -> string -> option string * W.

(** [actAsTemporaryClient(message, connectingPort, nameServer)] *)
Definition actAsTemporaryClient `{Network W} (message : string) (connectingPort : N)
    (nameServer : string) : PyM W (list string) :=
  fun w => match exchange w connectingPort nameServer message with
           | (Some serverMessage, w') => Ret (parse_reply serverMessage) w'
           | (None, w') => Blocked w'
           end.

(** What [getInputForNextServer] hands back from a parsed reply: no
    comma (the reply was split on commas) and no single quote (removed
    by [replace]). *)
Definition clean_token (v : string) : bool :=
  negb (str_mem COMMA v) && negb (str_mem QUOTE v).

(** ** Lemmas *)

(** Each label followed by a dot: what the loop of [getInput] builds. *)
Definition dotted (ws : list string) : string :=
  foldr (fun w acc => w +:+ "." +:+ acc) "" ws.

Lemma dotted_join ws : ws <> [] -> dotted ws = py_join "." ws +:+ ".".
Proof.
  induction ws as [|w [|v t] IH]; intros Hne; [done| |].
  - simpl. by rewrite string_app_nil_r.
  - change (dotted (w :: v :: t)) with (w +:+ "." +:+ dotted (v :: t)).
    rewrite IH by done. rewrite py_join_cons2. by rewrite !string_app_assoc.
Qed.

Lemma getInput_loop_spec r m k :
  k + m <= length r ->
  getInput_loop r (seq k m) (dotted (rev (take k r))) = inr (dotted (rev (take (k + m) r))).
Proof.
  revert k. induction m as [|m IH]; intros k Hk.
  - by rewrite Nat.add_0_r.
  - simpl. destruct (r !! k) as [w|] eqn:Hw.
    + replace (k + S m) with (S k + m) by lia.
      rewrite <- (IH (S k)) by lia. rewrite (take_S_r r k w Hw), rev_app_distr.
      reflexivity.
    + apply lookup_ge_None in Hw. lia.
Qed.

Lemma getInput_loop_out_of_range r m k acc :
  0 < m -> length r < k + m -> getInput_loop r (seq k m) acc = inl IndexError.
Proof.
  revert k acc. induction m as [|m IH]; intros k acc Hm Hk; [lia|]. simpl.
  destruct (r !! k) as [w|] eqn:Hw; [|done].
  apply lookup_lt_Some in Hw.
  destruct m as [|m]; [lia|]. apply IH; lia.
Qed.

(** [getInput] returns the [numberOfWords] rightmost labels, in their
    order, each followed by a dot. *)
Lemma getInput_spec s n :
  n <= length (splitInput s) ->
  getInput s n = inr (dotted (drop (length (splitInput s) - n) (splitInput s))).
Proof.
  intros Hn. unfold getInput.
  change "" with (dotted (rev (take 0 (rev (splitInput s))))).
  rewrite getInput_loop_spec by (rewrite length_rev; lia).
  by rewrite firstn_rev, rev_involutive.
Qed.

(** With more words than labels the loop raises [IndexError]. *)
Lemma getInput_too_many s n :
  length (splitInput s) < n -> getInput s n = inl IndexError.
Proof.
  intros Hn. apply getInput_loop_out_of_range; rewrite ?length_rev; lia.
Qed.

Lemma splitInput_not_nil s : splitInput s <> [].
Proof. apply py_split_not_nil. Qed.

(** [getInput] over all the labels gives the domain and a trailing dot. *)
Lemma getInput_full d : getInput d (length (splitInput d)) = inr (d +:+ ".").
Proof.
  rewrite getInput_spec by lia. rewrite Nat.sub_diag. simpl drop.
  rewrite dotted_join by apply splitInput_not_nil.
  do 2 f_equal. apply (py_join_split DOT d).
Qed.

Lemma authoritative_key_full d : py_drop_last (d +:+ ".") = d.
Proof. apply py_drop_last_snoc. Qed.

(** [C7] The authoritative cache key of localDnsServer.py,
    [getInput(userInput, len(splitResult))[:-1]], is exactly the domain:
    [getInput] ends every label with a dot and the slice removes the last
    one, so no character of the name is lost.  (The spec, section 9, and
    the comment of localDnsServer.py lines 148-154 say the slice drops a
    character of the name.) *)
Theorem authoritativeInput_is_domain d :
  match getInput d (length (rev (splitInput d))) with
  | inr s => py_drop_last s = d
  | inl _ => False
  end.
Proof. rewrite length_rev, getInput_full. apply authoritative_key_full. Qed.

(** The payload of a non-empty reply is its last message, cleaned. *)
Lemma getInputForNextServer_last xs x :
  last xs = Some x -> getInputForNextServer xs = inr (clean_message x).
Proof.
  intros Hx. unfold getInputForNextServer.
  destruct (exists_last (l:=xs)) as (ys & y & ->).
  { intros ->. done. }
  rewrite last_app_single in Hx. injection Hx as ->.
  by rewrite map_app, rev_app_distr.
Qed.

Lemma getInputForNextServer_ok xs : xs <> [] -> exists x, getInputForNextServer xs = inr x.
Proof.
  intros Hne. destruct (last xs) as [x|] eqn:E.
  - eexists. by apply getInputForNextServer_last.
  - by apply last_None in E.
Qed.

(** ** The payload is a clean token *)
Lemma clean_message_token m : str_mem COMMA m = false -> clean_token (clean_message m) = true.
Proof.
  intros Hm. unfold clean_token, clean_message.
  destruct (str_mem COMMA (py_replace QUOTE "" (py_strip m))) eqn:Ec.
  { apply str_mem_replace_del in Ec as [_ Ec]. apply str_mem_strip in Ec. congruence. }
  destruct (str_mem QUOTE (py_replace QUOTE "" (py_strip m))) eqn:Eq; [|done].
  by apply str_mem_replace_del in Eq as [? _].
Qed.

Lemma getInputForNextServer_token xs v :
  Forall (fun x => str_mem COMMA x = false) xs ->
  getInputForNextServer xs = inr v -> clean_token v = true.
Proof.
  intros Hxs Hv. destruct (last xs) as [x|] eqn:E.
  - rewrite (getInputForNextServer_last xs x E) in Hv. injection Hv as <-.
    apply clean_message_token. apply last_Some_elem_of in E.
    by eapply Forall_forall in Hxs.
  - apply last_None in E as ->. done.
Qed.

Lemma parse_reply_fields r : Forall (fun x => str_mem COMMA x = false) (parse_reply r).
Proof. apply py_split_fields. Qed.

(** Every message [actAsTemporaryClient] returns is comma-free, and an
    invariant of the network that [exchange] keeps is kept. *)
Lemma actAsTemporaryClient_fields `{Network W} (I : W -> Prop) message port ns :
  (forall w, I w -> I (exchange w port ns message).2) ->
  triple I (actAsTemporaryClient message port ns) (Forall (fun x => str_mem COMMA x = false)).
Proof.
  intros HI w Hw. unfold actAsTemporaryClient. specialize (HI w Hw).
  destruct (exchange w port ns message) as [[r|] w']; simpl in *; [|done].
  split; [done|]. apply parse_reply_fields.
Qed.
