(* ===== verification/Protocol.v ===== *)
(** * The reply protocol between a tier and the resolver

    A tier replies with [str(result).encode()] (rootDnsServer.py line 170,
    authoritativeDnsServer.py line 103); the resolver decodes it with
    [serverMessage.strip('[]').split(',')] (helpers.py line 95) and keeps
    the last message, stripped and without single quotes
    ([getInputForNextServer]).  The payload survives when it is a
    "plain" string; a comma in it is lost. *)

From Stdlib Require Import Ascii.
From S2P Require Import Prelude PyStr Helpers.

(** [serverMessage = str(result).encode()] *)
Definition encode_reply (result : list string) : string := py_str_list result.

(** What the resolver makes of a reply: [getInputForNextServer] of the
    parsed list. *)
Definition reply_payload (serverMessage : string) : PyExc + string :=
  getInputForNextServer (parse_reply serverMessage).

(** ** Plain payloads: printable, with no single quote, backslash or
    comma.  Blanks are kept: they sit between the quotes of [repr].
    [repr] leaves a [repr_safe] character as it is. *)
Definition repr_safe (c : ascii) : bool :=
  py_isprintable c && negb (ascii_eqb c QUOTE) && negb (ascii_eqb c BACKSLASH).

Definition payload_char (c : ascii) : bool := repr_safe c && negb (ascii_eqb c COMMA).

Definition plain_payload (m : string) : bool := all_chars payload_char m.

(** ** Lemmas on strip *)
Lemma py_rstrip_snoc_out p s c :
  p c = false -> py_rstrip_by p (s +:+ String c "") = s +:+ String c "".
Proof.
  intros Hc. induction s as [|d s IH]; simpl; [by rewrite Hc|].
  change (String d s +:+ String c "") with (String d (s +:+ String c "")). simpl.
  rewrite IH. by destruct s.
Qed.

Lemma py_rstrip_snoc_in p s c :
  p c = true -> py_rstrip_by p (s +:+ String c "") = py_rstrip_by p s.
Proof.
  intros Hc. induction s as [|d s IH]; simpl; [by rewrite Hc|].
  change (String d s +:+ String c "") with (String d (s +:+ String c "")). simpl.
  by rewrite IH.
Qed.

Lemma py_lstrip_stop p c s : p c = false -> py_lstrip_by p (String c s) = String c s.
Proof. intros Hc. simpl. by rewrite Hc. Qed.

Lemma py_lstrip_all p pre s :
  all_chars p pre = true -> py_lstrip_by p (pre +:+ s) = py_lstrip_by p s.
Proof.
  induction pre as [|c pre IH]; [done|]. simpl. intros [Hc Hp]%andb_true_iff.
  rewrite Hc. by apply IH.
Qed.

(** [s.strip(chars)] of a string that starts and ends with characters
    outside the set, behind a prefix and before a character of the set. *)
Lemma py_strip_by_inner p pre x c1 x1 x2 cl :
  all_chars p pre = true -> p c1 = false -> p cl = false ->
  x = String c1 x1 -> x = x2 +:+ String cl "" ->
  py_strip_by p (pre +:+ x) = x.
Proof.
  intros Hpre Hc1 Hcl E1 E2. unfold py_strip_by.
  rewrite py_lstrip_all by done. rewrite E1, py_lstrip_stop by done. rewrite <- E1, E2.
  by apply py_rstrip_snoc_out.
Qed.

Lemma py_strip_by_wrap p b e x c1 x1 x2 cl :
  p b = true -> p e = true -> p c1 = false -> p cl = false ->
  x = String c1 x1 -> x = x2 +:+ String cl "" ->
  py_strip_by p (String b (x +:+ String e "")) = x.
Proof.
  intros Hb He Hc1 Hcl E1 E2. unfold py_strip_by. simpl. rewrite Hb.
  rewrite E1. change (String c1 x1 +:+ String e "") with (String c1 (x1 +:+ String e "")).
  rewrite py_lstrip_stop by done.
  change (String c1 (x1 +:+ String e "")) with (String c1 x1 +:+ String e "").
  rewrite <- E1, py_rstrip_snoc_in by done. rewrite E2. by apply py_rstrip_snoc_out.
Qed.

(** ** [repr] of a plain payload *)
Definition quoted (q : ascii) (y : string) : string := String q (y +:+ String q "").

Lemma str_mem_app c a b : str_mem c (a +:+ b) = str_mem c a || str_mem c b.
Proof. induction a as [|d a IH]; [done|]. simpl. rewrite IH. apply orb_assoc. Qed.

Lemma all_chars_not_mem p c s : all_chars p s = true -> p c = false -> str_mem c s = false.
Proof.
  induction s as [|d s IH]; [done|]. simpl. intros [Hd Hs]%andb_true_iff Hc.
  rewrite IH by done. destruct (ascii_eqb c d) eqn:E; [|done].
  apply ascii_eqb_true in E; subst. congruence.
Qed.

(** One character, all 256 cases. *)
Lemma repr_char_safe c : repr_safe c = true -> repr_char QUOTE c = String c "".
Proof.
  intros Hc. destruct c as [[] [] [] [] [] [] [] []]; vm_compute in Hc |- *;
    first [reflexivity | discriminate].
Qed.

Lemma repr_body_safe m : all_chars repr_safe m = true -> repr_body QUOTE m = m.
Proof.
  induction m as [|c m IH]; [done|]. simpl. intros [Hc Hm]%andb_true_iff.
  rewrite repr_char_safe by done. rewrite IH by done. reflexivity.
Qed.

Lemma py_repr_safe m : all_chars repr_safe m = true -> py_repr m = quoted QUOTE m.
Proof.
  intros Hm. unfold py_repr, repr_quote.
  rewrite (all_chars_not_mem repr_safe QUOTE m Hm) by reflexivity. simpl.
  by rewrite repr_body_safe.
Qed.

Lemma all_chars_impl (p q : ascii -> bool) s :
  (forall c, p c = true -> q c = true) -> all_chars p s = true -> all_chars q s = true.
Proof.
  intros Hpq. induction s as [|c s IH]; [done|]. simpl.
  intros [Hc Hs]%andb_true_iff. by rewrite Hpq, IH.
Qed.

Lemma plain_safe m : plain_payload m = true -> all_chars repr_safe m = true.
Proof.
  apply all_chars_impl. intros c Hc. unfold payload_char in Hc.
  by apply andb_true_iff in Hc as [? _].
Qed.

Lemma py_replace_app c n a b :
  py_replace c n (a +:+ b) = py_replace c n a +:+ py_replace c n b.
Proof.
  induction a as [|d a IH]; [done|]. simpl. rewrite IH.
  destruct (ascii_eqb d c); [by rewrite string_app_assoc | reflexivity].
Qed.

Lemma py_replace_absent c n s : str_mem c s = false -> py_replace c n s = s.
Proof.
  induction s as [|d s IH]; [done|]. simpl. intros Hs.
  rewrite (ascii_eqb_false_of_mem c d s Hs). apply orb_false_iff in Hs as [_ Hs].
  by rewrite IH.
Qed.

Lemma replace_quoted m : str_mem QUOTE m = false -> py_replace QUOTE "" (quoted QUOTE m) = m.
Proof.
  intros Hm. change (quoted QUOTE m) with (String QUOTE "" +:+ (m +:+ String QUOTE "")).
  rewrite !py_replace_app, (py_replace_absent QUOTE "" m Hm).
  change (py_replace QUOTE "" (String QUOTE "")) with "". change ("" +:+ ?x) with x.
  apply string_app_nil_r.
Qed.

(** ** The last field of [split] *)
Lemma py_split_last_field c a b :
  str_mem c b = false -> exists p0 pre, py_split c (a +:+ String c b) = p0 :: pre ++ [b].
Proof.
  intros Hb. induction a as [|d a IH]; simpl.
  - rewrite ascii_eqb_refl, py_split_no_sep by done. by exists "", [].
  - destruct IH as (p0 & pre & ->). destruct (ascii_eqb d c).
    + by exists "", (p0 :: pre).
    + by exists (String d p0), pre.
Qed.

(** ** The payload round trip *)
Lemma repr_quote_cases s : repr_quote s = QUOTE \/ repr_quote s = DQUOTE.
Proof. unfold repr_quote. destruct (_ && _); auto. Qed.

Lemma not_bracket_quote s : in_chars "[]" (repr_quote s) = false.
Proof. by destruct (repr_quote_cases s) as [-> | ->]. Qed.

Lemma clean_quoted pre m :
  all_chars py_isspace pre = true -> str_mem QUOTE m = false ->
  clean_message (pre +:+ quoted QUOTE m) = m.
Proof.
  intros Hpre Hm. unfold clean_message, py_strip.
  rewrite (py_strip_by_inner _ pre (quoted QUOTE m) QUOTE (m +:+ String QUOTE "")
             (String QUOTE m) QUOTE) by done.
  by apply replace_quoted.
Qed.

Lemma str_mem_quoted_comma m :
  all_chars payload_char m = true -> str_mem COMMA (quoted QUOTE m) = false.
Proof.
  intros Hm. unfold quoted. simpl. rewrite str_mem_app.
  by rewrite (all_chars_not_mem payload_char COMMA m Hm).
Qed.

Lemma py_join_map_repr_head a rest :
  exists j, py_join ", " (map py_repr (a :: rest)) = String (repr_quote a) j.
Proof. cbn [map]. unfold py_repr at 1. cbv zeta. rewrite py_join_String. by eexists. Qed.

(** [strip('[]')] of [str(msgs + [x])] for a last message [x] that
    [repr] leaves as it is: the [repr]s of the messages before [x], each
    followed by ", ", then [x] in single quotes. *)
Lemma encode_reply_strip msgs x :
  all_chars repr_safe x = true ->
  exists P, py_strip_by (in_chars "[]") (encode_reply (msgs ++ [x])) = P +:+ quoted QUOTE x /\
    (P = "" \/ exists P', P = P' +:+ ", ").
Proof.
  intros Hx. unfold encode_reply, py_str_list.
  rewrite map_app. cbn [map]. rewrite (py_repr_safe x Hx).
  destruct msgs as [|a rest].
  - exists "". split; [|by left]. simpl map.
    change (py_join ", " [quoted QUOTE x]) with (quoted QUOTE x).
    exact (py_strip_by_wrap _ LBRACKET RBRACKET (quoted QUOTE x) QUOTE
             (x +:+ String QUOTE "") (String QUOTE x) QUOTE eq_refl eq_refl eq_refl eq_refl
             eq_refl eq_refl).
  - rewrite py_join_snoc by done.
    destruct (py_join_map_repr_head a rest) as [j Hj]. rewrite Hj.
    exists (String (repr_quote a) j +:+ ", "). split; [|right; by eexists].
    rewrite (py_strip_by_wrap _ LBRACKET RBRACKET _ (repr_quote a)
               (j +:+ ", " +:+ quoted QUOTE x) (String (repr_quote a) j +:+ ", " +:+ String QUOTE x)
               QUOTE) by (try apply not_bracket_quote; by rewrite ?string_app_assoc).
    by rewrite string_app_assoc.
Qed.

Lemma reply_payload_encode_plain msgs m :
  plain_payload m = true -> reply_payload (encode_reply (msgs ++ [m])) = inr m.
Proof.
  intros Hm. pose proof (plain_safe m Hm) as Hs. unfold plain_payload in Hm.
  assert (Hq : str_mem QUOTE m = false) by (by apply (all_chars_not_mem payload_char)).
  unfold reply_payload, parse_reply.
  destruct (encode_reply_strip msgs m Hs) as (P & -> & [->|(P' & ->)]).
  - change ("" +:+ quoted QUOTE m) with (quoted QUOTE m).
    rewrite (py_split_no_sep _ _ (str_mem_quoted_comma m Hm)).
    rewrite (getInputForNextServer_last _ (quoted QUOTE m)) by done.
    f_equal. exact (clean_quoted "" m eq_refl Hq).
  - rewrite string_app_assoc.
    change (", " +:+ quoted QUOTE m) with (String COMMA (" " +:+ quoted QUOTE m)).
    assert (Hb : str_mem COMMA (" " +:+ quoted QUOTE m) = false)
      by exact (str_mem_quoted_comma m Hm).
    destruct (py_split_last_field COMMA P' _ Hb) as (p0 & pre & ->).
    rewrite (getInputForNextServer_last _ (" " +:+ quoted QUOTE m)).
    + f_equal. exact (clean_quoted " " m eq_refl Hq).
    + change (p0 :: pre ++ [" " +:+ quoted QUOTE m]) with ((p0 :: pre) ++ [" " +:+ quoted QUOTE m]).
      apply last_app_single.
Qed.

(** [C8] The payload survives the protocol: whatever messages precede
    it, a plain last message [m] (printable, no single quote, backslash or
    comma) sent by a tier as [str(result)] is what [getInputForNextServer]
    extracts from [strip('[]').split(',')] of the reply. *)
Theorem reply_payload_roundtrip msgs m :
  plain_payload m = true -> reply_payload (encode_reply (msgs ++ [m])) = inr m.
Proof. exact (reply_payload_encode_plain msgs m). Qed.





Lemma reply_payload_roundtrip_witness :
  plain_payload "128.119.245.12" = true /\
  reply_payload (encode_reply ["IP address of the x is y"; "128.119.245.12"]) = inr "128.119.245.12".
Proof.
  split; [reflexivity|].
  apply (reply_payload_roundtrip ["IP address of the x is y"] "128.119.245.12"). reflexivity.
Defined.
