(* ===== verification/LocalResolver.v ===== *)
(** * src/localDnsServer.py: the local resolver

    The resolver's state [LState]: the global dict [cache] (a
    [gmap string string]), the network it talks to (any [Network]), the
    datagrams it sent to the tiers ([sent]) and the datagrams it sent to
    its client ([to_client]).  [handle_request] is the body of the
    [while True] loop of [localDnsServer] for one client datagram;
    [localDnsServer] runs it over a sequence of datagrams.  The file also
    holds the spec's three-stage resolution ([spec_step]) and the
    refinement by [handle_request], the frame of the cache, the process
    lemmas, the invariants of the network that every operation keeps
    ([NetworkInvariant]), the type of the cache ([CacheTokens], by Hoare
    triples), the keys the cache may hold, a repeated request ([Repeat])
    and the progress of the resolver on a network whose tiers always
    answer ([Answering], by total-correctness triples).  *)

From Stdlib Require Import NArith.
From S2P Require Import Prelude PyStr Helpers.

Section LocalResolver.
Context {W : Type} `{Network W}.

Record LState := mkLState {
  cache : gmap string string;
  world : W;
  sent : list (N * string * string);   (* (port, nameServer, query) *)
  to_client : list string
}.

(** Every exchange with a tier is recorded in [sent]. *)
#[export] Instance LState_network : Network LState :=
  fun st port ns msg =>
    let '(r, w') := exchange (world st) port ns msg in
    (r, mkLState (cache st) w' (sent st ++ [(port, ns, msg)]) (to_client st)).

Definition set_cache (k v : string) : PyM LState unit :=
  modify (fun st => mkLState (<[k := v]> (cache st)) (world st) (sent st) (to_client st)).

(** [localDnsServerSocket.sendto(message, clientAddress)] *)
Definition send_to_client (m : string) : PyM LState unit :=
  modify (fun st => mkLState (cache st) (world st) (sent st) (to_client st ++ [m])).

(** [fetchFromCache]: [cache.get(searchKey)] (lines 18-22). *)
Definition fetchFromCache (searchKey : string) : PyM LState (option string) :=
  st ← get; mret (cache st !! searchKey).

(** [generalServerHandler] (lines 25-48): one exchange, then the
    payload of the reply.  [message] is only printed. *)
Definition generalServerHandler (userInput nameServer : string) (connectedPort : N)
    (message : string) : PyM LState string :=
  result ← actAsTemporaryClient userInput connectedPort nameServer;
  lift (getInputForNextServer result).

(** [rootInput in cache] *)
Definition dict_contains (c : gmap string string) (k : string) : bool :=
  match c !! k with Some _ => true | None => false end.

(** [bool(cache) and rootInput in cache] (line 159) *)
Definition root_cache_hit (c : gmap string string) (rootInput : string) : bool :=
  bool_decide (c ≠ ∅) && dict_contains c rootInput.

(** The root stage (lines 159-194): the cache, or the root tier.  A
    missing key would make [tldNameServer] [None], whose [.encode()] in
    [actAsTemporaryClient] raises [AttributeError]. *)
Definition root_stage (userInput rootNameServer rootInput : string) : PyM LState string :=
  st ← get;
  if root_cache_hit (cache st) rootInput then
    o ← fetchFromCache rootInput;
    match o with Some v => mret v | None => raise AttributeError end
  else generalServerHandler userInput rootNameServer ROOT_SERVER_PORT "Root Result".

(** The acknowledgement of lines 69-79. *)
Definition hang_in_there (userInput : string) : string :=
  "Hang in there client, I will get the IP Address of the " +:+ dq userInput.

(** One iteration of the [while True] loop of [localDnsServer]
    (lines 64-219), for the client datagram [userInput];
    [rootNameServer] is [defaultResolver.nameservers[0]]. *)
Definition handle_request (rootNameServer userInput : string) : PyM LState unit :=
  send_to_client (hang_in_there userInput);;
  let splitResult := rev (splitInput userInput) in
  match splitResult with
  | rootInput :: tldInput0 :: _ =>
      let tldInput := tldInput0 +:+ "." +:+ rootInput in
      authoritativeInput ← lift (getInput userInput (length splitResult));
      let authoritativeInput := py_drop_last authoritativeInput in
      tldNameServer ← root_stage userInput rootNameServer rootInput;
      set_cache rootInput tldNameServer;;
      authoritativeServer ←
        generalServerHandler userInput tldNameServer TLD_SERVER_PORT "TLD Result";
      set_cache tldInput authoritativeServer;;
      finalIpAddress ←
        generalServerHandler userInput authoritativeServer AUTHORITATIVE_SERVER_PORT
          "Authoritative Result";
      set_cache authoritativeInput finalIpAddress;;
      send_to_client finalIpAddress
  | _ => raise ValueError   (* rootInput, tldInput, *_ = splitResult *)
  end.

(** ** The process: the loop over the client datagrams.  The [try] of
    the source is commented out, so an exception ends the process; a
    [recvfrom] that never returns leaves it waiting for ever. *)
Inductive LocalProc := Serving | Crashed (e : PyExc) | Waiting.

Definition serve_one (rootNameServer : string) (p : LocalProc * LState) (userInput : string)
  : LocalProc * LState :=
  match p with
  | (Serving, st) =>
      match handle_request rootNameServer userInput st with
      | Ret _ st' => (Serving, st')
      | Raise e st' => (Crashed e, st')
      | Blocked st' => (Waiting, st')
      end
  | _ => p
  end.

Definition localDnsServer (rootNameServer : string) (inputs : list string) (st : LState)
  : LocalProc * LState :=
  foldl (serve_one rootNameServer) (Serving, st) inputs.

End LocalResolver.

Arguments LState W : clear implicits.

(** ** The keys of the cache

    The spec (section 4.1) names [suffix d k], the [k] rightmost labels of
    [d] joined with dots; the resolver computes its three keys its own
    way.  The lemmas relate the two. *)
Definition suffix (d : string) (k : nat) : string :=
  py_join "." (drop (length (splitInput d) - k) (splitInput d)).

Lemma splitInput_rev_cons d r0 t :
  rev (splitInput d) = r0 :: t -> splitInput d = rev t ++ [r0].
Proof. intros E. by rewrite <- (rev_involutive (splitInput d)), E. Qed.

Lemma suffix_1 d r0 t : rev (splitInput d) = r0 :: t -> suffix d 1 = r0.
Proof.
  intros E. unfold suffix. rewrite (splitInput_rev_cons d r0 t E), length_app, length_rev.
  simpl. rewrite Nat.add_sub, drop_app_length' by (by rewrite length_rev). done.
Qed.

Lemma suffix_2 d r0 r1 t :
  rev (splitInput d) = r0 :: r1 :: t -> suffix d 2 = r1 +:+ "." +:+ r0.
Proof.
  intros E. unfold suffix.
  assert (splitInput d = rev t ++ [r1; r0]) as ->.
  { rewrite <- (rev_involutive (splitInput d)), E. simpl. by rewrite <- app_assoc. }
  rewrite length_app, length_rev. simpl.
  replace (length t + 2 - 2) with (length t) by lia.
  rewrite drop_app_length' by (by rewrite length_rev). done.
Qed.

(** The whole domain is its own longest suffix. *)
Lemma suffix_full d : suffix d (length (splitInput d)) = d.
Proof. unfold suffix. rewrite Nat.sub_diag. apply (py_join_split DOT d). Qed.

(** [getInput] of [n] words is the suffix of [n] labels and a dot. *)
Lemma getInput_suffix d n :
  1 <= n <= length (splitInput d) -> getInput d n = inr (suffix d n +:+ ".").
Proof.
  intros Hn. rewrite getInput_spec by lia. unfold suffix.
  rewrite dotted_join; [done|]. intros Hd.
  apply (f_equal length) in Hd. rewrite length_drop in Hd. simpl in Hd. lia.
Qed.

(** The three keys of a name of two labels or more are pairwise distinct. *)
Lemma suffix_1_neq d :
  2 <= length (splitInput d) ->
  suffix d 1 <> suffix d 2 /\ suffix d 1 <> suffix d (length (splitInput d)).
Proof.
  intros Hlen. rewrite <- length_rev in Hlen.
  destruct (rev (splitInput d)) as [|r0 [|r1 t]] eqn:E; simpl in Hlen; [lia|lia|].
  rewrite (suffix_1 d r0 (r1 :: t) E), (suffix_2 d r0 r1 t E), suffix_full.
  assert (Hd : d = py_join "." (rev t ++ [r1]) +:+ "." +:+ r0).
  { rewrite <- (py_join_split DOT d) at 1. fold (splitInput d).
    rewrite <- (rev_involutive (splitInput d)), E. simpl rev.
    rewrite py_join_snoc by (by destruct (rev t)). done. }
  split; intros Heq.
  - apply (f_equal String.length) in Heq. rewrite !string_length_app in Heq. simpl in Heq. lia.
  - rewrite Hd in Heq. apply (f_equal String.length) in Heq.
    rewrite !string_length_app in Heq. simpl in Heq. lia.
Qed.

(** With three labels or more, the TLD key is shorter than the domain. *)
Lemma suffix_2_neq_full d : 3 <= length (splitInput d) -> suffix d 2 <> d.
Proof.
  intros Hlen. rewrite <- length_rev in Hlen.
  destruct (rev (splitInput d)) as [|r0 [|r1 [|r2 t]]] eqn:E; simpl in Hlen; [lia|lia|lia|].
  rewrite (suffix_2 d r0 r1 (r2 :: t) E).
  assert (Hd : d = (py_join "." (rev t ++ [r2]) +:+ "." +:+ r1) +:+ "." +:+ r0).
  { rewrite <- (py_join_split DOT d) at 1. fold (splitInput d).
    rewrite <- (rev_involutive (splitInput d)), E. simpl rev.
    rewrite py_join_snoc, py_join_snoc; [done|..]; intros Hn; apply (f_equal length) in Hn;
      rewrite ?length_app in Hn; simpl in Hn; lia. }
  intros Heq. rewrite Hd in Heq. apply (f_equal String.length) in Heq.
  rewrite !string_length_app in Heq. simpl in Heq. lia.
Qed.

(** [C24] [getInput] on every branch, against the spec's [suffix]: no
    word gives the empty string, [n] words of a name of at least [n]
    labels give the [n] rightmost labels in their order and a trailing
    dot, more words than labels raise [IndexError]. *)
Theorem getInput_cases d n :
  getInput d n =
    if n =? 0 then inr ""
    else if n <=? length (splitInput d) then inr (suffix d n +:+ ".")
    else inl IndexError.
Proof.
  destruct n as [|n]; [reflexivity|]. cbn [Nat.eqb].
  destruct (S n <=? length (splitInput d)) eqn:E; [apply Nat.leb_le in E|apply Nat.leb_gt in E].
  - apply getInput_suffix; lia.
  - apply getInput_too_many; lia.
Qed.

Lemma root_cache_hit_spec c k : root_cache_hit c k = true <-> is_Some (c !! k).
Proof.
  unfold root_cache_hit, dict_contains. rewrite andb_true_iff, bool_decide_eq_true.
  destruct (c !! k) eqn:E; split; intros Hc; try done.
  - split; [|done]. intros ->. by rewrite lookup_empty in E.
  - by destruct Hc as [_ ?].
Qed.

(** ** One exchange with a tier: its effect on the state *)
Section Exchange.
Context {W : Type} `{Network W}.

Definition with_cache (k v : string) (st : LState W) : LState W :=
  mkLState (<[k := v]> (cache st)) (world st) (sent st) (to_client st).

Definition with_reply (m : string) (st : LState W) : LState W :=
  mkLState (cache st) (world st) (sent st) (to_client st ++ [m]).

Lemma parse_reply_not_nil r : parse_reply r <> [].
Proof. apply py_split_not_nil. Qed.

(** A query to a tier either returns the payload or blocks; it never
    raises, and it changes nothing but the network and the log. *)
Lemma generalServerHandler_cases u ns p m (st : LState W) r w' :
  exchange (world st) p ns u = (r, w') ->
  let st' := mkLState (cache st) w' (sent st ++ [(p, ns, u)]) (to_client st) in
  generalServerHandler u ns p m st =
    match r with
    | Some raw => match getInputForNextServer (parse_reply raw) with
                  | inr v => Ret v st'
                  | inl e => Raise e st'
                  end
    | None => Blocked st'
    end.
Proof.
  intros E.
  cbv [generalServerHandler actAsTemporaryClient mbind PyM_bind bind LState_network exchange].
  cbv [exchange] in E. rewrite E.
  destruct r as [raw|]; [|done]. destruct (getInputForNextServer (parse_reply raw)); reflexivity.
Qed.

Lemma generalServerHandler_frame u ns p m (st : LState W) :
  (exists v st', generalServerHandler u ns p m st = Ret v st' /\
     cache st' = cache st /\ to_client st' = to_client st /\ sent st' = sent st ++ [(p, ns, u)]) \/
  (exists st', generalServerHandler u ns p m st = Blocked st' /\
     cache st' = cache st /\ to_client st' = to_client st /\ sent st' = sent st ++ [(p, ns, u)]).
Proof.
  destruct (exchange (world st) p ns u) as [r w'] eqn:E.
  rewrite (generalServerHandler_cases u ns p m st r w' E). destruct r as [raw|].
  - destruct (getInputForNextServer_ok (parse_reply raw) (parse_reply_not_nil raw)) as [v ->].
    left. by eexists _, _.
  - right. by eexists.
Qed.

End Exchange.

(** ** The three-stage resolution of the spec (section 4.4)

    Stages of one resolution, and the step relation of the spec over
    them: the root stage reads the cache under [suffix d 1] and queries
    the root tier only on a miss; the TLD and authoritative stages always
    query their tier; each stage stores its answer under [suffix d 1],
    [suffix d 2] and [suffix d N].  A tier is reached through
    [generalServerHandler] (the TierClient of the spec). *)
Inductive Stage :=
| RootLookup
| TldLookup (tldServer : string)
| AuthoritativeLookup (authoritativeServer : string)
| Done (finalIp : string).

Section Spec.
Context {W : Type} `{Network W}.
Variables (rootNameServer d : string).

Definition tier_query (port : N) (nameServer : string) : PyM (LState W) string :=
  generalServerHandler d nameServer port "".

Inductive spec_step : Stage * LState W -> Stage * LState W -> Prop :=
| sp_root_hit st v :
    cache st !! suffix d 1 = Some v ->
    spec_step (RootLookup, st) (TldLookup v, st)
| sp_root_miss st st' v :
    cache st !! suffix d 1 = None ->
    tier_query ROOT_SERVER_PORT rootNameServer st = Ret v st' ->
    spec_step (RootLookup, st) (TldLookup v, with_cache (suffix d 1) v st')
| sp_tld st st' v a :
    tier_query TLD_SERVER_PORT v st = Ret a st' ->
    spec_step (TldLookup v, st) (AuthoritativeLookup a, with_cache (suffix d 2) a st')
| sp_auth st st' a f :
    tier_query AUTHORITATIVE_SERVER_PORT a st = Ret f st' ->
    spec_step (AuthoritativeLookup a, st)
      (Done f, with_cache (suffix d (length (splitInput d))) f st').

(** The query a stage waits on, if any. *)
Definition stage_query (stg : Stage) (st : LState W) : option (N * string) :=
  match stg with
  | RootLookup =>
      match cache st !! suffix d 1 with
      | Some _ => None
      | None => Some (ROOT_SERVER_PORT, rootNameServer)
      end
  | TldLookup v => Some (TLD_SERVER_PORT, v)
  | AuthoritativeLookup a => Some (AUTHORITATIVE_SERVER_PORT, a)
  | Done _ => None
  end.

End Spec.

(** ** Refinement: [handle_request] implements the three-stage spec *)
Section Refinement.
Context {W : Type} `{Network W}.
Variables (rootNameServer d : string).

(** An outcome of the handler matches a run of the spec from [start]:
    a returned request is a run to [Done f] followed by the reply [f] to
    the client; a blocked request is a run to a stage whose tier query
    blocks; no request raises. *)
Definition run_matches (start : Stage * LState W) (o : outcome (LState W) unit) : Prop :=
  match o with
  | Ret _ st' => exists f s1,
      rtc (spec_step rootNameServer d) start (Done f, s1) /\ st' = with_reply f s1
  | Blocked st' => exists stg s1 p ns,
      rtc (spec_step rootNameServer d) start (stg, s1) /\
      stage_query rootNameServer d stg s1 = Some (p, ns) /\ tier_query d p ns s1 = Blocked st'
  | Raise _ _ => False
  end.

Lemma run_matches_step x y o :
  spec_step rootNameServer d x y -> run_matches y o -> run_matches x o.
Proof.
  intros Hs. destruct o; simpl; [| done |].
  - intros (f & s1 & Hr & ->). exists f, s1. split; [by eapply rtc_l|done].
  - intros (stg & s1 & p & ns & Hr & Hq & Hb). exists stg, s1, p, ns. by split; [eapply rtc_l|].
Qed.

Lemma run_matches_blocked stg s p ns s' :
  stage_query rootNameServer d stg s = Some (p, ns) -> tier_query d p ns s = Blocked s' ->
  run_matches (stg, s) (Blocked s').
Proof. intros Hq Hb. exists stg, s, p, ns. by split; [apply rtc_refl|]. Qed.

(** The handler after the acknowledgement, cut at its three stages. *)
Definition auth_part (a : string) : PyM (LState W) unit :=
  f ← generalServerHandler d a AUTHORITATIVE_SERVER_PORT "Authoritative Result";
  set_cache (suffix d (length (splitInput d))) f;;
  send_to_client f.

Definition tld_part (v : string) : PyM (LState W) unit :=
  a ← generalServerHandler d v TLD_SERVER_PORT "TLD Result";
  set_cache (suffix d 2) a;;
  auth_part a.

Definition root_part : PyM (LState W) unit :=
  v ← root_stage d rootNameServer (suffix d 1);
  set_cache (suffix d 1) v;;
  tld_part v.

Lemma handle_request_unfold (st : LState W) r0 r1 t :
  rev (splitInput d) = r0 :: r1 :: t ->
  handle_request rootNameServer d st = root_part (with_reply (hang_in_there d) st).
Proof.
  intros E.
  unfold root_part, tld_part, auth_part.
  rewrite (suffix_1 d r0 (r1 :: t) E), (suffix_2 d r0 r1 t E), suffix_full.
  unfold handle_request. rewrite length_rev, getInput_full.
  cbv [mbind PyM_bind bind lift ret send_to_client modify]. rewrite E.
  rewrite authoritative_key_full. reflexivity.
Qed.

Ltac stage_query_step E :=
  cbv [mbind PyM_bind]; rewrite (bind_Ret _ _ _ _ _ E); cbv [set_cache modify bind].

Lemma auth_part_matches a s : run_matches (AuthoritativeLookup a, s) (auth_part a s).
Proof.
  unfold auth_part.
  destruct (generalServerHandler_frame d a AUTHORITATIVE_SERVER_PORT "Authoritative Result" s)
    as [(f & s' & E & _)|(s' & E & _)].
  - stage_query_step E. exists f, (with_cache (suffix d (length (splitInput d))) f s').
    split; [|done]. apply rtc_once. by constructor.
  - cbv [mbind PyM_bind]. rewrite (bind_Blocked _ _ _ _ E). by eapply run_matches_blocked.
Qed.

Lemma tld_part_matches v s : run_matches (TldLookup v, s) (tld_part v s).
Proof.
  unfold tld_part.
  destruct (generalServerHandler_frame d v TLD_SERVER_PORT "TLD Result" s)
    as [(a & s' & E & _)|(s' & E & _)].
  - stage_query_step E. eapply run_matches_step; [by constructor|]. apply auth_part_matches.
  - cbv [mbind PyM_bind]. rewrite (bind_Blocked _ _ _ _ E). by eapply run_matches_blocked.
Qed.

Lemma with_cache_id k v (s : LState W) : cache s !! k = Some v -> with_cache k v s = s.
Proof. intros Hk. destruct s; unfold with_cache; simpl in *. by rewrite insert_id. Qed.

Lemma root_stage_hit u k v (s : LState W) :
  cache s !! k = Some v -> root_stage u rootNameServer k s = Ret v s.
Proof.
  intros Hk. unfold root_stage. cbv [mbind PyM_bind bind get].
  assert (root_cache_hit (cache s) k = true) as -> by (apply root_cache_hit_spec; by eexists).
  cbv [fetchFromCache bind get mbind PyM_bind ret mret PyM_ret]. by rewrite Hk.
Qed.

Lemma root_stage_miss u k (s : LState W) :
  cache s !! k = None ->
  root_stage u rootNameServer k s = generalServerHandler u rootNameServer ROOT_SERVER_PORT "" s.
Proof.
  intros Hk. unfold root_stage. cbv [mbind PyM_bind bind get].
  destruct (root_cache_hit (cache s) k) eqn:Hh; [|done].
  apply root_cache_hit_spec in Hh. rewrite Hk in Hh. by destruct Hh.
Qed.

Lemma set_cache_Ret k v (s : LState W) : set_cache k v s = Ret tt (with_cache k v s).
Proof. reflexivity. Qed.

Lemma handle_request_run_matches (st : LState W) :
  2 <= length (splitInput d) ->
  run_matches (RootLookup, with_reply (hang_in_there d) st) (handle_request rootNameServer d st).
Proof.
  intros Hlen. rewrite <- length_rev in Hlen.
  destruct (rev (splitInput d)) as [|r0 [|r1 t]] eqn:E; simpl in Hlen; [lia|lia|].
  rewrite (handle_request_unfold st r0 r1 t E). unfold root_part.
  set (s0 := with_reply (hang_in_there d) st). cbv [mbind PyM_bind].
  destruct (cache s0 !! suffix d 1) as [v|] eqn:Hc.
  - rewrite (bind_Ret _ _ _ _ _ (root_stage_hit _ _ _ _ Hc)).
    rewrite (bind_Ret _ _ _ _ _ (set_cache_Ret _ _ _)), (with_cache_id _ _ _ Hc).
    eapply run_matches_step; [by constructor|]. apply tld_part_matches.
  - pose proof (root_stage_miss d _ _ Hc) as Hm.
    destruct (generalServerHandler_frame d rootNameServer ROOT_SERVER_PORT "" s0)
      as [(v & s' & E1 & _)|(s' & E1 & _)].
    + rewrite (bind_Ret _ _ _ _ _ (eq_trans Hm E1)).
      rewrite (bind_Ret _ _ _ _ _ (set_cache_Ret _ _ _)).
      eapply run_matches_step; [by econstructor|]. apply tld_part_matches.
    + rewrite (bind_Blocked _ _ _ _ (eq_trans Hm E1)). eapply run_matches_blocked; [|exact E1].
      unfold stage_query. by rewrite Hc.
Qed.

(** [C1] The local resolver refines the three-stage resolution of the
    spec: for a domain of at least two labels, after the acknowledgement
    to the client, [handle_request] either runs the spec's stages
    (root from the cache or the root tier, then the TLD tier, then the
    authoritative tier, storing under [suffix d 1], [suffix d 2] and
    [suffix d N]) to [Done f] and replies [f], or blocks on the query of
    the stage it reached with the cache of the completed stages; it never
    raises. *)
Theorem handle_request_refines (st : LState W) :
  2 <= length (splitInput d) ->
  run_matches (RootLookup, with_reply (hang_in_there d) st) (handle_request rootNameServer d st).
Proof. exact (handle_request_run_matches st). Qed.

End Refinement.

(** ** The cache along a resolution *)
Section CacheFrame.
Context {W : Type} `{Network W}.

(** The three keys a resolution of [d] writes. *)
Definition cache_keys (d : string) : list string :=
  [suffix d 1; suffix d 2; suffix d (length (splitInput d))].

(** [c'] differs from [c] only at the keys of [d], and has every key of [c]. *)
Definition cache_frame (d : string) (c c' : gmap string string) : Prop :=
  (forall k, k ∉ cache_keys d -> c' !! k = c !! k) /\ dom c ⊆ dom c'.

#[export] Instance cache_frame_preorder d : PreOrder (cache_frame d).
Proof.
  split.
  - intros c. split; [done|set_solver].
  - intros c1 c2 c3 [H12 D12] [H23 D23]. split; [|set_solver].
    intros k Hk. by rewrite H23, H12.
Qed.

Lemma cache_frame_insert d c k v : k ∈ cache_keys d -> cache_frame d c (<[k := v]> c).
Proof.
  intros Hk. split.
  - intros j Hj. rewrite lookup_insert_ne; [done|]. intros ->. contradiction.
  - rewrite dom_insert_L. set_solver.
Qed.

Lemma generalServerHandler_Ret u ns p m (s s' : LState W) v :
  generalServerHandler u ns p m s = Ret v s' ->
  cache s' = cache s /\ to_client s' = to_client s /\ sent s' = sent s ++ [(p, ns, u)].
Proof.
  intros E. destruct (generalServerHandler_frame u ns p m s)
    as [(v' & s1 & E1 & Hc)|(s1 & E1 & Hc)]; rewrite E1 in E; [|done].
  by injection E as -> ->.
Qed.

Lemma generalServerHandler_Blocked u ns p m (s s' : LState W) :
  generalServerHandler u ns p m s = Blocked s' ->
  cache s' = cache s /\ to_client s' = to_client s /\ sent s' = sent s ++ [(p, ns, u)].
Proof.
  intros E. destruct (generalServerHandler_frame u ns p m s)
    as [(v' & s1 & E1 & Hc)|(s1 & E1 & Hc)]; rewrite E1 in E; [done|].
  by injection E as ->.
Qed.

Lemma spec_step_cache_frame rootNameServer d x s y s' :
  spec_step rootNameServer d (x, s) (y, s') -> cache_frame d (cache s) (cache s').
Proof.
  inversion 1 as [? ? Hc|? ? ? Hc Hq|? ? ? ? Hq|? ? ? ? Hq]; subst; [reflexivity| | |];
    unfold tier_query, with_cache in *; simpl;
    destruct (generalServerHandler_Ret _ _ _ _ _ _ _ Hq) as (-> & _);
    apply cache_frame_insert; unfold cache_keys; set_solver.
Qed.

Lemma spec_run_cache_frame rootNameServer d x s y s' :
  rtc (spec_step rootNameServer d) (x, s) (y, s') -> cache_frame d (cache s) (cache s').
Proof.
  intros Hr. remember (x, s) as a eqn:Ea. remember (y, s') as b eqn:Eb.
  revert x s Ea. induction Hr as [a|a [x2 s2] c Hs Hr IH]; intros x s ->; subst.
  - by injection Eb as -> ->.
  - etrans; [by eapply spec_step_cache_frame|]. by eapply IH.
Qed.

End CacheFrame.

(** ** Properties of the handler *)
Section HandlerTheorems.
Context {W : Type} `{Network W}.

Lemma handle_request_short_raises rootNameServer d (st : LState W) :
  length (splitInput d) < 2 ->
  handle_request rootNameServer d st = Raise ValueError (with_reply (hang_in_there d) st).
Proof.
  intros Hlen. rewrite <- length_rev in Hlen. unfold handle_request.
  cbv [mbind PyM_bind bind send_to_client modify raise].
  destruct (rev (splitInput d)) as [|r0 [|r1 t]]; simpl in Hlen; [done|done|lia].
Qed.

(** [C19] A name of fewer than two labels (no dot) makes the unpacking
    [rootInput, tldInput, *_ = splitResult] raise [ValueError] after the
    acknowledgement has been sent, before any tier is contacted and with
    the cache untouched; the resolver process ends there. *)
Theorem handle_request_short rootNameServer d (st : LState W) :
  length (splitInput d) < 2 ->
  handle_request rootNameServer d st = Raise ValueError (with_reply (hang_in_there d) st).
Proof. exact (handle_request_short_raises rootNameServer d st). Qed.

Lemma handle_request_cache_frame_long rootNameServer d (st : LState W) :
  2 <= length (splitInput d) ->
  cache_frame d (cache st) (cache (final_state (handle_request rootNameServer d st))).
Proof.
  intros Hlen. pose proof (handle_request_run_matches rootNameServer d st Hlen) as Hr.
  destruct (handle_request rootNameServer d st) as [u s'|e s'|s']; simpl in *; [|done|].
  - destruct Hr as (f & s1 & Hrun & Heq). rewrite Heq. exact (spec_run_cache_frame _ _ _ _ _ _ Hrun).
  - destruct Hr as (stg & s1 & p & ns & Hrun & _ & Hb).
    unfold tier_query in Hb. destruct (generalServerHandler_Blocked _ _ _ _ _ _ Hb) as (-> & _).
    exact (spec_run_cache_frame _ _ _ _ _ _ Hrun).
Qed.

Lemma handle_request_frame rootNameServer d (st : LState W) :
  cache_frame d (cache st) (cache (final_state (handle_request rootNameServer d st))).
Proof.
  destruct (decide (2 <= length (splitInput d))) as [Hlen|Hlen].
  - by apply handle_request_cache_frame_long.
  - rewrite handle_request_short_raises by lia. reflexivity.
Qed.

(** [C5] Whatever its outcome (reply, blocked tier, [ValueError]),
    handling a request for [d] keeps every cache entry (the cache never
    loses a key) and changes entries only under the three keys of [d]:
    [suffix d 1], [suffix d 2] and the whole domain. *)
Theorem handle_request_cache_frame rootNameServer d (st : LState W) :
  cache_frame d (cache st) (cache (final_state (handle_request rootNameServer d st))).
Proof. exact (handle_request_frame rootNameServer d st). Qed.

Lemma spec_run_done rootNameServer d x s f s1 :
  rtc (spec_step rootNameServer d) (x, s) (Done f, s1) ->
  (x = Done f /\ s = s1) \/ cache s1 !! suffix d (length (splitInput d)) = Some f.
Proof.
  intros Hr. remember (x, s) as a eqn:Ea. remember (Done f, s1) as b eqn:Eb.
  revert x s Ea. induction Hr as [a|a [y s2] c Hs Hr IH]; intros x s ->; subst.
  - left. by injection Eb as -> ->.
  - destruct (IH eq_refl y s2 eq_refl) as [[-> <-]|Hk]; [|by right].
    right. inversion Hs; subst. unfold with_cache. simpl. by rewrite lookup_insert_eq.
Qed.

(** [C9] A request that completes replies to the client with the address
    it has just cached under the whole domain name (the key
    [authoritativeInput], which is the domain itself). *)
Theorem handle_request_answer rootNameServer d (st st' : LState W) u :
  2 <= length (splitInput d) ->
  handle_request rootNameServer d st = Ret u st' ->
  exists f, cache st' !! d = Some f /\ last (to_client st') = Some f.
Proof.
  intros Hlen Hh. pose proof (handle_request_run_matches rootNameServer d st Hlen) as Hr.
  rewrite Hh in Hr. destruct Hr as (f & s1 & Hrun & ->). exists f.
  destruct (spec_run_done _ _ _ _ _ _ Hrun) as [[[=] _]|Hk].
  rewrite suffix_full in Hk. split; [exact Hk|]. apply last_app_single.
Qed.

(** The datagrams of the TLD and authoritative stages. *)
Definition tld_auth_sent (d v : string) (base : list (N * string * string))
    (o : outcome (LState W) unit) : Prop :=
  match o with
  | Ret _ s' => exists a, sent s' = base ++ [(TLD_SERVER_PORT, v, d); (AUTHORITATIVE_SERVER_PORT, a, d)]
  | Blocked s' => sent s' = base ++ [(TLD_SERVER_PORT, v, d)] \/
      exists a, sent s' = base ++ [(TLD_SERVER_PORT, v, d); (AUTHORITATIVE_SERVER_PORT, a, d)]
  | Raise _ _ => False
  end.

Lemma tld_part_sent d v (s : LState W) : tld_auth_sent d v (sent s) (tld_part d v s).
Proof.
  unfold tld_part, auth_part. cbv [mbind PyM_bind].
  destruct (generalServerHandler_frame d v TLD_SERVER_PORT "TLD Result" s)
    as [(a & s1 & E1 & _ & _ & S1)|(s1 & E1 & _ & _ & S1)].
  - rewrite (bind_Ret _ _ _ _ _ E1), (bind_Ret _ _ _ _ _ (set_cache_Ret _ _ _)).
    destruct (generalServerHandler_frame d a AUTHORITATIVE_SERVER_PORT "Authoritative Result"
      (with_cache (suffix d 2) a s1)) as [(f & s2 & E2 & _ & _ & S2)|(s2 & E2 & _ & _ & S2)].
    + rewrite (bind_Ret _ _ _ _ _ E2). simpl. exists a. rewrite S2. simpl. rewrite S1.
      by rewrite <- app_assoc.
    + rewrite (bind_Blocked _ _ _ _ E2). right. exists a. rewrite S2. simpl. rewrite S1.
      by rewrite <- app_assoc.
  - rewrite (bind_Blocked _ _ _ _ E1). by left.
Qed.

(** The TLD and authoritative stages write only their own keys. *)
Lemma tld_part_keeps d v (s : LState W) k :
  k <> suffix d 2 -> k <> suffix d (length (splitInput d)) ->
  cache (final_state (tld_part d v s)) !! k = cache s !! k.
Proof.
  intros H2 HN. unfold tld_part, auth_part. cbv [mbind PyM_bind].
  destruct (generalServerHandler_frame d v TLD_SERVER_PORT "TLD Result" s)
    as [(a & s1 & E1 & C1 & _)|(s1 & E1 & C1 & _)].
  - rewrite (bind_Ret _ _ _ _ _ E1), (bind_Ret _ _ _ _ _ (set_cache_Ret _ _ _)).
    destruct (generalServerHandler_frame d a AUTHORITATIVE_SERVER_PORT "Authoritative Result"
      (with_cache (suffix d 2) a s1)) as [(f & s2 & E2 & C2 & _)|(s2 & E2 & C2 & _)].
    + rewrite (bind_Ret _ _ _ _ _ E2). simpl. rewrite lookup_insert_ne by congruence.
      rewrite C2. simpl. rewrite lookup_insert_ne by congruence. by rewrite C1.
    + rewrite (bind_Blocked _ _ _ _ E2). simpl. rewrite C2. simpl.
      rewrite lookup_insert_ne by congruence. by rewrite C1.
  - rewrite (bind_Blocked _ _ _ _ E1). simpl. by rewrite C1.
Qed.

Lemma spec_step_to_client rootNameServer d a b :
  spec_step rootNameServer d a b -> to_client a.2 = to_client b.2.
Proof.
  inversion 1 as [? ? Hc|? ? ? Hc Hq|? ? ? ? Hq|? ? ? ? Hq]; subst; [done| | |];
    unfold tier_query, with_cache in *; simpl;
    by destruct (generalServerHandler_Ret _ _ _ _ _ _ _ Hq) as (_ & -> & _).
Qed.

(** What a request sends to its client: the acknowledgement, then the
    address it cached under the domain if it completes, and nothing else. *)
Lemma handle_request_replies rootNameServer d (st : LState W) :
  match handle_request rootNameServer d st with
  | Ret _ s' => exists f, cache s' !! d = Some f /\ to_client s' = to_client st ++ [hang_in_there d; f]
  | Raise _ s' | Blocked s' => to_client s' = to_client st ++ [hang_in_there d]
  end.
Proof.
  destruct (decide (2 <= length (splitInput d))) as [Hlen|Hlen];
    [|by rewrite handle_request_short_raises by lia].
  pose proof (handle_request_run_matches rootNameServer d st Hlen) as Hr.
  destruct (handle_request rootNameServer d st) as [u s'|e s'|s']; simpl in Hr; [|done|].
  - destruct Hr as (f & s1 & Hrun & ->). exists f.
    pose proof (rtc_proj _ (fun a => to_client a.2) (spec_step_to_client _ _) _ _ Hrun) as Ht.
    destruct (spec_run_done _ _ _ _ _ _ Hrun) as [[[=] _]|Hk].
    rewrite suffix_full in Hk. split; [exact Hk|]. cbn in Ht |- *. rewrite <- Ht.
    by rewrite <- app_assoc.
  - destruct Hr as (stg & s1 & p & ns & Hrun & _ & Hb). unfold tier_query in Hb.
    destruct (generalServerHandler_Blocked _ _ _ _ _ _ Hb) as (_ & -> & _).
    exact (eq_sym (rtc_proj _ (fun a => to_client a.2) (spec_step_to_client _ _) _ _ Hrun)).
Qed.

(** [C4] With the rightmost label of [d] in the cache, the resolver
    sends no datagram to the root tier: it sends the domain to the TLD
    tier at the cached address, then to the authoritative tier at the
    address the TLD tier returned, and nothing else (spec section 8: a
    second resolution skips the root round trip and still performs the
    TLD and authoritative ones). *)
Theorem handle_request_root_hit rootNameServer d (st : LState W) v :
  2 <= length (splitInput d) -> cache st !! suffix d 1 = Some v ->
  tld_auth_sent d v (sent st) (handle_request rootNameServer d st).
Proof.
  intros Hlen Hc. rewrite <- length_rev in Hlen.
  destruct (rev (splitInput d)) as [|r0 [|r1 t]] eqn:E; simpl in Hlen; [lia|lia|].
  rewrite (handle_request_unfold rootNameServer d st r0 r1 t E). unfold root_part.
  set (s0 := with_reply (hang_in_there d) st). cbv [mbind PyM_bind].
  assert (Hc0 : cache s0 !! suffix d 1 = Some v) by exact Hc.
  rewrite (bind_Ret _ _ _ _ _ (root_stage_hit _ _ _ _ _ Hc0)).
  rewrite (bind_Ret _ _ _ _ _ (set_cache_Ret _ _ _)), (with_cache_id _ _ _ Hc0).
  exact (tld_part_sent d v s0).
Qed.

End HandlerTheorems.

(** ** A repeated request

    Tiers whose reply depends only on the query (the port, the name
    server and the domain) answer a repeated request as they answered
    the first.  A request that completes leaves the cache ready for the
    same request: the repetition reads the TLD address from the cache
    and repeats the last two queries. *)
Section Repeat.
Context {W : Type} `{Network W}.
Hypothesis stateless : forall w w' p ns m, (exchange w p ns m).1 = (exchange w' p ns m).1.

(** On every network state, the tier at [p] answers the query [m] for
    the server [ns] with a reply whose payload is [v]. *)
Definition answers (p : N) (ns m v : string) : Prop :=
  forall w, exists raw, (exchange w p ns m).1 = Some raw /\
    getInputForNextServer (parse_reply raw) = inr v.

Lemma generalServerHandler_answers u ns p m (s s' : LState W) v :
  generalServerHandler u ns p m s = Ret v s' ->
  answers p ns u v /\ cache s' = cache s /\ to_client s' = to_client s /\
  sent s' = sent s ++ [(p, ns, u)].
Proof.
  intros E. destruct (exchange (world s) p ns u) as [r w'] eqn:Ex.
  rewrite (generalServerHandler_cases u ns p m s r w' Ex) in E.
  destruct r as [raw|]; [|done].
  destruct (getInputForNextServer (parse_reply raw)) eqn:Eg; [done|].
  injection E as <- <-. split; [|done].
  intros w. exists raw. split; [|done]. by rewrite (stateless w (world s)), Ex.
Qed.

Lemma generalServerHandler_replay u ns p m (s : LState W) v :
  answers p ns u v ->
  exists s', generalServerHandler u ns p m s = Ret v s' /\
    cache s' = cache s /\ to_client s' = to_client s /\ sent s' = sent s ++ [(p, ns, u)].
Proof.
  intros Ha. destruct (Ha (world s)) as (raw & Hr & Hg).
  destruct (exchange (world s) p ns u) as [r w'] eqn:Ex. simpl in Hr. subst r.
  rewrite (generalServerHandler_cases u ns p m s _ w' Ex), Hg. by eexists.
Qed.

(** The state after the TLD and authoritative stages answered [a] and [f]. *)
Definition tld_run (d v a f : string) (s s' : LState W) : Prop :=
  cache s' = <[suffix d (length (splitInput d)) := f]> (<[suffix d 2 := a]> (cache s)) /\
  sent s' = sent s ++ [(TLD_SERVER_PORT, v, d); (AUTHORITATIVE_SERVER_PORT, a, d)] /\
  to_client s' = to_client s ++ [f].

Lemma tld_run_intro d v a f (s s1 s2 : LState W) :
  cache s1 = cache s -> to_client s1 = to_client s -> sent s1 = sent s ++ [(TLD_SERVER_PORT, v, d)] ->
  let s1' := with_cache (suffix d 2) a s1 in
  cache s2 = cache s1' -> to_client s2 = to_client s1' ->
  sent s2 = sent s1' ++ [(AUTHORITATIVE_SERVER_PORT, a, d)] ->
  tld_run d v a f s (with_reply f (with_cache (suffix d (length (splitInput d))) f s2)).
Proof.
  intros C1 T1 S1 s1' C2 T2 S2. unfold tld_run, s1' in *; simpl in *.
  rewrite C2, C1, S2, S1, T2, T1. by rewrite <- app_assoc.
Qed.

Lemma tld_part_Ret d v (s s' : LState W) u :
  tld_part d v s = Ret u s' ->
  exists a f, answers TLD_SERVER_PORT v d a /\ answers AUTHORITATIVE_SERVER_PORT a d f /\
    tld_run d v a f s s'.
Proof.
  unfold tld_part, auth_part. cbv [mbind PyM_bind bind].
  destruct (generalServerHandler d v TLD_SERVER_PORT _ s) as [a s1| |] eqn:E1; [|done|done].
  cbv [set_cache modify].
  destruct (generalServerHandler d a AUTHORITATIVE_SERVER_PORT _ _) as [f s2| |] eqn:E2;
    [|done|done].
  cbv [send_to_client modify]. intros [= _ <-].
  destruct (generalServerHandler_answers _ _ _ _ _ _ _ E1) as (Ha & C1 & T1 & S1).
  destruct (generalServerHandler_answers _ _ _ _ _ _ _ E2) as (Hf & C2 & T2 & S2).
  exists a, f. do 2 (split; [done|]). exact (tld_run_intro d v a f s s1 s2 C1 T1 S1 C2 T2 S2).
Qed.

Lemma tld_part_replay d v a f (s : LState W) :
  answers TLD_SERVER_PORT v d a -> answers AUTHORITATIVE_SERVER_PORT a d f ->
  exists s', tld_part d v s = Ret tt s' /\ tld_run d v a f s s'.
Proof.
  intros Ha Hf. unfold tld_part, auth_part. cbv [mbind PyM_bind].
  destruct (generalServerHandler_replay d v TLD_SERVER_PORT "TLD Result" s a Ha)
    as (s1 & E1 & C1 & T1 & S1).
  rewrite (bind_Ret _ _ _ _ _ E1), (bind_Ret _ _ _ _ _ (set_cache_Ret _ _ _)).
  destruct (generalServerHandler_replay d a AUTHORITATIVE_SERVER_PORT "Authoritative Result"
    (with_cache (suffix d 2) a s1) f Hf) as (s2 & E2 & C2 & T2 & S2).
  rewrite (bind_Ret _ _ _ _ _ E2). eexists. split; [reflexivity|].
  exact (tld_run_intro d v a f s s1 s2 C1 T1 S1 C2 T2 S2).
Qed.

(** A completed root stage left the TLD address under the rightmost label. *)
Lemma root_part_Ret rootNameServer d (s s' : LState W) u :
  root_part rootNameServer d s = Ret u s' ->
  exists v s1, cache s1 !! suffix d 1 = Some v /\ tld_part d v s1 = Ret u s'.
Proof.
  unfold root_part. cbv [mbind PyM_bind bind].
  destruct (root_stage d rootNameServer (suffix d 1) s) as [v s0| |]; [|done|done].
  intros Ht. exists v, (with_cache (suffix d 1) v s0). split; [apply lookup_insert_eq|exact Ht].
Qed.

(** [C6] Repeating a completed request, with tiers whose reply depends
    only on the query, is answered without the root tier and from the
    same two queries: the resolver sends again exactly the TLD query and
    the authoritative query that ended the first run, replies the same
    address after the acknowledgement, and leaves the cache as it was
    (spec section 8: the second resolution skips the root round trip and
    still performs the TLD and authoritative ones). *)
Theorem handle_request_repeat rootNameServer d (st st1 : LState W) u :
  handle_request rootNameServer d st = Ret u st1 ->
  exists v a f st2,
    handle_request rootNameServer d st1 = Ret tt st2 /\
    cache st2 = cache st1 /\
    (exists pre, sent st1 = pre ++ [(TLD_SERVER_PORT, v, d); (AUTHORITATIVE_SERVER_PORT, a, d)]) /\
    sent st2 = sent st1 ++ [(TLD_SERVER_PORT, v, d); (AUTHORITATIVE_SERVER_PORT, a, d)] /\
    last (to_client st1) = Some f /\
    to_client st2 = to_client st1 ++ [hang_in_there d; f].
Proof.
  intros E. destruct (decide (2 <= length (splitInput d))) as [Hlen|Hlen];
    [|by rewrite handle_request_short_raises in E by lia].
  pose proof Hlen as Hr. rewrite <- length_rev in Hr.
  destruct (rev (splitInput d)) as [|r0 [|r1 t]] eqn:Er; simpl in Hr; [lia|lia|].
  rewrite (handle_request_unfold rootNameServer d st r0 r1 t Er) in E.
  destruct (root_part_Ret _ _ _ _ _ E) as (v & s1 & Hv & Ht).
  destruct (tld_part_Ret _ _ _ _ _ Ht) as (a & f & Ha & Hf & C1 & S1 & T1).
  destruct (suffix_1_neq d Hlen) as [N12 N1N].
  rewrite (handle_request_unfold rootNameServer d st1 r0 r1 t Er). unfold root_part.
  set (s0 := with_reply (hang_in_there d) st1). cbv [mbind PyM_bind].
  assert (Hc0 : cache s0 !! suffix d 1 = Some v).
  { unfold s0; simpl. rewrite C1, !lookup_insert_ne by congruence. exact Hv. }
  rewrite (bind_Ret _ _ _ _ _ (root_stage_hit _ _ _ _ _ Hc0)).
  rewrite (bind_Ret _ _ _ _ _ (set_cache_Ret _ _ _)), (with_cache_id _ _ _ Hc0).
  destruct (tld_part_replay d v a f s0 Ha Hf) as (s2 & E2 & C2 & S2 & T2).
  exists v, a, f, s2. split; [exact E2|]. split; [|split; [by exists (sent s1)|split; [exact S2|]]].
  - rewrite C2. unfold s0; simpl. rewrite C1. apply insert2_idem.
  - rewrite T1. split; [apply last_app_single|]. rewrite T2. unfold s0; simpl. rewrite T1.
    by rewrite <- !app_assoc.
Qed.

End Repeat.

(** ** The cache keys and the process *)
Section KeysAndProcess.
Context {W : Type} `{Network W}.

Lemma serve_one_dom rootNameServer (p : LocalProc) (s : LState W) x :
  dom (cache s) ⊆ dom (cache (serve_one rootNameServer (p, s) x).2).
Proof.
  destruct p; simpl; [|set_solver|set_solver].
  pose proof (handle_request_frame rootNameServer x s) as [_ Hd].
  destruct (handle_request rootNameServer x s); exact Hd.
Qed.

(** [C12] The cache of the resolver process only grows: every key cached
    before a sequence of client requests is still cached after it,
    whatever the requests and whether the process crashed or blocked on
    the way (spec section 4.2: no eviction). *)
Theorem localDnsServer_cache_grows rootNameServer inputs (st : LState W) :
  dom (cache st) ⊆ dom (cache (localDnsServer rootNameServer inputs st).2).
Proof.
  unfold localDnsServer. generalize (Serving : LocalProc). revert st.
  induction inputs as [|x xs IH]; intros st p; cbn [foldl]; [set_solver|].
  pose proof (serve_one_dom rootNameServer p st x) as Hd.
  destruct (serve_one rootNameServer (p, st) x) as [p' s'] eqn:E. simpl in Hd.
  etrans; [exact Hd|]. apply IH.
Qed.

(** A property of the state that every request keeps, whatever its
    outcome, holds of the process's state after any sequence of requests. *)
Lemma localDnsServer_invariant rootNameServer (J : LState W -> Prop) inputs :
  (forall d, d ∈ inputs -> preserves J (handle_request rootNameServer d)) ->
  forall st, J st -> J (localDnsServer rootNameServer inputs st).2.
Proof.
  intros HJ. unfold localDnsServer. generalize (Serving : LocalProc).
  induction inputs as [|x xs IH]; intros p st Hst; [done|]. cbn [foldl].
  assert (IH' : forall p st, J st -> J (foldl (serve_one rootNameServer) (p, st) xs).2)
    by (apply IH; set_solver).
  destruct p; [|by apply IH'|by apply IH']. cbn [serve_one].
  pose proof (HJ x ltac:(set_solver) st Hst) as Hx.
  destruct (handle_request rootNameServer x st); by apply IH'.
Qed.

(** The keys a request may add: its own three. *)
Lemma handle_request_new_keys rootNameServer d (st : LState W) k :
  k ∈ dom (cache (final_state (handle_request rootNameServer d st))) ->
  k ∈ dom (cache st) \/ k ∈ cache_keys d.
Proof.
  intros Hk. destruct (decide (k ∈ cache_keys d)) as [|Hn]; [by right|left].
  destruct (handle_request_frame rootNameServer d st) as [Hf _].
  rewrite !elem_of_dom, <- (Hf k Hn) in *. done.
Qed.

(** [C13] The cache holds no key but the spec's suffixes of the names
    requested: after any sequence of requests, every key of the cache was
    already there or is [suffix d 1], [suffix d 2] or the whole name [d]
    of one of the requests (spec section 2: the cache is keyed by domain
    suffix), whether the process crashed or blocked on the way. *)
Theorem localDnsServer_cache_keys rootNameServer inputs (st : LState W) k :
  k ∈ dom (cache (localDnsServer rootNameServer inputs st).2) ->
  k ∈ dom (cache st) \/ exists d, d ∈ inputs /\ k ∈ cache_keys d.
Proof.
  revert k. apply (localDnsServer_invariant rootNameServer
    (fun s => forall k, k ∈ dom (cache s) -> k ∈ dom (cache st) \/ exists d, d ∈ inputs /\ k ∈ cache_keys d));
    [|by left].
  intros d Hd s Hs k Hk.
  destruct (handle_request_new_keys rootNameServer d s k Hk) as [Hk'|Hk']; [by apply Hs|eauto].
Qed.

(** A process that crashed or waits for ever handles no more requests. *)
Lemma serve_stopped rootNameServer p (s : LState W) xs :
  p <> Serving -> foldl (serve_one rootNameServer) (p, s) xs = (p, s).
Proof.
  intros Hp. induction xs as [|x xs IH]; [done|]. cbn [foldl].
  by destruct p; [|exact IH|exact IH].
Qed.

Lemma localDnsServer_after rootNameServer xs ys (st : LState W) :
  localDnsServer rootNameServer (xs ++ ys) st =
    foldl (serve_one rootNameServer) (localDnsServer rootNameServer xs st) ys.
Proof. apply foldl_app. Qed.

(** [C18] The resolver stops at the first request that raises or blocks
    (the [try] around the loop body is commented out, and [recvfrom] has
    no timeout): if the process is serving after the requests [xs] and
    the handler raises or blocks on the request [y], the process is no
    longer serving, every later datagram is left unanswered and the state
    is never touched again (spec section 7 asks that a failure abort only
    the request). *)
Theorem localDnsServer_stops_after_failure rootNameServer xs y zs (st s : LState W) :
  localDnsServer rootNameServer xs st = (Serving, s) ->
  (forall u s', handle_request rootNameServer y s <> Ret u s') ->
  (localDnsServer rootNameServer (xs ++ [y]) st).1 <> Serving /\
  localDnsServer rootNameServer (xs ++ [y] ++ zs) st = localDnsServer rootNameServer (xs ++ [y]) st.
Proof.
  intros Hxs Hy. rewrite app_assoc, !(localDnsServer_after rootNameServer (xs ++ [y])).
  rewrite localDnsServer_after, Hxs. cbn [foldl serve_one].
  destruct (handle_request rootNameServer y s) as [u s'|e s'|s'];
    [by destruct (Hy u s')|split; [done|by apply serve_stopped]..].
Qed.

(** [C20] A name without a dot, sent first, ends the resolver process
    with [ValueError] after the acknowledgement; no later request is
    served (spec section 8: "nota_domain" yields MalformedDomain without
    contacting any tier, and the resolver keeps serving). *)
Theorem localDnsServer_short_crashes rootNameServer d rest (st : LState W) :
  length (splitInput d) < 2 ->
  localDnsServer rootNameServer (d :: rest) st = (Crashed ValueError, with_reply (hang_in_there d) st).
Proof.
  intros Hlen. change (d :: rest) with ([d] ++ rest). rewrite localDnsServer_after.
  assert (localDnsServer rootNameServer [d] st = (Crashed ValueError, with_reply (hang_in_there d) st))
    as -> by (cbn; by rewrite handle_request_short_raises).
  by apply serve_stopped.
Qed.

End KeysAndProcess.

(** ** Invariants of the network

    A property of the network that every exchange keeps is kept by every
    operation of the resolver and by the resolver process: the resolver
    changes the network only through [actAsTemporaryClient]. *)
Section NetworkInvariant.
Context {W : Type} `{Network W}.
Variable P : W -> Prop.
Hypothesis exchange_P : forall w port ns m, P w -> P (exchange w port ns m).2.

Let Q (s : LState W) : Prop := P (world s).

Lemma generalServerHandler_preserves u ns p m : preserves Q (generalServerHandler u ns p m).
Proof.
  intros s Hs. destruct (exchange (world s) p ns u) as [r w'] eqn:E.
  pose proof (exchange_P (world s) p ns u Hs) as HP. rewrite E in HP.
  rewrite (generalServerHandler_cases u ns p m s r w' E).
  destruct r as [raw|]; [destruct (getInputForNextServer (parse_reply raw))|]; exact HP.
Qed.

Lemma set_cache_preserves k v : preserves Q (set_cache k v).
Proof. by apply preserves_modify. Qed.

Lemma send_to_client_preserves m : preserves Q (send_to_client m).
Proof. by apply preserves_modify. Qed.

Lemma fetchFromCache_preserves k : preserves Q (fetchFromCache k).
Proof. unfold fetchFromCache. preserves_steps. Qed.

#[local] Hint Resolve generalServerHandler_preserves set_cache_preserves
  send_to_client_preserves fetchFromCache_preserves : dns.

Lemma root_stage_preserves u rootNameServer k : preserves Q (root_stage u rootNameServer k).
Proof.
  unfold root_stage. preserves_steps; repeat (case_match; preserves_steps).
Qed.

#[local] Hint Resolve root_stage_preserves : dns.

Lemma handle_request_preserves rootNameServer d : preserves Q (handle_request rootNameServer d).
Proof.
  unfold handle_request. preserves_steps.
  destruct (rev (splitInput d)) as [|? [|? ?]]; preserves_steps.
Qed.

Lemma localDnsServer_preserves rootNameServer inputs (st : LState W) :
  P (world st) -> P (world (localDnsServer rootNameServer inputs st).2).
Proof. apply (localDnsServer_invariant rootNameServer Q). intros d _. apply handle_request_preserves. Qed.

End NetworkInvariant.

(** ** The type of the cache

    [cache] is a [dict] from [str] to [str] whose values are payloads
    of tier replies: [getInputForNextServer] of a reply split on commas,
    with its single quotes removed.  [cache_wf] says every value is such
    a clean token; every operation keeps it, and each value an operation
    returns for the cache is one. *)
Definition cache_wf (c : gmap string string) : Prop :=
  map_Forall (fun _ v => clean_token v = true) c.

Section CacheTokens.
Context {W : Type} `{Network W}.

Let I (s : LState W) : Prop := cache_wf (cache s).

Lemma generalServerHandler_token u ns p m :
  triple I (generalServerHandler u ns p m) (fun v => clean_token v = true).
Proof.
  unfold generalServerHandler. eapply triple_bind.
  - apply actAsTemporaryClient_fields. intros s Hs. unfold exchange, LState_network.
    by destruct (exchange (world s) p ns u).
  - intros r Hr. apply triple_lift. intros v. by apply getInputForNextServer_token.
Qed.

Lemma set_cache_token k v : clean_token v = true -> triple I (set_cache k v) (fun _ => True).
Proof. intros Hv s Hs. split; [by apply map_Forall_insert_2|done]. Qed.

Lemma send_to_client_token m : triple I (send_to_client m) (fun _ => True).
Proof. by intros s Hs. Qed.

Lemma fetchFromCache_token k :
  triple I (fetchFromCache k) (fun o => forall v, o = Some v -> clean_token v = true).
Proof. intros s Hs. split; [done|]. intros v Hv. exact (Hs k v Hv). Qed.

Lemma root_stage_token u rootNameServer k :
  triple I (root_stage u rootNameServer k) (fun v => clean_token v = true).
Proof.
  unfold root_stage. eapply triple_bind; [apply triple_get|intros st _].
  case_match; [|apply generalServerHandler_token].
  eapply triple_bind; [apply fetchFromCache_token|intros [v|] Hv];
    [apply triple_ret; auto|apply triple_raise].
Qed.

#[local] Hint Resolve generalServerHandler_token set_cache_token send_to_client_token
  root_stage_token : dns.

Lemma handle_request_token rootNameServer d :
  triple I (handle_request rootNameServer d) (fun _ => True).
Proof.
  unfold handle_request. eapply triple_bind; [auto with dns|intros _ _].
  destruct (rev (splitInput d)) as [|? [|? ?]]; [apply triple_raise..|].
  eapply triple_bind; [apply (triple_lift _ (fun _ => True)); done|intros a _].
  triple_steps.
Qed.

(** [C11] The cache keeps its type: from a cache whose values are clean
    tokens (no comma, no single quote), every value cached over any
    sequence of requests, on any network and whether the process crashed
    or blocked on the way, is again a clean token.  A value comes from
    the cache itself or from [getInputForNextServer] of a reply that
    [actAsTemporaryClient] split on commas. *)
Theorem localDnsServer_cache_tokens rootNameServer inputs (st : LState W) :
  cache_wf (cache st) -> cache_wf (cache (localDnsServer rootNameServer inputs st).2).
Proof.
  apply (localDnsServer_invariant rootNameServer I). intros d _.
  eapply triple_preserves, handle_request_token.
Qed.

End CacheTokens.

(** ** Progress on a network that answers

    The ports of the three tiers, and networks on which a tier at one of
    them always sends a reply (keeping a property [P] of the network):
    the resolver then serves every request of two labels or more to the
    end, and the process never crashes or blocks. *)
Definition tier_port (p : N) : Prop :=
  p = ROOT_SERVER_PORT \/ p = TLD_SERVER_PORT \/ p = AUTHORITATIVE_SERVER_PORT.

Section Answering.
Context {W : Type} `{Network W}.
Variable P : W -> Prop.
Hypothesis answering : forall w p ns m, P w -> tier_port p ->
  exists raw, (exchange w p ns m).1 = Some raw /\ P (exchange w p ns m).2.

Let I (s : LState W) : Prop := P (world s).

Lemma generalServerHandler_total u ns p m :
  tier_port p -> total I (generalServerHandler u ns p m) (fun _ => True).
Proof.
  intros Hp s Hs. destruct (answering (world s) p ns u Hs Hp) as (raw & Hr & HP).
  destruct (exchange (world s) p ns u) as [r w'] eqn:E. simpl in Hr, HP. subst r.
  rewrite (generalServerHandler_cases u ns p m s _ w' E).
  destruct (getInputForNextServer_ok (parse_reply raw) (parse_reply_not_nil raw)) as [v ->].
  by eexists _, _.
Qed.

Lemma root_stage_total u rootNameServer k : total I (root_stage u rootNameServer k) (fun _ => True).
Proof.
  intros s Hs. destruct (cache s !! k) as [v|] eqn:Hk.
  - exists v, s. by rewrite (root_stage_hit rootNameServer u k v s Hk).
  - rewrite (root_stage_miss rootNameServer u k s Hk).
    apply generalServerHandler_total; [by left|done].
Qed.

Lemma set_cache_total k v : total I (set_cache k v) (fun _ => True).
Proof. by apply total_modify. Qed.

Lemma send_to_client_total m : total I (send_to_client m) (fun _ => True).
Proof. by apply total_modify. Qed.

#[local] Hint Resolve root_stage_total set_cache_total send_to_client_total : dns.
#[local] Hint Extern 1 (total _ (generalServerHandler _ _ _ _) _) =>
  apply generalServerHandler_total; unfold tier_port; tauto : dns.

Lemma handle_request_total rootNameServer d (st : LState W) :
  2 <= length (splitInput d) -> P (world st) ->
  exists st', handle_request rootNameServer d st = Ret tt st' /\ P (world st').
Proof.
  intros Hlen Hs. rewrite <- length_rev in Hlen.
  destruct (rev (splitInput d)) as [|r0 [|r1 t]] eqn:E; simpl in Hlen; [lia|lia|].
  rewrite (handle_request_unfold rootNameServer d st r0 r1 t E).
  assert (Ht : total I (root_part rootNameServer d) (fun _ => True))
    by (unfold root_part, tld_part, auth_part; total_steps).
  destruct (Ht (with_reply (hang_in_there d) st) Hs) as ([] & st' & E' & HP & _). by exists st'.
Qed.

(** The datagrams a resolver sends its client for a sequence of
    requests it completes: the acknowledgement and the address of each. *)
Definition replies_for (inputs answers : list string) : list string :=
  concat (zip_with (fun d f => [hang_in_there d; f]) inputs answers).

Lemma localDnsServer_serves rootNameServer inputs (st : LState W) :
  Forall (fun d => 2 <= length (splitInput d)) inputs -> P (world st) ->
  exists st' answers, localDnsServer rootNameServer inputs st = (Serving, st') /\
    P (world st') /\ length answers = length inputs /\
    to_client st' = to_client st ++ replies_for inputs answers.
Proof.
  unfold localDnsServer. intros Hall. revert st.
  induction Hall as [|d ds Hd _ IH]; intros st Hs.
  - exists st, []. by rewrite app_nil_r.
  - cbn [foldl serve_one].
    destruct (handle_request_total rootNameServer d st Hd Hs) as (s1 & E1 & Hs1).
    pose proof (handle_request_replies rootNameServer d st) as Hr. rewrite E1 in Hr |- *.
    destruct Hr as (f & _ & T1).
    destruct (IH s1 Hs1) as (st' & fs & E' & HP & Hl & T'). exists st', (f :: fs).
    split; [exact E'|]. split; [exact HP|]. split; [simpl; by f_equal|].
    rewrite T', T1. by rewrite <- app_assoc.
Qed.

End Answering.

(** ** Concrete runs

    A network on which every tier answers at once with a fixed reply, in
    the format of the tiers ([str] of a list of messages). *)
Definition example_reply (port : N) : option string :=
  if (port =? ROOT_SERVER_PORT)%N then Some "['I dont know', 'a.edu-servers.net.', '192.5.6.30']"
  else if (port =? TLD_SERVER_PORT)%N then Some "['ns1.umass.edu']"
  else if (port =? AUTHORITATIVE_SERVER_PORT)%N then Some "['128.119.245.12']"
  else None.

#[local] Instance example_net : Network unit := fun w port _ _ => (example_reply port, w).

Definition example_state (c : gmap string string) : LState unit := mkLState c tt [] [].

Lemma handle_request_refines_witness :
  2 <= length (splitInput "gaia.cs.umass.edu") /\
  run_matches "8.8.8.8" "gaia.cs.umass.edu"
    (RootLookup, with_reply (hang_in_there "gaia.cs.umass.edu") (example_state ∅))
    (handle_request "8.8.8.8" "gaia.cs.umass.edu" (example_state ∅)).
Proof.
  split; [vm_compute; lia|]. apply handle_request_refines. vm_compute. lia.
Defined.

Lemma handle_request_short_witness :
  length (splitInput "nota_domain") < 2 /\
  handle_request "8.8.8.8" "nota_domain" (example_state ∅) =
    Raise ValueError (with_reply (hang_in_there "nota_domain") (example_state ∅)).
Proof.
  split; [vm_compute; lia|]. apply handle_request_short. vm_compute. lia.
Defined.

Lemma handle_request_root_hit_witness :
  2 <= length (splitInput "other.cs.umass.edu") /\
  cache (example_state {["edu" := "192.5.6.30"]}) !! suffix "other.cs.umass.edu" 1 = Some "192.5.6.30" /\
  tld_auth_sent "other.cs.umass.edu" "192.5.6.30" []
    (handle_request "8.8.8.8" "other.cs.umass.edu" (example_state {["edu" := "192.5.6.30"]})).
Proof.
  split; [vm_compute; lia|]. split; [reflexivity|].
  apply (handle_request_root_hit "8.8.8.8" "other.cs.umass.edu"
           (example_state {["edu" := "192.5.6.30"]}) "192.5.6.30"); [vm_compute; lia|reflexivity].
Defined.

Lemma handle_request_answer_witness :
  let st' := final_state (handle_request "8.8.8.8" "gaia.cs.umass.edu" (example_state ∅)) in
  2 <= length (splitInput "gaia.cs.umass.edu") /\
  handle_request "8.8.8.8" "gaia.cs.umass.edu" (example_state ∅) = Ret tt st' /\
  exists f, cache st' !! "gaia.cs.umass.edu" = Some f /\ last (to_client st') = Some f.
Proof.
  intros st'. assert (Hlen : 2 <= length (splitInput "gaia.cs.umass.edu")) by (vm_compute; lia).
  assert (Hh : handle_request "8.8.8.8" "gaia.cs.umass.edu" (example_state ∅) = Ret tt st')
    by (vm_compute; reflexivity).
  split; [exact Hlen|]. split; [exact Hh|].
  exact (handle_request_answer "8.8.8.8" "gaia.cs.umass.edu" (example_state ∅) st' tt Hlen Hh).
Defined.

Lemma localDnsServer_stops_after_failure_witness :
  let xs := ["gaia.cs.umass.edu"] in
  let s := (localDnsServer "8.8.8.8" xs (example_state ∅)).2 in
  localDnsServer "8.8.8.8" xs (example_state ∅) = (Serving, s) /\
  (forall u s', handle_request "8.8.8.8" "nota_domain" s <> Ret u s') /\
  (localDnsServer "8.8.8.8" (xs ++ ["nota_domain"]) (example_state ∅)).1 <> Serving /\
  localDnsServer "8.8.8.8" (xs ++ ["nota_domain"] ++ ["other.cs.umass.edu"]) (example_state ∅) =
    localDnsServer "8.8.8.8" (xs ++ ["nota_domain"]) (example_state ∅).
Proof.
  intros xs s.
  assert (H1 : localDnsServer "8.8.8.8" xs (example_state ∅) = (Serving, s)) by (vm_compute; reflexivity).
  assert (H2 : forall u s', handle_request "8.8.8.8" "nota_domain" s <> Ret u s')
    by (intros u s'; vm_compute; discriminate).
  split; [exact H1|]. split; [exact H2|].
  exact (localDnsServer_stops_after_failure "8.8.8.8" xs "nota_domain" _ _ s H1 H2).
Defined.

Lemma localDnsServer_short_crashes_witness :
  localDnsServer "8.8.8.8" ["nota_domain"; "gaia.cs.umass.edu"] (example_state ∅) =
    (Crashed ValueError, with_reply (hang_in_there "nota_domain") (example_state ∅)).
Proof. apply localDnsServer_short_crashes. vm_compute. lia. Defined.

Lemma localDnsServer_cache_tokens_witness :
  cache_wf (cache (localDnsServer "8.8.8.8" ["gaia.cs.umass.edu"; "other.cs.umass.edu"]
    (example_state {[ "edu" := "1.2.3.4" ]})).2).
Proof.
  apply localDnsServer_cache_tokens. apply (bool_decide_unpack _). vm_compute. reflexivity.
Defined.

Lemma localDnsServer_cache_keys_witness :
  let c := cache (localDnsServer "8.8.8.8" ["gaia.cs.umass.edu"] (example_state ∅)).2 in
  "umass.edu" ∈ dom c /\
  ("umass.edu" ∈ dom (∅ : gmap string string) \/
   exists d, d ∈ ["gaia.cs.umass.edu"] /\ "umass.edu" ∈ cache_keys d).
Proof.
  intros c. assert (Hk : "umass.edu" ∈ dom c) by (apply (bool_decide_unpack _); vm_compute; reflexivity).
  split; [exact Hk|]. exact (localDnsServer_cache_keys "8.8.8.8" ["gaia.cs.umass.edu"] _ _ Hk).
Defined.

Lemma handle_request_repeat_witness :
  let st1 := final_state (handle_request "8.8.8.8" "gaia.cs.umass.edu" (example_state ∅)) in
  handle_request "8.8.8.8" "gaia.cs.umass.edu" (example_state ∅) = Ret tt st1 /\
  exists v a f st2,
    handle_request "8.8.8.8" "gaia.cs.umass.edu" st1 = Ret tt st2 /\
    cache st2 = cache st1 /\
    (exists pre, sent st1 = pre ++ [(TLD_SERVER_PORT, v, "gaia.cs.umass.edu");
                                   (AUTHORITATIVE_SERVER_PORT, a, "gaia.cs.umass.edu")]) /\
    sent st2 = sent st1 ++ [(TLD_SERVER_PORT, v, "gaia.cs.umass.edu");
                            (AUTHORITATIVE_SERVER_PORT, a, "gaia.cs.umass.edu")] /\
    last (to_client st1) = Some f /\
    to_client st2 = to_client st1 ++ [hang_in_there "gaia.cs.umass.edu"; f].
Proof.
  intros st1.
  assert (E : handle_request "8.8.8.8" "gaia.cs.umass.edu" (example_state ∅) = Ret tt st1)
    by (vm_compute; reflexivity).
  split; [exact E|].
  exact (handle_request_repeat (fun w w' p ns m => eq_refl) "8.8.8.8" "gaia.cs.umass.edu" _ _ _ E).
Defined.
