(* ===== verification/DnsLib.v ===== *)
(** * The dnspython library, as the tiers call it

    The tiers use five things of dnspython: [dns.name.from_text] (which
    raises on a malformed name), [dns.query.udp] of a query made by
    [dns.message.make_query] (which raises, or waits for ever since no
    timeout is given), the fields [rcode], [authority] and [answer] of the
    response, [defaultResolver.query(name).rrset[0].to_text()] and
    [dns.resolver.resolve(name, 'A')[0]].  The library is not part of the
    sources: it is the class [DnsLib], and the tier models are proved for
    every instance.  A call of the library returns a [lib_result]. *)

From Stdlib Require Import NArith.
From S2P Require Import Prelude.

Inductive lib_result (A : Type) :=
| LibOk (a : A)
| LibRaise (e : PyExc)
| LibHang.
Arguments LibOk {A} a.
Arguments LibRaise {A} e.
Arguments LibHang {A}.

#[export] Instance lib_ret : MRet lib_result := fun A a => LibOk a.
#[export] Instance lib_bind : MBind lib_result :=
  fun A B k m => match m with LibOk a => k a | LibRaise e => LibRaise e | LibHang => LibHang end.

Definition lib_lift {A} (r : PyExc + A) : lib_result A :=
  match r with inl e => LibRaise e | inr a => LibOk a end.

(** ** The data of a DNS response *)
Inductive Rcode := NOERROR | NXDOMAIN | OtherRcode (n : N).
Inductive RdType := A | NS | SOA | CNAME | OtherType (n : N).

#[export] Instance Rcode_eq_dec : EqDecision Rcode.
Proof. solve_decision. Defined.
#[export] Instance RdType_eq_dec : EqDecision RdType.
Proof. solve_decision. Defined.

(** A resource record: its type, its [.target] (NS and CNAME records have
    one, as an absolute name in text form) and its [str()]. *)
Record RR := mkRR { rdtype : RdType; rr_target : option string; rr_text : string }.

Record DnsResponse := mkResponse {
  rcode : Rcode;
  authority : list (list RR);
  answer : list (list RR)
}.

(** ** The library *)
Class DnsLib := {
  (** [dns.name.from_text(text)] returns (true) or raises (false). *)
  name_from_text : string -> bool;
  (** [dns.query.udp(dns.message.make_query(qname, rdtype), where)] *)
  query_udp : string -> RdType -> string -> lib_result DnsResponse;
  (** [defaultResolver.query(name).rrset[0].to_text()] *)
  resolver_query_text : string -> lib_result string;
  (** [dns.resolver.resolve(name, 'A')[0]] *)
  resolver_resolve_A : string -> lib_result RR
}.

Lemma lib_bind_ok {X Y} (a : X) (k : X -> lib_result Y) : (LibOk a ≫= k) = k a.
Proof. reflexivity. Qed.

#[export] Hint Rewrite @lib_bind_ok : dns.
