(* ===== verification/Tier.v ===== *)
(** * A tier server process and one exchange with it

    The loop of [rootDnsServer] (rootDnsServer.py lines 157-181) and of
    [authoritativeDnsServer] (authoritativeDnsServer.py lines 93-112):
    the first datagram is the name server to consult, the second the
    domain; the handler's messages go back as [str(result)] to the sender
    of the second datagram; any exception ends the process ([exit()] in
    the [except] clause), a library call without timeout can hang it.
    [tier_loop] runs the loop over a sequence of datagrams.
    [tier_exchange] is the client side of [actAsTemporaryClient]: two
    datagrams, then the first reply that comes back. *)

From S2P Require Import Prelude PyStr Helpers Protocol DnsLib.

Inductive TierProc :=
| Listening
| Awaiting (nameServer : string)
| Dead
| Hung.

(** A handler: [findOutTld] or [findOutResultantIp] with its two
    arguments (the name server, the domain). *)
Definition TierHandler := string -> string -> lib_result (list string).

(** One datagram arriving at a tier process: its next state and its
    reply, if it sends one, to the sender of the datagram. *)
Definition tier_recv (handler : TierHandler) (p : TierProc) (datagram : string)
  : TierProc * option string :=
  match p with
  | Listening => (Awaiting datagram, None)
  | Awaiting nameServer =>
      match handler nameServer datagram with
      | LibOk result => (Listening, Some (encode_reply result))
      | LibRaise _ => (Dead, None)
      | LibHang => (Hung, None)
      end
  | Dead => (Dead, None)
  | Hung => (Hung, None)
  end.

(** [sendto(nameServer)], [sendto(queryMessage)], [recvfrom]: the first
    reply the two datagrams provoke, if any. *)
Definition tier_exchange (handler : TierHandler) (p : TierProc) (nameServer message : string)
  : option string * TierProc :=
  let '(p1, r1) := tier_recv handler p nameServer in
  let '(p2, r2) := tier_recv handler p1 message in
  (match r1 with Some r => Some r | None => r2 end, p2).

(** The [while True] loop of a tier over the datagrams it receives, in
    order: its final state and the replies it sent. *)
Fixpoint tier_loop (handler : TierHandler) (p : TierProc) (datagrams : list string)
  : TierProc * list string :=
  match datagrams with
  | [] => (p, [])
  | d :: ds =>
      let '(p1, r) := tier_recv handler p d in
      let '(p2, rs) := tier_loop handler p1 ds in
      (p2, match r with Some x => x :: rs | None => rs end)
  end.

(** The datagrams of a sequence of requests: the server, then the domain. *)
Definition request_datagrams (reqs : list (string * string)) : list string :=
  flat_map (fun '(nameServer, userInput) => [nameServer; userInput]) reqs.

(** A handler that returns on every query: it never raises or hangs. *)
Definition tier_total (handler : TierHandler) : Prop :=
  forall nameServer userInput, exists result, handler nameServer userInput = LibOk result.

(** A process between two exchanges: not half-way through a request. *)
Definition settled (p : TierProc) : bool :=
  match p with Awaiting _ => false | _ => true end.

Section TierLemmas.
Variable handler : TierHandler.

Lemma tier_exchange_listening ns m :
  tier_exchange handler Listening ns m =
    match handler ns m with
    | LibOk result => (Some (encode_reply result), Listening)
    | LibRaise _ => (None, Dead)
    | LibHang => (None, Hung)
    end.
Proof. unfold tier_exchange. simpl. by destruct (handler ns m). Qed.

Lemma tier_exchange_stopped p ns m :
  p = Dead \/ p = Hung -> tier_exchange handler p ns m = (None, p).
Proof. by intros [-> | ->]. Qed.

(** A settled process is settled again after an exchange. *)
Lemma tier_exchange_settled p ns m :
  settled p = true -> settled (tier_exchange handler p ns m).2 = true.
Proof.
  destruct p; simpl; [|done|done|done]. intros _.
  rewrite (tier_exchange_listening ns m). by destruct (handler ns m).
Qed.

Lemma tier_loop_dead ds : tier_loop handler Dead ds = (Dead, []).
Proof. induction ds as [|d ds IH]; [done|]. simpl. by rewrite IH. Qed.

Lemma tier_loop_app p ds es :
  tier_loop handler p (ds ++ es) =
    let '(p1, rs) := tier_loop handler p ds in
    let '(p2, rs') := tier_loop handler p1 es in (p2, rs ++ rs').
Proof.
  revert p. induction ds as [|d ds IH]; intros p; simpl.
  - by destruct (tier_loop handler p es).
  - destruct (tier_recv handler p d) as [p1 r]. rewrite IH.
    destruct (tier_loop handler p1 ds) as [p2 rs]. destruct (tier_loop handler p2 es) as [p3 rs'].
    by destruct r.
Qed.

Lemma tier_loop_served reqs results :
  Forall2 (fun '(ns, u) r => handler ns u = LibOk r) reqs results ->
  tier_loop handler Listening (request_datagrams reqs) = (Listening, map encode_reply results).
Proof.
  induction 1 as [|[ns u] r reqs results Hr _ IH]; [done|]. simpl. rewrite Hr.
  by rewrite IH.
Qed.

(** [C25] A tier process answers every request in order with
    [str(result)] of its handler while the handler returns: after any
    sequence of requests it is listening again and has sent one reply per
    request. *)
Theorem tier_loop_serves reqs results :
  Forall2 (fun '(ns, u) r => handler ns u = LibOk r) reqs results ->
  tier_loop handler Listening (request_datagrams reqs) = (Listening, map encode_reply results).
Proof. exact (tier_loop_served reqs results). Qed.

(** [C26] An exception in the handler ends the tier process ([exit()] in
    the [except] clause): it sends no reply to that request and none to
    any later datagram. *)
Theorem tier_loop_dies reqs results ns u e rest :
  Forall2 (fun '(ns, u) r => handler ns u = LibOk r) reqs results ->
  handler ns u = LibRaise e ->
  tier_loop handler Listening (request_datagrams reqs ++ [ns; u] ++ rest) =
    (Dead, map encode_reply results).
Proof.
  intros Hs He. rewrite tier_loop_app, (tier_loop_served reqs results Hs). simpl.
  rewrite He, tier_loop_dead. by rewrite app_nil_r.
Qed.

End TierLemmas.

(** A handler that echoes the domain and raises on "bad". *)
Definition echo_handler : TierHandler :=
  fun _ u => if String.eqb u "bad" then LibRaise ValueError else LibOk ["seen"; u].

Lemma tier_loop_serves_witness :
  tier_loop echo_handler Listening (request_datagrams [("ns1", "a.com"); ("ns2", "b.org")]) =
    (Listening, map encode_reply [["seen"; "a.com"]; ["seen"; "b.org"]]).
Proof. apply tier_loop_serves. repeat constructor. Defined.

Lemma tier_loop_dies_witness :
  tier_loop echo_handler Listening
    (request_datagrams [("ns1", "a.com")] ++ ["ns2"; "bad"] ++ ["ns3"; "c.net"]) =
    (Dead, map encode_reply [["seen"; "a.com"]]).
Proof. apply (tier_loop_dies echo_handler _ _ _ _ ValueError); [repeat constructor|reflexivity]. Defined.
