(* ===== verification/RootServer.v ===== *)
(** * src/rootDnsServer.py: [findOutTld]

    Every branch of [findOutTld] (lines 15-140): the name check, the NS
    query for the rightmost label, the two error replies (NXDOMAIN and any
    other rcode), the choice between the authority and answer sections,
    the SOA case, and the lookup of the TLD server's address.  Exceptions
    ([IndexError] on an empty section, [AttributeError] on a record with
    no [.target], any exception of the library) end the handler. *)

From S2P Require Import Prelude PyStr Helpers Protocol DnsLib Tier.

Section RootServer.
Context `{DnsLib}.

Definition root_intro (userInput rootInput : string) : string :=
  "I dont know the address of " +:+ dq userInput +:+ " but I know the address of " +:+ dq rootInput.

Definition looking_up (name server : string) : string :=
  "Looking up " +:+ dq name +:+ " on " +:+ dq server.

(** The two replies of lines 69-76. *)
Definition rcode_error_messages (name : string) (responseCode : Rcode) : list string :=
  if decide (responseCode = NXDOMAIN) then
    [dq name +:+ " does not exist."; "Please enter a legible domain"]
  else ["Please enter a legible domain."].

(** [resourceRecordSet = response.authority[0]] or [response.answer[0]],
    then [resourceRecord = resourceRecordSet[0]] (lines 121-125). *)
Definition first_record (response : DnsResponse) : lib_result RR :=
  rrset ← (match authority response with
           | rrset :: _ => LibOk rrset
           | [] => match answer response with
                   | rrset :: _ => LibOk rrset
                   | [] => LibRaise IndexError
                   end
           end);
  match rrset with rr :: _ => LibOk rr | [] => LibRaise IndexError end.

Definition findOutTld (userInput localNameServer : string) : lib_result (list string) :=
  if negb (name_from_text userInput) then LibRaise (LibraryError "dns.name.from_text")
  else
  rootInput ← lib_lift (getInput userInput 1);
  let returnMessage := [root_intro userInput rootInput; looking_up rootInput localNameServer] in
  response ← query_udp rootInput NS localNameServer;
  if decide (rcode response <> NOERROR) then
    mret (returnMessage ++ rcode_error_messages rootInput (rcode response))
  else
  resourceRecord ← first_record response;
  if decide (rdtype resourceRecord = SOA) then
    mret (returnMessage ++ ["Same server is TLD Server for " +:+ dq rootInput])
  else
  tldServerName ← (match rr_target resourceRecord with
                   | Some t => LibOk t
                   | None => LibRaise AttributeError
                   end);
  ipAddressofTld ← resolver_query_text tldServerName;
  mret (returnMessage ++
        [dq tldServerName +:+ " is TLD Server for " +:+ dq rootInput;
         "IP Address of " +:+ dq tldServerName +:+ " is " +:+ dq ipAddressofTld;
         tldServerName;
         ipAddressofTld]).

(** The root tier process: [rootDnsServer] receives the name server
    first and calls [findOutTld(userInput, localNameServer)] (line 166). *)
Definition root_handler : TierHandler :=
  fun localNameServer userInput => findOutTld userInput localNameServer.

(** An NXDOMAIN answer to the NS query: the reply ends with the advice
    "Please enter a legible domain" (lines 69-73). *)
Lemma findOutTld_nxdomain userInput ns rootInput response :
  name_from_text userInput = true ->
  getInput userInput 1 = inr rootInput ->
  query_udp rootInput NS ns = LibOk response ->
  rcode response = NXDOMAIN ->
  findOutTld userInput ns =
    LibOk [root_intro userInput rootInput; looking_up rootInput ns;
           dq rootInput +:+ " does not exist."; "Please enter a legible domain"].
Proof.
  intros Hn Hg Hq Hr. unfold findOutTld. rewrite Hn. simpl negb. cbv iota.
  unfold lib_lift. rewrite Hg. cbn [mbind lib_bind]. rewrite Hq. cbn [mbind lib_bind].
  rewrite Hr, decide_True by done. unfold rcode_error_messages. by rewrite decide_True.
Qed.

(** The successful branch (lines 77-140): a NOERROR answer whose first
    record is not an SOA and names the TLD server [tld], whose address
    the resolver library finds; the reply ends with that address. *)
Lemma findOutTld_ok userInput ns rootInput response rr tld ip :
  name_from_text userInput = true ->
  getInput userInput 1 = inr rootInput ->
  query_udp rootInput NS ns = LibOk response ->
  rcode response = NOERROR ->
  first_record response = LibOk rr -> rdtype rr <> SOA -> rr_target rr = Some tld ->
  resolver_query_text tld = LibOk ip ->
  findOutTld userInput ns =
    LibOk ([root_intro userInput rootInput; looking_up rootInput ns;
            dq tld +:+ " is TLD Server for " +:+ dq rootInput;
            "IP Address of " +:+ dq tld +:+ " is " +:+ dq ip; tld] ++ [ip]).
Proof.
  intros Hn Hg Hq Hr Hf Hs Ht Hi. unfold findOutTld. rewrite Hn. simpl negb. cbv iota.
  unfold lib_lift. rewrite Hg. cbn [mbind lib_bind]. rewrite Hq. cbn [mbind lib_bind].
  rewrite Hr, decide_False by auto. rewrite Hf. cbn [mbind lib_bind].
  rewrite decide_False by done. rewrite Ht. cbn [mbind lib_bind]. rewrite Hi. reflexivity.
Qed.

(** An SOA record first (lines 126-128): the reply ends with the remark
    that the same server is the TLD server, and no address. *)
Lemma findOutTld_soa userInput ns rootInput response rr :
  name_from_text userInput = true ->
  getInput userInput 1 = inr rootInput ->
  query_udp rootInput NS ns = LibOk response ->
  rcode response = NOERROR ->
  first_record response = LibOk rr -> rdtype rr = SOA ->
  findOutTld userInput ns =
    LibOk ([root_intro userInput rootInput; looking_up rootInput ns] ++
           ["Same server is TLD Server for " +:+ dq rootInput]).
Proof.
  intros Hn Hg Hq Hr Hf Hs. unfold findOutTld. rewrite Hn. simpl negb. cbv iota.
  unfold lib_lift. rewrite Hg. cbn [mbind lib_bind]. rewrite Hq. cbn [mbind lib_bind].
  rewrite Hr, decide_False by auto. rewrite Hf. cbn [mbind lib_bind].
  by rewrite decide_True.
Qed.

End RootServer.
