(* ===== verification/AuthoritativeServer.v ===== *)
(** * src/authoritativeDnsServer.py: [findOutResultantIp]

    Every branch of [findOutResultantIp] (lines 14-70): the name check,
    the A query for the whole domain at the name server the resolver
    passed, the two error replies, the first answer record when it is an
    A record, and the direct [dns.resolver.resolve] when the answer
    section is empty or its first record is of another type. *)

From S2P Require Import Prelude PyStr Helpers Protocol DnsLib Tier RootServer.

Section AuthoritativeServer.
Context `{DnsLib}.

Definition fetching_directly (userInput : string) : string :=
  dq userInput +:+ " requires another Authoritative Server Call, fetching it directly".

(** Lines 53-65: the record to report and the messages on the way. *)
Definition answer_record (userInput : string) (response : DnsResponse)
  : lib_result (list string * RR) :=
  match answer response with
  | resourceRecordSet :: _ =>
      match resourceRecordSet with
      | resourceRecord :: _ =>
          if decide (rdtype resourceRecord <> A) then
            rr ← resolver_resolve_A userInput; mret ([fetching_directly userInput], rr)
          else mret ([], resourceRecord)
      | [] => LibRaise IndexError
      end
  | [] => rr ← resolver_resolve_A userInput; mret ([fetching_directly userInput], rr)
  end.

Definition findOutResultantIp (userInput nameServer : string) : lib_result (list string) :=
  if negb (name_from_text userInput) then LibRaise (LibraryError "dns.name.from_text")
  else
  let numberOfWords := length (splitInput userInput) in
  authoritativeInput ← lib_lift (getInput userInput numberOfWords);
  let returnMessage := [looking_up authoritativeInput nameServer] in
  response ← query_udp authoritativeInput A nameServer;
  if decide (rcode response <> NOERROR) then
    mret (returnMessage ++ rcode_error_messages authoritativeInput (rcode response))
  else
  '(extra, resourceRecord) ← answer_record userInput response;
  let finalIPAddress := rr_text resourceRecord in
  mret (returnMessage ++ extra ++
        ["IP address of the " +:+ dq userInput +:+ " is " +:+ dq finalIPAddress;
         finalIPAddress]).

(** [authoritativeDnsServer] receives the name server first and calls
    [findOutResultantIp(userInput, nameServer)] (line 101). *)
Definition authoritative_handler : TierHandler :=
  fun nameServer userInput => findOutResultantIp userInput nameServer.

(** ** The branches of [findOutResultantIp] *)

(** The query is made for the whole domain and a trailing dot. *)
Lemma authoritative_query_name userInput :
  lib_lift (getInput userInput (length (splitInput userInput))) = LibOk (userInput +:+ ".").
Proof. by rewrite getInput_full. Qed.

Lemma findOutResultantIp_ok userInput ns response extra rr :
  name_from_text userInput = true ->
  query_udp (userInput +:+ ".") A ns = LibOk response ->
  rcode response = NOERROR ->
  answer_record userInput response = LibOk (extra, rr) ->
  findOutResultantIp userInput ns =
    LibOk ((looking_up (userInput +:+ ".") ns :: extra ++
           ["IP address of the " +:+ dq userInput +:+ " is " +:+ dq (rr_text rr)]) ++ [rr_text rr]).
Proof.
  intros Hn Hq Hr Ha. unfold findOutResultantIp. rewrite Hn. simpl negb. cbv iota.
  rewrite authoritative_query_name. cbn [mbind lib_bind]. rewrite Hq. cbn [mbind lib_bind].
  rewrite Hr, decide_False by auto. rewrite Ha. cbn [mbind lib_bind].
  cbv [mret lib_ret]. f_equal. simpl. by rewrite <- app_assoc.
Qed.

(** NXDOMAIN: the reply ends with the advice to enter a legible domain
    (lines 40-45). *)
Lemma findOutResultantIp_nxdomain userInput ns response :
  name_from_text userInput = true ->
  query_udp (userInput +:+ ".") A ns = LibOk response ->
  rcode response = NXDOMAIN ->
  findOutResultantIp userInput ns =
    LibOk ([looking_up (userInput +:+ ".") ns; dq (userInput +:+ ".") +:+ " does not exist."] ++
           ["Please enter a legible domain"]).
Proof.
  intros Hn Hq Hr. unfold findOutResultantIp. rewrite Hn. simpl negb. cbv iota.
  rewrite authoritative_query_name. cbn [mbind lib_bind]. rewrite Hq. cbn [mbind lib_bind].
  rewrite Hr, decide_True by done. unfold rcode_error_messages. by rewrite decide_True.
Qed.

(** The first record of the answer section, when it is an A record. *)
Lemma answer_record_first userInput response rr rest more :
  answer response = (rr :: rest) :: more -> rdtype rr = A ->
  answer_record userInput response = LibOk ([], rr).
Proof.
  intros Ha Ht. unfold answer_record. rewrite Ha. by rewrite decide_False by auto.
Qed.

(** An empty answer section, or a first record of another type: the
    address comes from [dns.resolver.resolve(userInput, 'A')]. *)
Lemma answer_record_fallback userInput response rr' :
  (answer response = [] \/
   exists rr rest more, answer response = (rr :: rest) :: more /\ rdtype rr <> A) ->
  resolver_resolve_A userInput = LibOk rr' ->
  answer_record userInput response = LibOk ([fetching_directly userInput], rr').
Proof.
  intros [Ha|(rr & rest & more & Ha & Ht)] Hr; unfold answer_record; rewrite Ha.
  - rewrite Hr. reflexivity.
  - rewrite decide_True by done. rewrite Hr. reflexivity.
Qed.

End AuthoritativeServer.
