(* ===== verification/Bounds.v ===== *)
(** * Datagram sizes: the replies of the tiers fit in [BUFFER_SIZE]

    The resolver reads a tier's reply with [recvfrom(BUFFER_SIZE)]
    (helpers.py line 91, [BUFFER_SIZE = 65535]): a longer datagram would
    be truncated.  With the limits of DNS (a name of at most 255
    characters, records whose texts are as short) the replies of
    [findOutTld] and [findOutResultantIp], encoded by [str(list)], are far
    shorter.  The limits are the laws of the class [DnsLimits] on the
    library. *)

From Stdlib Require Import NArith.
From S2P Require Import Prelude PyStr Helpers Protocol DnsLib Tier RootServer AuthoritativeServer.

(** ** Lengths of [repr] and [str(list)] *)

Lemma repr_char_len q c : String.length (repr_char q c) <= 4.
Proof. unfold repr_char. repeat case_match; simpl; lia. Qed.

Lemma repr_body_len q s : String.length (repr_body q s) <= 4 * String.length s.
Proof.
  induction s as [|c s IH]; [simpl; lia|]. cbn [repr_body String.length].
  rewrite string_length_app. pose proof (repr_char_len q c). lia.
Qed.

Lemma py_repr_len s : String.length (py_repr s) <= 4 * String.length s + 2.
Proof.
  unfold py_repr. cbn [String.length]. rewrite string_length_app. cbn [String.length].
  pose proof (repr_body_len (repr_quote s) s). lia.
Qed.

Lemma py_join_len sep xs :
  String.length (py_join sep xs) <= sum_list (map String.length xs) + length xs * String.length sep.
Proof.
  induction xs as [|x [|y t] IH]; [simpl; lia|simpl; lia|].
  rewrite py_join_cons2, !string_length_app. cbn [map sum_list length id] in *.
  rewrite !Nat.mul_succ_l in *. lia.
Qed.

(** A reply [recvfrom(BUFFER_SIZE)] reads whole (helpers.py line 91). *)
Definition reply_fits (result : list string) : Prop :=
  (N.of_nat (String.length (encode_reply result)) < BUFFER_SIZE)%N.

(** A reply of [n] messages of at most [k] characters. *)
Lemma encode_reply_len xs k :
  Forall (fun m => String.length m <= k) xs ->
  String.length (encode_reply xs) <= 2 + length xs * (4 * k + 4).
Proof.
  intros Hk. unfold encode_reply, py_str_list. cbn [String.length].
  rewrite string_length_app. cbn [String.length].
  assert (Hs : sum_list (map String.length (map py_repr xs)) <= length xs * (4 * k + 2)).
  { induction Hk as [|m xs Hm _ IH]; [simpl; lia|]. cbn [map sum_list length id].
    pose proof (py_repr_len m). rewrite Nat.mul_succ_l. lia. }
  pose proof (py_join_len ", " (map py_repr xs)) as Hj. rewrite length_map in Hj.
  simpl in Hj. rewrite !Nat.mul_add_distr_l in *. lia.
Qed.

Lemma dq_len s : String.length (dq s) = String.length s + 2.
Proof. unfold dq. cbn [String.length]. rewrite string_length_app. simpl. lia. Qed.

(** ** The names [getInput] builds *)

Lemma dotted_app l k : dotted (l ++ k) = dotted l +:+ dotted k.
Proof.
  induction l as [|w l IH]; [done|]. cbn [app dotted foldr]. fold (dotted (l ++ k)) (dotted l).
  rewrite IH. by rewrite !string_app_assoc.
Qed.

Lemma dotted_drop_len k l : String.length (dotted (drop k l)) <= String.length (dotted l).
Proof.
  rewrite <- (take_drop k l) at 2. rewrite dotted_app, string_length_app. lia.
Qed.

Lemma getInput_len u n r : getInput u n = inr r -> String.length r <= String.length u + 1.
Proof.
  destruct (decide (n <= length (splitInput u))) as [Hn|Hn];
    [|by rewrite getInput_too_many by lia].
  rewrite getInput_spec by done. intros [= <-].
  pose proof (getInput_full u) as Hf. rewrite getInput_spec, Nat.sub_diag in Hf by done.
  injection Hf as Hf. rewrite drop_0 in Hf.
  etrans; [apply dotted_drop_len|]. rewrite Hf, string_length_app. simpl. lia.
Qed.

(** ** The limits of DNS, as laws of the library *)
Definition short_rr (rr : RR) : Prop :=
  (forall t, rr_target rr = Some t -> String.length t <= 255) /\ String.length (rr_text rr) <= 255.

Class DnsLimits `{DnsLib} := {
  name_len : forall u, name_from_text u = true -> String.length u <= 255;
  response_short : forall n ty ns resp, query_udp n ty ns = LibOk resp ->
    Forall (Forall short_rr) (authority resp) /\ Forall (Forall short_rr) (answer resp);
  query_text_len : forall n ip, resolver_query_text n = LibOk ip -> String.length ip <= 255;
  resolve_A_short : forall n rr, resolver_resolve_A n = LibOk rr -> short_rr rr
}.

Section Replies.
Context `{DnsLimits}.

(** Unfold the message builders and compute lengths. *)
Ltac len_tac :=
  unfold root_intro, looking_up, fetching_directly, rcode_error_messages in *;
  repeat progress (rewrite ?string_length_app, ?dq_len; cbn [String.length]); lia.

(** A bound on every message of a list, each by [len_tac]. *)
Ltac forall_len :=
  cbn [app]; repeat first [apply Forall_nil_2 | apply Forall_cons_2; [len_tac|]].

Lemma Forall_head_head {X} (P : X -> Prop) (l : list (list X)) x xs l' :
  Forall (Forall P) l -> l = (x :: xs) :: l' -> P x.
Proof. intros Hl ->. by inversion Hl as [|? ? Hx]; inversion Hx. Qed.

Lemma first_record_short resp rr :
  Forall (Forall short_rr) (authority resp) -> Forall (Forall short_rr) (answer resp) ->
  first_record resp = LibOk rr -> short_rr rr.
Proof.
  intros Ha Hn. unfold first_record.
  destruct (authority resp) as [|[|r rs] t] eqn:Eau; cbn [mbind lib_bind]; [|done|].
  - destruct (answer resp) as [|[|r rs] t] eqn:Ean; cbn [mbind lib_bind]; [done|done|].
    intros [= <-]. exact (Forall_head_head _ _ _ _ _ Hn eq_refl).
  - intros [= <-]. exact (Forall_head_head _ _ _ _ _ Ha eq_refl).
Qed.

(** Every message of a reply of the root tier is at most 600 characters
    long, and there are at most six. *)
Lemma findOutTld_reply_shape u ns r :
  String.length ns <= 255 -> findOutTld u ns = LibOk r ->
  length r <= 6 /\ Forall (fun m => String.length m <= 600) r.
Proof.
  intros Hns. unfold findOutTld.
  destruct (name_from_text u) eqn:Hn; [|done]. pose proof (name_len u Hn) as Hu. simpl negb. cbv iota.
  unfold lib_lift. destruct (getInput u 1) as [e|ri] eqn:Hg; [done|].
  pose proof (getInput_len _ _ _ Hg) as Hri. cbn [mbind lib_bind].
  destruct (query_udp ri NS ns) as [resp| |] eqn:Hq; [|done|done]. cbn [mbind lib_bind].
  destruct (response_short _ _ _ _ Hq) as [Hau Han].
  destruct (decide (rcode resp <> NOERROR)).
  { intros [= <-]. unfold rcode_error_messages. case_decide; split;
      [simpl; lia|forall_len|simpl; lia|forall_len]. }
  destruct (first_record resp) as [rr| |] eqn:Hf; [|done|done]. cbn [mbind lib_bind].
  destruct (first_record_short _ _ Hau Han Hf) as [Ht _].
  case_decide.
  { intros [= <-]. split; [simpl; lia|forall_len]. }
  destruct (rr_target rr) as [t|] eqn:Etg; [|done]. cbn [mbind lib_bind].
  pose proof (Ht t eq_refl) as Htl.
  destruct (resolver_query_text t) as [ip| |] eqn:Hip; [|done|done]. cbn [mbind lib_bind].
  pose proof (query_text_len _ _ Hip) as Hipl.
  intros [= <-]. split; [simpl; lia|forall_len].
Qed.

Lemma answer_record_short u resp extra rr :
  Forall (Forall short_rr) (answer resp) ->
  answer_record u resp = LibOk (extra, rr) ->
  short_rr rr /\ (extra = [] \/ extra = [fetching_directly u]).
Proof.
  intros Han. unfold answer_record.
  destruct (answer resp) as [|[|r rs] t] eqn:Ean; [| |case_decide];
    cbn [mbind lib_bind]; try done;
    [destruct (resolver_resolve_A u) as [a| |] eqn:Ha; [|done|done]..|];
    intros [= <- <-]; eauto using resolve_A_short.
  split; [exact (Forall_head_head _ _ _ _ _ Han eq_refl)|by left].
Qed.

(** Every message of a reply of the authoritative tier is at most 600
    characters long, and there are at most five. *)
Lemma findOutResultantIp_reply_shape u ns r :
  String.length ns <= 255 -> findOutResultantIp u ns = LibOk r ->
  length r <= 5 /\ Forall (fun m => String.length m <= 600) r.
Proof.
  intros Hns. unfold findOutResultantIp.
  destruct (name_from_text u) eqn:Hn; [|done]. pose proof (name_len u Hn) as Hu. simpl negb. cbv iota.
  unfold lib_lift. destruct (getInput u _) as [e|ai] eqn:Hg; [done|].
  pose proof (getInput_len _ _ _ Hg) as Hai. cbn [mbind lib_bind].
  destruct (query_udp ai A ns) as [resp| |] eqn:Hq; [|done|done]. cbn [mbind lib_bind].
  destruct (response_short _ _ _ _ Hq) as [_ Han].
  destruct (decide (rcode resp <> NOERROR)).
  { intros [= <-]. unfold rcode_error_messages. case_decide; split;
      [simpl; lia|forall_len|simpl; lia|forall_len]. }
  destruct (answer_record u resp) as [[extra rr]| |] eqn:Ha; [|done|done]. cbn [mbind lib_bind].
  destruct (answer_record_short _ _ _ _ Han Ha) as [[_ Hrr] [-> | ->]];
    intros [= <-]; (split; [simpl; lia|forall_len]).
Qed.

(** [C28] Under the limits of DNS, every reply a root or authoritative
    tier sends is shorter than [BUFFER_SIZE] characters: the resolver's
    [recvfrom(BUFFER_SIZE)] never truncates it. *)
Theorem tier_replies_fit ns u r :
  String.length ns <= 255 ->
  root_handler ns u = LibOk r \/ authoritative_handler ns u = LibOk r ->
  reply_fits r.
Proof.
  intros Hns [Hr|Hr]; [apply findOutTld_reply_shape in Hr as [Hl Hf]|
                       apply findOutResultantIp_reply_shape in Hr as [Hl Hf]]; try done;
    pose proof (encode_reply_len r 600 Hf); unfold reply_fits, BUFFER_SIZE; lia.
Qed.

End Replies.

(** A library within the limits: every name of at most 255 characters is
    accepted, every query answers with the NS record of [edu.]. *)
#[local] Instance limited_lib : DnsLib := {
  name_from_text := fun u => String.length u <=? 255;
  query_udp := fun _ _ _ =>
    LibOk (mkResponse NOERROR [[mkRR NS (Some "a.edu-servers.net.") "a.edu-servers.net."]] []);
  resolver_query_text := fun _ => LibOk "192.5.6.30";
  resolver_resolve_A := fun _ => LibOk (mkRR A None "128.119.245.12")
}.

#[local] Instance limited_lib_limits : DnsLimits.
Proof.
  split.
  - intros u Hu. by apply Nat.leb_le.
  - intros n ty ns resp [= <-]. cbn. split; [|apply Forall_nil_2].
    apply Forall_cons_2; [|apply Forall_nil_2]. apply Forall_cons_2; [|apply Forall_nil_2].
    split; [intros t [= <-]|]; simpl; lia.
  - intros n ip [= <-]. simpl. lia.
  - intros n rr [= <-]. split; [done|simpl; lia].
Qed.

Lemma tier_replies_fit_witness :
  reply_fits (match root_handler "8.8.8.8" "gaia.cs.umass.edu" with LibOk r => r | _ => [] end).
Proof.
  apply (tier_replies_fit "8.8.8.8" "gaia.cs.umass.edu");
    [vm_compute; lia|left; vm_compute; reflexivity].
Defined.
