(* ===== verification/Client.v ===== *)
(** * src/client.py: input validation and the input loop

    [isValid] (lines 90-96) runs [re.findall(r"([a-z]+\.[a-z]+)+", s)]
    and accepts when the list is not empty.  The regular expression is
    modelled as syntax with a backtracking matcher that lists, in the
    order Python's engine tries them, the rests of the input after a
    match ([re_ends]); [+] is greedy and iterates at most [length s + 1]
    times, which is enough since each iteration consumes a character.
    [findall] scans the input as [re.findall] does: a match is counted
    and the scan resumes after it, otherwise it moves one character on.
    The loop (lines 99-120) lower-cases the line, stops on "break",
    queries the resolver on a valid line and prompts again otherwise. *)

From Stdlib Require Import Ascii.
From S2P Require Import Prelude PyStr Helpers.

(** ** Regular expressions *)
Inductive regex :=
| RClass (p : ascii -> bool)      (* [a-z] *)
| RChar (c : ascii)               (* \. *)
| RSeq (r1 r2 : regex)
| RPlus (r : regex)               (* greedy + *)
| RGroup (r : regex).             (* ( ) *)

(** [m+] from [s]: one iteration of [m], then (greedily) more. *)
Fixpoint plus_ends (m : string -> list string) (fuel : nat) (s : string) : list string :=
  match fuel with
  | 0 => []
  | S f => flat_map (fun e => plus_ends m f e ++ [e]) (m s)
  end.

Fixpoint re_ends (r : regex) (s : string) : list string :=
  match r with
  | RClass p => match s with String c s' => if p c then [s'] else [] | EmptyString => [] end
  | RChar c => match s with String d s' => if ascii_eqb c d then [s'] else [] | EmptyString => [] end
  | RSeq r1 r2 => flat_map (re_ends r2) (re_ends r1 s)
  | RPlus r1 => plus_ends (re_ends r1) (S (String.length s)) s
  | RGroup r1 => re_ends r1 s
  end.

(** [re.findall(r, s)]: one element per match (the source only uses the
    length of the list). *)
Fixpoint findall_scan (r : regex) (fuel : nat) (s : string) : nat :=
  match fuel with
  | 0 => 0
  | S f =>
      match re_ends r s with
      | rest :: _ => S (findall_scan r f rest)
      | [] => match s with EmptyString => 0 | String _ s' => findall_scan r f s' end
      end
  end.

Definition re_findall_count (r : regex) (s : string) : nat :=
  findall_scan r (S (String.length s)) s.

Definition is_lower (c : ascii) : bool := (97 <=? code c) && (code c <=? 122).

(** [r"([a-z]+\.[a-z]+)+"] *)
Definition domain_group : regex :=
  RGroup (RSeq (RPlus (RClass is_lower)) (RSeq (RChar DOT) (RPlus (RClass is_lower)))).

Definition domain_regex : regex := RPlus domain_group.

(** [isValid(userInput)] *)
Definition isValid (userInput : string) : bool := 0 <? re_findall_count domain_regex userInput.

(** ** The loop *)
Inductive ClientAction := Exit | Query (domain : string) | Reprompt.

(** One line of the [while True] loop. *)
Definition client_step (line : string) : ClientAction :=
  let userInput := py_lower line in
  if String.eqb userInput "break" then Exit
  else if isValid userInput then Query userInput
  else Reprompt.

(** The lines read until "break": the queries sent to the resolver. *)
Fixpoint client_loop (lines : list string) : list string :=
  match lines with
  | [] => []
  | l :: ls =>
      match client_step l with
      | Exit => []
      | Query d => d :: client_loop ls
      | Reprompt => client_loop ls
      end
  end.

(** ** What [isValid] accepts: a letter, a dot and a letter in a row *)
Definition ldl_at (a : ascii) (t : string) : bool :=
  match t with
  | String d (String c _) => is_lower a && ascii_eqb d DOT && is_lower c
  | _ => false
  end.

Fixpoint has_ldl (s : string) : bool :=
  match s with
  | EmptyString => false
  | String a t => ldl_at a t || has_ldl t
  end.

Definition lowers : regex := RPlus (RClass is_lower).

(** [t] is a suffix of [s]. *)
Definition is_suffix (t s : string) : Prop := exists p, s = p +:+ t.

Lemma is_suffix_refl s : is_suffix s s.
Proof. by exists "". Qed.

Lemma is_suffix_cons t c s : is_suffix t s -> is_suffix t (String c s).
Proof. intros [p ->]. by exists (String c p). Qed.

Lemma is_suffix_inv t c s : is_suffix t (String c s) -> t = String c s \/ is_suffix t s.
Proof.
  intros [[|d p] E]; [by left|]. right. exists p. by injection E as _ ->.
Qed.

Lemma flat_map_nil_iff {X Y} (f : X -> list Y) l :
  flat_map f l = [] <-> Forall (fun x => f x = []) l.
Proof.
  induction l as [|x l IH]; simpl; [split; auto|].
  rewrite app_nil, IH, Forall_cons. tauto.
Qed.

Lemma plus_ends_nil m f s : plus_ends m (S f) s = [] <-> m s = [].
Proof.
  simpl. rewrite flat_map_nil_iff. destruct (m s) as [|e es]; [split; auto|].
  split; [|done]. intros Hf. inversion Hf as [|? ? He _]. by apply app_nil in He as [_ ?].
Qed.


(** Every rest after [[a-z]+] is behind a non-empty run of letters. *)
Lemma plus_ends_lower f s e :
  In e (plus_ends (re_ends (RClass is_lower)) f s) ->
  exists x, x <> "" /\ all_chars is_lower x = true /\ s = x +:+ e.
Proof.
  revert s. induction f as [|f IH]; intros s He; [done|]. simpl in He.
  destruct s as [|a s']; [done|]. simpl in He. destruct (is_lower a) eqn:Ha; [|done].
  simpl in He. rewrite app_nil_r in He. apply in_app_or in He as [He|[<-|[]]].
  - destruct (IH s' He) as (x & Hx & Hl & ->).
    exists (String a x). simpl. by rewrite Ha, Hl.
  - exists (String a ""). simpl. by rewrite Ha.
Qed.

Lemma flat_map_not_nil {X Y} (f : X -> list Y) l :
  flat_map f l <> [] <-> exists x, In x l /\ f x <> [].
Proof.
  induction l as [|x l IH]; simpl.
  - split; [done|]. by intros (? & [] & _).
  - split.
    + intros Hn. destruct (f x) eqn:E.
      * simpl in Hn. apply IH in Hn as (y & Hy & Hf). exists y. auto.
      * exists x. split; [by left|]. by rewrite E.
    + intros (y & [<-|Hy] & Hf) Happ; apply app_nil in Happ as [H1 H2]; [done|].
      apply IH; eauto.
Qed.

(** A run of letters before [e] leaves [e] among the rests of [[a-z]+]. *)
Lemma plus_ends_run x e f :
  x <> "" -> all_chars is_lower x = true -> String.length x <= f ->
  In e (plus_ends (re_ends (RClass is_lower)) f (x +:+ e)).
Proof.
  revert f. induction x as [|a x IH]; intros f Hx Hl Hf; [done|].
  destruct f as [|f]; [simpl in Hf; lia|]. simpl in Hl. apply andb_true_iff in Hl as [Ha Hl].
  simpl. rewrite Ha. simpl. rewrite app_nil_r. apply in_or_app.
  destruct x as [|b x]; [right; by left|]. left. apply IH; [done|done|simpl in *; lia].
Qed.

Lemma re_ends_domain_nil t :
  re_ends domain_regex t <> [] <->
  exists x c r, x <> "" /\ all_chars is_lower x = true /\ is_lower c = true /\
    t = x +:+ String DOT (String c r).
Proof.
  unfold domain_regex, domain_group. cbn [re_ends]. rewrite plus_ends_nil, flat_map_not_nil. split.
  - intros (e & He & Hd). unfold lowers in He. cbn [re_ends] in He.
    destruct (plus_ends_lower _ _ _ He) as (x & Hx & Hl & ->).
    cbn [re_ends] in Hd. destruct e as [|d e']; [done|].
    destruct (ascii_eqb DOT d) eqn:Ed; [|done]. apply ascii_eqb_true in Ed as <-.
    cbn [flat_map] in Hd. rewrite app_nil_r, plus_ends_nil in Hd.
    destruct e' as [|c r]; [done|]. simpl in Hd. destruct (is_lower c) eqn:Hc; [|done].
    by exists x, c, r.
  - intros (x & c & r & Hx & Hl & Hc & ->). exists (String DOT (String c r)). split.
    + unfold lowers. cbn [re_ends]. apply plus_ends_run; [done|done|].
      rewrite string_length_app. lia.
    + cbn [re_ends]. rewrite ascii_eqb_refl. cbn [flat_map]. rewrite app_nil_r, plus_ends_nil.
      simpl. by rewrite Hc.
Qed.

(** The scan of [findall] sees every suffix of the input before its fuel
    runs out. *)
Lemma findall_scan_zero r f s :
  String.length s < f -> findall_scan r f s = 0 -> forall t, is_suffix t s -> re_ends r t = [].
Proof.
  revert s. induction f as [|f IH]; intros s Hs Hz t Ht; [lia|]. simpl in Hz.
  destruct (re_ends r s) as [|rest l] eqn:E; [|done].
  destruct s as [|c s'].
  - destruct Ht as [[|? ?] Hp]; [change ("" +:+ t) with t in Hp; by subst | discriminate].
  - apply is_suffix_inv in Ht as [->|Ht]; [done|]. simpl in Hs. apply (IH s'); [lia|done|done].
Qed.

Lemma findall_scan_pos r f s :
  findall_scan r f s <> 0 -> exists t, is_suffix t s /\ re_ends r t <> [].
Proof.
  revert s. induction f as [|f IH]; intros s Hz; [done|]. simpl in Hz.
  destruct (re_ends r s) as [|rest l] eqn:E.
  - destruct s as [|c s']; [done|]. destruct (IH s' Hz) as (t & Ht & Hm).
    exists t. split; [by apply is_suffix_cons|done].
  - exists s. split; [apply is_suffix_refl|]. by rewrite E.
Qed.

Lemma has_ldl_run x c r :
  x <> "" -> all_chars is_lower x = true -> is_lower c = true ->
  has_ldl (x +:+ String DOT (String c r)) = true.
Proof.
  induction x as [|a x IH]; intros Hx Hl Hc; [done|]. simpl in Hl.
  apply andb_true_iff in Hl as [Ha Hl]. simpl. apply orb_true_iff.
  destruct x as [|b x].
  - left. simpl. by rewrite Ha, Hc.
  - right. by apply IH.
Qed.

Lemma has_ldl_suffix t s : is_suffix t s -> has_ldl t = true -> has_ldl s = true.
Proof.
  intros [p ->] Ht. induction p as [|a p IH]; [done|]. simpl. by rewrite IH, orb_true_r.
Qed.

Lemma has_ldl_match s :
  has_ldl s = true -> exists t, is_suffix t s /\ re_ends domain_regex t <> [].
Proof.
  induction s as [|a t IH]; [done|]. simpl. intros [Hat|Ht]%orb_true_iff.
  - exists (String a t). split; [apply is_suffix_refl|]. apply re_ends_domain_nil.
    destruct t as [|d [|c r]]; [done|done|]. simpl in Hat.
    apply andb_true_iff in Hat as [[Ha Hd]%andb_true_iff Hc].
    apply ascii_eqb_true in Hd as <-. exists (String a ""), c, r. simpl. by rewrite Ha.
  - destruct (IH Ht) as (u & Hu & Hm). exists u. split; [by apply is_suffix_cons|done].
Qed.

Lemma isValid_spec s : isValid s = has_ldl s.
Proof.
  unfold isValid, re_findall_count. destruct (has_ldl s) eqn:Hh.
  - apply Nat.ltb_lt. destruct (findall_scan domain_regex _ s) eqn:E; [|lia]. exfalso.
    destruct (has_ldl_match s Hh) as (t & Ht & Hm). apply Hm.
    exact (findall_scan_zero _ _ _ (Nat.lt_succ_diag_r _) E t Ht).
  - apply Nat.ltb_ge. destruct (findall_scan domain_regex _ s) eqn:E; [lia|]. exfalso.
    destruct (findall_scan_pos domain_regex _ s ltac:(by rewrite E)) as (t & Ht & Hm).
    apply re_ends_domain_nil in Hm as (x & c & r & Hx & Hl & Hc & ->).
    rewrite (has_ldl_suffix _ s Ht (has_ldl_run x c r Hx Hl Hc)) in Hh. done.
Qed.

(** [C22] [isValid] (the regular expression [([a-z]+\.[a-z]+)+] under
    [re.findall], with a non-empty result) accepts exactly the strings
    that hold a lower-case letter, a dot and a lower-case letter in a
    row. *)
Theorem isValid_iff s : isValid s = has_ldl s.
Proof. exact (isValid_spec s). Qed.

(** ** The fuel of the matcher

    [+] iterates at most [length s + 1] times and the scan of [findall]
    makes at most [length s + 1] steps.  Python's engine has no such
    bound; the lemmas show it is never reached, since each iteration of
    the group consumes a character. *)
Section Shrinks.
Variable R : nat -> nat -> Prop.
Hypothesis R_trans : forall a b c, R a b -> R b c -> R a c.

(** Every rest after a match of [m] is shorter than the input, by [R]. *)
Definition shrinks (m : string -> list string) : Prop :=
  forall t e, In e (m t) -> R (String.length e) (String.length t).

Lemma plus_ends_shrinks m f : shrinks m -> shrinks (plus_ends m f).
Proof.
  intros Hm. induction f as [|f IH]; intros t e He; [done|]. simpl in He.
  apply in_flat_map in He as (e' & He' & He). apply in_app_or in He as [He|[<-|[]]].
  - exact (R_trans _ _ _ (IH _ _ He) (Hm _ _ He')).
  - exact (Hm _ _ He').
Qed.

Lemma seq_shrinks m1 m2 :
  shrinks m1 -> (forall t e, In e (m2 t) -> String.length e <= String.length t) ->
  (forall a b c, R a b -> c <= a -> R c b) -> shrinks (fun t => flat_map m2 (m1 t)).
Proof.
  intros H1 H2 Hle t e He. apply in_flat_map in He as (e' & He' & He).
  exact (Hle _ _ _ (H1 _ _ He') (H2 _ _ He)).
Qed.

End Shrinks.

Definition consuming := shrinks lt.

Lemma re_ends_le r : shrinks le (re_ends r).
Proof.
  induction r as [p|c|r1 IH1 r2 IH2|r IH|r IH]; intros t e He; cbn [re_ends] in He.
  - destruct t as [|a t]; [done|]. destruct (p a); [|done]. destruct He as [<-|[]]. simpl; lia.
  - destruct t as [|a t]; [done|]. destruct (ascii_eqb c a); [|done].
    destruct He as [<-|[]]. simpl; lia.
  - apply in_flat_map in He as (e' & He' & He). etrans; [exact (IH2 _ _ He)|exact (IH1 _ _ He')].
  - exact (plus_ends_shrinks le (fun _ _ _ => Nat.le_trans _ _ _) _ _ IH t e He).
  - exact (IH t e He).
Qed.

Lemma class_consuming p : consuming (re_ends (RClass p)).
Proof.
  intros [|a t] e He; simpl in He; [done|]. destruct (p a); [|done].
  destruct He as [<-|[]]. simpl; lia.
Qed.

Lemma domain_group_consuming : consuming (re_ends domain_group).
Proof.
  intros t e He. cbn [re_ends domain_group] in He.
  refine (seq_shrinks lt _ (fun t => re_ends (RSeq (RChar DOT) (RPlus (RClass is_lower))) t)
            _ (re_ends_le _) _ t e He).
  - exact (plus_ends_shrinks lt Nat.lt_trans _ _ (class_consuming _)).
  - intros; lia.
Qed.

Lemma flat_map_ext_in {X Y} (f g : X -> list Y) l :
  (forall x, In x l -> f x = g x) -> flat_map f l = flat_map g l.
Proof. induction l as [|x l IH]; intros Hfg; [done|]. simpl. rewrite Hfg, IH; auto with datatypes. Qed.

Lemma plus_ends_fuel m f g s :
  consuming m -> String.length s < f -> String.length s < g -> plus_ends m f s = plus_ends m g s.
Proof.
  intros Hm. revert g s. induction f as [|f IH]; intros [|g] s Hf Hg; try lia. simpl.
  apply flat_map_ext_in. intros e He. specialize (Hm _ _ He). rewrite (IH g e); [done|lia|lia].
Qed.

Lemma findall_scan_fuel r f g s :
  consuming (re_ends r) -> String.length s < f -> String.length s < g ->
  findall_scan r f s = findall_scan r g s.
Proof.
  intros Hr. revert g s. induction f as [|f IH]; intros [|g] s Hf Hg; try lia. simpl.
  destruct (re_ends r s) as [|rest l] eqn:E.
  - destruct s as [|c s']; [done|]. simpl in *. apply IH; lia.
  - assert (Hl : String.length rest < String.length s) by (apply Hr; rewrite E; by left).
    f_equal. apply IH; lia.
Qed.

(** The fuel bounds of the matcher are never reached: with any
    fuel above the length of the input, the scan of [findall], the outer
    [( ... )+] and the inner [[a-z]+] give the results of the bounded
    definitions, which are therefore those of Python's unbounded
    engine. *)
Lemma matcher_fuel_adequate s f :
  String.length s < f ->
  findall_scan domain_regex f s = re_findall_count domain_regex s /\
  plus_ends (re_ends domain_group) f s = re_ends domain_regex s /\
  plus_ends (re_ends (RClass is_lower)) f s = re_ends lowers s.
Proof.
  intros Hf. split; [|split].
  - apply findall_scan_fuel; [|lia|lia].
    intros t e He.
    exact (plus_ends_shrinks lt Nat.lt_trans _ (S (String.length t)) domain_group_consuming t e He).
  - apply plus_ends_fuel; [exact domain_group_consuming|lia|lia].
  - apply plus_ends_fuel; [apply class_consuming|lia|lia].
Qed.

Lemma has_ldl_dot s :
 has_ldl s = true -> str_mem DOT s = true.
Proof.
  induction s as [|a t IH]; [done|]. simpl. intros [Hat|Ht]%orb_true_iff.
  - destruct t as [|d [|c r]]; [done|done|]. simpl in Hat.
    apply andb_true_iff in Hat as [[_ Hd]%andb_true_iff _]. apply ascii_eqb_true in Hd as <-.
    simpl. by rewrite ascii_eqb_refl, orb_true_r.
  - by rewrite IH, orb_true_r.
Qed.

Lemma py_split_two c s : str_mem c s = true -> 2 <= length (py_split c s).
Proof.
  induction s as [|d s IH]; [done|]. simpl. intros Hm.
  destruct (ascii_eqb d c) eqn:E.
  - simpl. pose proof (py_split_not_nil c s). destruct (py_split c s); [done|simpl; lia].
  - assert (Hs : str_mem c s = true).
    { apply orb_true_iff in Hm as [Hcd|]; [|done].
      apply ascii_eqb_true in Hcd; subst. by rewrite ascii_eqb_refl in E. }
    specialize (IH Hs). destruct (py_split c s) as [|h t]; simpl in *; lia.
Qed.

(** A line the client sends passed [isValid] and has two labels or more. *)
Lemma client_step_query line d :
  client_step line = Query d -> isValid d = true /\ 2 <= length (splitInput d).
Proof.
  unfold client_step. destruct (String.eqb (py_lower line) "break"); [done|].
  destruct (isValid (py_lower line)) eqn:Hv; [|done]. intros [= <-]. split; [done|].
  apply py_split_two, has_ldl_dot. by rewrite <- isValid_spec.
Qed.

(** [C23] Every domain the client sends to the resolver passed
    [isValid] and has at least two labels: the unpacking
    [rootInput, tldInput, *_] of the resolver never fails on the client's
    queries. *)
Theorem client_queries_two_labels lines d :
  In d (client_loop lines) -> isValid d = true /\ 2 <= length (splitInput d).
Proof.
  induction lines as [|l ls IH]; [done|]. simpl.
  pose proof (client_step_query l) as Hq.
  destruct (client_step l) as [|d'|]; [done| |exact IH].
  intros [<-|Hd]; [by apply Hq|by apply IH].
Qed.

Lemma client_queries_two_labels_witness :
  In "gaia.cs.umass.edu" (client_loop ["Gaia.CS.umass.edu"; "nota_domain"; "break"]) /\
  isValid "gaia.cs.umass.edu" = true /\ 2 <= length (splitInput "gaia.cs.umass.edu").
Proof.
  assert (Hin : In "gaia.cs.umass.edu" (client_loop ["Gaia.CS.umass.edu"; "nota_domain"; "break"]))
    by (vm_compute; left; reflexivity).
  split; [exact Hin|]. exact (client_queries_two_labels _ _ Hin).
Defined.

(** A letter, a dot and a letter anywhere make [isValid] hold. *)
Lemma isValid_ldl p x y s :
  is_lower x = true -> is_lower y = true ->
  isValid (p +:+ String x (String DOT (String y s))) = true.
Proof.
  intros Hx Hy. rewrite isValid_spec. apply (has_ldl_suffix (String x (String DOT (String y s)))).
  - by exists p.
  - simpl. by rewrite Hx, Hy.
Qed.

(** [C33] The client's check does not ensure non-empty labels (spec
    section 3: labels are non-empty; section 4.1: MalformedDomain): every
    lower-case line with a letter, a dot and a letter somewhere, followed
    by two dots, is sent to the resolver as it is, and the name it sends
    has an empty label. *)
Theorem client_accepts_empty_label p x y s :
  is_lower x = true -> is_lower y = true ->
  let d := p +:+ String x (String DOT (String y (String DOT (String DOT s)))) in
  py_lower d = d -> client_step d = Query d /\ "" ∈ splitInput d.
Proof.
  intros Hx Hy d Hd. split.
  - unfold client_step. rewrite Hd. pose proof (isValid_ldl p x y (String DOT (String DOT s)) Hx Hy) as Hv. fold d in Hv.
    destruct (String.eqb d "break") eqn:Eb; [|by rewrite Hv].
    apply String.eqb_eq in Eb. rewrite Eb in Hv. discriminate.
  - unfold splitInput, d.
    replace (p +:+ String x (String DOT (String y (String DOT (String DOT s)))))
      with ((p +:+ String x (String DOT (String y ""))) +:+ String DOT (String DOT s))
      by (rewrite string_app_assoc; reflexivity).
    pose proof (py_split_double DOT (p +:+ String x (String DOT (String y ""))) s) as Hin.
    destruct (py_split _ _); [done|]. by right.
Qed.

Lemma client_accepts_empty_label_witness :
  is_lower "x" = true /\ is_lower "y" = true /\ py_lower "x.y..com" = "x.y..com" /\
  client_step "x.y..com" = Query "x.y..com" /\ "" ∈ splitInput "x.y..com".
Proof.
  split; [reflexivity|]. split; [reflexivity|]. split; [reflexivity|].
  exact (client_accepts_empty_label "" "x" "y" "com" eq_refl eq_refl eq_refl).
Defined.
