(* ===== verification/Session.v ===== *)
(** * A client session: src/client.py against the local resolver

    [connectClientToLocalDnsServer] (client.py lines 32-84) opens a fresh
    UDP socket, sends the domain to the resolver and reads two datagrams
    on it: the acknowledgement, then the result.  [recvfrom] has no
    timeout, so when the resolver sends fewer than two datagrams for the
    request (it raised or is waiting for a tier) the client waits for
    ever.  A crashed or waiting resolver reads no datagram at all.
    [client_session] is the loop of lines 99-120 run against the
    resolver process: the pairs of datagrams the client prints, and
    whether it ended waiting for ever.  Input that runs out is the user
    typing nothing more.  On a network whose tiers always answer, the
    client prints two datagrams per name it sends and never hangs. *)

From S2P Require Import Prelude PyStr Helpers LocalResolver Client.

Section Session.
Context {W : Type} `{Network W}.

(** [connectClientToLocalDnsServer(message)]: the resolver process serves
    the datagram; the client reads (and prints) the datagrams sent to its
    socket while the resolver served it, two at most. *)
Definition connectClientToLocalDnsServer (rootNameServer message : string)
    (p : LocalProc * LState W) : list string * (LocalProc * LState W) :=
  let p' := serve_one rootNameServer p message in
  (take 2 (drop (length (to_client p.2)) (to_client p'.2)), p').

(** The [while True] loop of client.py with the resolver behind it: the
    datagrams the client prints, and whether it ends waiting for ever
    in [recvfrom]. *)
Fixpoint client_session (rootNameServer : string) (lines : list string)
    (p : LocalProc * LState W) : list string * bool :=
  match lines with
  | [] => ([], false)
  | line :: rest =>
      match client_step line with
      | Exit => ([], false)
      | Reprompt => client_session rootNameServer rest p
      | Query userInput =>
          let '(received, p') := connectClientToLocalDnsServer rootNameServer userInput p in
          if length received =? 2 then
            let '(printed, hung) := client_session rootNameServer rest p' in
            (received ++ printed, hung)
          else (received, true)
      end
  end.

(** ** What the client reads *)

Lemma drop_length_app {A} (l k : list A) : drop (length l) (l ++ k) = k.
Proof. by rewrite drop_app_length. Qed.

Lemma connect_cases rootNameServer d (st : LState W) :
  match handle_request rootNameServer d st with
  | Ret _ st' => exists f, cache st' !! d = Some f /\
      connectClientToLocalDnsServer rootNameServer d (Serving, st) =
        ([hang_in_there d; f], (Serving, st'))
  | Raise e st' => connectClientToLocalDnsServer rootNameServer d (Serving, st) =
        ([hang_in_there d], (Crashed e, st'))
  | Blocked st' => connectClientToLocalDnsServer rootNameServer d (Serving, st) =
        ([hang_in_there d], (Waiting, st'))
  end.
Proof.
  pose proof (handle_request_replies rootNameServer d st) as Hr.
  unfold connectClientToLocalDnsServer, serve_one.
  destruct (handle_request rootNameServer d st) as [u s'|e s'|s']; cbn [fst snd].
  - destruct Hr as (f & Hc & ->). exists f. split; [done|]. by rewrite drop_length_app.
  - by rewrite Hr, drop_length_app.
  - by rewrite Hr, drop_length_app.
Qed.

(** [C10] A request the resolver completes makes the client print the
    acknowledgement and then exactly the address the resolver cached
    under the domain; for a request it does not complete (an exception,
    or a tier that never answers) the client prints the acknowledgement
    and waits for ever for the second datagram. *)
Theorem connect_reads_answer rootNameServer d (st : LState W) :
  match handle_request rootNameServer d st with
  | Ret _ st' => exists f, cache st' !! d = Some f /\
      (connectClientToLocalDnsServer rootNameServer d (Serving, st)).1 = [hang_in_there d; f]
  | _ => (connectClientToLocalDnsServer rootNameServer d (Serving, st)).1 = [hang_in_there d]
  end.
Proof.
  pose proof (connect_cases rootNameServer d st) as Hc.
  destruct (handle_request rootNameServer d st); [destruct Hc as (f & ? & ->); eauto| |];
    by rewrite Hc.
Qed.

Lemma client_session_stops rootNameServer line rest d (st : LState W) :
  client_step line = Query d ->
  (forall u st', handle_request rootNameServer d st <> Ret u st') ->
  client_session rootNameServer (line :: rest) (Serving, st) = ([hang_in_there d], true).
Proof.
  intros Hl Hn. cbn [client_session]. rewrite Hl.
  pose proof (connect_cases rootNameServer d st) as Hc.
  destruct (handle_request rootNameServer d st) as [u s'|e s'|s'];
    [by destruct (Hn u s')|by rewrite Hc|by rewrite Hc].
Qed.

(** [C27] The client stops at the first query the resolver does not
    complete: it prints the acknowledgement, then waits for ever; no later
    line is read. *)
Theorem client_session_hangs rootNameServer line rest d (st : LState W) :
  client_step line = Query d ->
  (forall u st', handle_request rootNameServer d st <> Ret u st') ->
  client_session rootNameServer (line :: rest) (Serving, st) = ([hang_in_there d], true).
Proof. exact (client_session_stops rootNameServer line rest d st). Qed.

(** On a network whose tiers always answer, the client prints the
    acknowledgement and the address of every query it sends, and never
    waits for ever. *)
Lemma client_session_serves (P : W -> Prop)
    (answering : forall w p ns m, P w -> tier_port p ->
       exists raw, (exchange w p ns m).1 = Some raw /\ P (exchange w p ns m).2)
    rootNameServer lines (st : LState W) :
  P (world st) ->
  exists answers, length answers = length (client_loop lines) /\
    client_session rootNameServer lines (Serving, st) = (replies_for (client_loop lines) answers, false).
Proof.
  revert st. induction lines as [|line rest IH]; intros st Hs; [by exists []|].
  cbn [client_session client_loop]. pose proof (client_step_query line) as Hq.
  destruct (client_step line) as [|d|]; [by exists []| |by apply IH].
  destruct (Hq d eq_refl) as [_ Hlen].
  destruct (handle_request_total P answering rootNameServer d st Hlen Hs) as (s1 & E1 & Hs1).
  pose proof (connect_cases rootNameServer d st) as Hc. rewrite E1 in Hc.
  destruct Hc as (f & _ & ->). cbn -[replies_for].
  destruct (IH s1 Hs1) as (fs & Hl & ->). exists (f :: fs). split; [simpl; by f_equal|done].
Qed.

End Session.

(** A network on which no tier ever answers. *)
#[local] Instance silent_net : Network unit := fun w _ _ _ => (None, w).

Lemma client_session_hangs_witness :
  client_session "8.8.8.8" ["Gaia.CS.umass.edu"; "other.cs.umass.edu"]
    (Serving, mkLState ∅ tt [] []) = ([hang_in_there "gaia.cs.umass.edu"], true).
Proof.
  apply (client_session_hangs "8.8.8.8" "Gaia.CS.umass.edu" _ "gaia.cs.umass.edu");
    [vm_compute; reflexivity|intros u st'; vm_compute; discriminate].
Defined.
