(* ===== verification/System.v ===== *)
(** * The whole system: the resolver talking to the three tier processes

    [World] holds the state of the root, TLD and authoritative processes;
    [world_exchange] delivers the two datagrams of [actAsTemporaryClient]
    to the process listening on the port (none listens elsewhere: the
    client then waits for ever).  The root and authoritative processes run
    the handlers modelled from the sources over any [DnsLib]; the TLD
    script is not part of the sources and its handler is a parameter.
    The theorems follow requests through the whole system: complete
    resolutions, NXDOMAIN answers of the root and authoritative tiers, a
    name the library rejects, the invariant that no tier is left
    half-way through the two-datagram protocol, and the progress of the
    resolver and of the client when every tier's handler returns. *)

From Stdlib Require Import NArith.
From S2P Require Import Prelude PyStr Helpers Protocol LocalResolver DnsLib Tier RootServer AuthoritativeServer Client Session.

Record World := mkWorld { root_p : TierProc; tld_p : TierProc; auth_p : TierProc }.

Section System.
Context `{DnsLib}.
Variable tld_handler : TierHandler.

Definition world_exchange (w : World) (port : N) (nameServer message : string)
  : option string * World :=
  if (port =? ROOT_SERVER_PORT)%N then
    let '(r, p) := tier_exchange root_handler (root_p w) nameServer message in
    (r, mkWorld p (tld_p w) (auth_p w))
  else if (port =? TLD_SERVER_PORT)%N then
    let '(r, p) := tier_exchange tld_handler (tld_p w) nameServer message in
    (r, mkWorld (root_p w) p (auth_p w))
  else if (port =? AUTHORITATIVE_SERVER_PORT)%N then
    let '(r, p) := tier_exchange authoritative_handler (auth_p w) nameServer message in
    (r, mkWorld (root_p w) (tld_p w) p)
  else (None, w).

#[export] Instance world_network : Network World := world_exchange.

(** The handler and process state behind a port. *)
Definition port_handler (port : N) : option (TierHandler * (World -> TierProc)) :=
  if (port =? ROOT_SERVER_PORT)%N then Some (root_handler, root_p)
  else if (port =? TLD_SERVER_PORT)%N then Some (tld_handler, tld_p)
  else if (port =? AUTHORITATIVE_SERVER_PORT)%N then Some (authoritative_handler, auth_p)
  else None.

Definition world_settled (w : World) : bool :=
  settled (root_p w) && settled (tld_p w) && settled (auth_p w).

(** Every tier process listening for a request. *)
Definition world_listening (w : World) : Prop :=
  root_p w = Listening /\ tld_p w = Listening /\ auth_p w = Listening.

(** ** One exchange with the world *)
Lemma world_exchange_settled w port ns m :
  world_settled w = true -> world_settled (world_exchange w port ns m).2 = true.
Proof.
  unfold world_settled, world_exchange. intros Hw.
  apply andb_true_iff in Hw as [[Hr Ht]%andb_true_iff Ha].
  destruct (port =? ROOT_SERVER_PORT)%N;
    [|destruct (port =? TLD_SERVER_PORT)%N;
      [|destruct (port =? AUTHORITATIVE_SERVER_PORT)%N]].
  - pose proof (tier_exchange_settled root_handler _ ns m Hr) as Hs.
    destruct (tier_exchange root_handler (root_p w) ns m). simpl in *. by rewrite Hs, Ht, Ha.
  - pose proof (tier_exchange_settled tld_handler _ ns m Ht) as Hs.
    destruct (tier_exchange tld_handler (tld_p w) ns m). simpl in *. by rewrite Hs, Hr, Ha.
  - pose proof (tier_exchange_settled authoritative_handler _ ns m Ha) as Hs.
    destruct (tier_exchange authoritative_handler (auth_p w) ns m). simpl in *.
    by rewrite Hs, Hr, Ht.
  - simpl. by rewrite Hr, Ht, Ha.
Qed.

(** A listening tier whose handler returns answers the exchange with
    [str(result)] and is listening again: the world is unchanged. *)
Lemma world_exchange_ok w port h get ns m r :
  port_handler port = Some (h, get) -> get w = Listening -> h ns m = LibOk r ->
  world_exchange w port ns m = (Some (encode_reply r), w).
Proof.
  unfold port_handler, world_exchange. intros Hp Hl Hh.
  destruct (port =? ROOT_SERVER_PORT)%N;
    [|destruct (port =? TLD_SERVER_PORT)%N;
      [|destruct (port =? AUTHORITATIVE_SERVER_PORT)%N]]; simplify_eq;
    rewrite Hl, tier_exchange_listening, Hh; by destruct w; simpl in *; subst.
Qed.

(** A query to such a tier, whose reply ends with a plain payload,
    returns that payload and only logs the query. *)
Lemma generalServerHandler_ok (st : LState World) u ns port msg h get msgs x :
  port_handler port = Some (h, get) -> get (world st) = Listening ->
  h ns u = LibOk (msgs ++ [x]) -> plain_payload x = true ->
  generalServerHandler u ns port msg st =
    Ret x (mkLState (cache st) (world st) (sent st ++ [(port, ns, u)]) (to_client st)).
Proof.
  intros Hp Hl Hh Hx.
  rewrite (@generalServerHandler_cases World world_network u ns port msg st _ _
             (world_exchange_ok _ _ _ _ _ _ _ Hp Hl Hh)).
  fold (reply_payload (encode_reply (msgs ++ [x]))). by rewrite reply_payload_encode_plain.
Qed.

(** Whatever the root tier's reply ends with, when it is plain, is
    cached under the rightmost label and stays there whatever the TLD and
    authoritative stages do. *)
Lemma root_payload_cached (st : LState World) rootNameServer d msgs m :
  2 <= length (splitInput d) -> cache st !! suffix d 1 = None -> root_p (world st) = Listening ->
  findOutTld d rootNameServer = LibOk (msgs ++ [m]) -> plain_payload m = true ->
  cache (final_state (handle_request rootNameServer d st)) !! suffix d 1 = Some m.
Proof.
  intros Hlen Hc Hl Hf Hm. pose proof (suffix_1_neq d Hlen) as [N2 NN].
  rewrite <- length_rev in Hlen.
  destruct (rev (splitInput d)) as [|r0 [|r1 t]] eqn:E; simpl in Hlen; [lia|lia|].
  rewrite (handle_request_unfold rootNameServer d st r0 r1 t E). unfold root_part.
  set (s0 := with_reply (hang_in_there d) st). cbv [mbind PyM_bind].
  rewrite (bind_Ret _ _ _ _ _ (eq_trans (root_stage_miss rootNameServer d (suffix d 1) s0 Hc)
    (generalServerHandler_ok s0 d rootNameServer ROOT_SERVER_PORT "" _ root_p _ _ eq_refl Hl Hf Hm))).
  rewrite (bind_Ret _ _ _ _ _ (set_cache_Ret _ _ _)), tld_part_keeps by done.
  apply lookup_insert_eq.
Qed.

(** [C14] A root tier that answers NXDOMAIN poisons the cache: the
    resolver does not abort (spec section 7: no cache entry for the
    failing stage) but takes the last message of the error reply,
    "Please enter a legible domain", for the TLD server's address and
    caches it under the rightmost label, where it stays whatever the TLD
    and authoritative stages do. *)
Theorem nxdomain_cached_as_server (st : LState World) rootNameServer d response :
  2 <= length (splitInput d) ->
  cache st !! suffix d 1 = None ->
  root_p (world st) = Listening ->
  name_from_text d = true ->
  query_udp (suffix d 1 +:+ ".") NS rootNameServer = LibOk response ->
  rcode response = NXDOMAIN ->
  cache (final_state (handle_request rootNameServer d st)) !! suffix d 1 =
    Some "Please enter a legible domain".
Proof.
  intros Hlen Hc Hl Hn Hq Hr.
  assert (Hg : getInput d 1 = inr (suffix d 1 +:+ ".")) by (apply getInput_suffix; lia).
  apply (root_payload_cached st rootNameServer d
    [root_intro d (suffix d 1 +:+ "."); looking_up (suffix d 1 +:+ ".") rootNameServer;
     dq (suffix d 1 +:+ ".") +:+ " does not exist."]); [done|done|done| |reflexivity].
  exact (findOutTld_nxdomain d rootNameServer _ response Hn Hg Hq Hr).
Qed.

(** Rewrite the first step of a computation: a [set_cache], or a query
    to a listening tier (its process state, the hypotheses on it and on
    its handler given). *)
Ltac cache_step := rewrite (bind_Ret _ _ _ _ _ (set_cache_Ret _ _ _)).
Ltac query_step get Hl Hh Hx :=
  match goal with |- bind (generalServerHandler ?u ?ns ?port ?msg) _ ?s = _ =>
    rewrite (bind_Ret _ _ _ _ _ (generalServerHandler_ok s u ns port msg _ get _ _ eq_refl Hl Hh Hx))
  end.

(** ** A complete resolution

    The three tiers listening, the root stage missing the cache, and each
    tier's handler ending its reply with a plain payload: the resolver
    stores the three payloads under the three keys, sends the last one to
    the client after the acknowledgement, and leaves the tiers listening. *)
Definition resolved (st : LState World) (rootNameServer d tld auth final : string) : LState World :=
  mkLState (<[d := final]> (<[suffix d 2 := auth]> (<[suffix d 1 := tld]> (cache st))))
           (world st)
           (sent st ++ [(ROOT_SERVER_PORT, rootNameServer, d); (TLD_SERVER_PORT, tld, d);
                        (AUTHORITATIVE_SERVER_PORT, auth, d)])
           (to_client st ++ [hang_in_there d; final]).

Lemma handle_request_resolves (st : LState World) rootNameServer d m1 tld m2 auth m3 final :
  2 <= length (splitInput d) ->
  cache st !! suffix d 1 = None ->
  root_p (world st) = Listening -> tld_p (world st) = Listening -> auth_p (world st) = Listening ->
  findOutTld d rootNameServer = LibOk (m1 ++ [tld]) -> plain_payload tld = true ->
  tld_handler tld d = LibOk (m2 ++ [auth]) -> plain_payload auth = true ->
  findOutResultantIp d auth = LibOk (m3 ++ [final]) -> plain_payload final = true ->
  handle_request rootNameServer d st = Ret tt (resolved st rootNameServer d tld auth final).
Proof.
  intros Hlen Hc Hr Ht Ha Hroot Pt Htld Pa Hauth Pf. rewrite <- length_rev in Hlen.
  destruct (rev (splitInput d)) as [|r0 [|r1 t]] eqn:E; simpl in Hlen; [lia|lia|].
  rewrite (handle_request_unfold rootNameServer d st r0 r1 t E).
  unfold root_part, tld_part, auth_part. cbv [mbind PyM_bind].
  match goal with |- bind _ _ ?s = _ =>
    rewrite (bind_Ret _ _ _ _ _ (eq_trans (root_stage_miss rootNameServer d _ s Hc)
      (generalServerHandler_ok s d rootNameServer ROOT_SERVER_PORT "" _ root_p _ _ eq_refl Hr Hroot Pt))) end.
  cache_step. query_step tld_p Ht Htld Pa. cache_step. query_step auth_p Ha Hauth Pf. cache_step.
  rewrite suffix_full.
  unfold resolved, send_to_client, modify, with_cache, with_reply. simpl.
  by rewrite <- !app_assoc.
Qed.

(** [C31] After a complete resolution the TLD key [suffix d 2] holds
    the authoritative server's address only for names of three labels or
    more; for a name of two labels it is the whole name, and the
    authoritative stage overwrites the entry with the final address (the
    spec, section 3, maps every suffix to the address of the next
    server). *)
Theorem tld_entry_after_resolution (st : LState World) rootNameServer d m1 tld m2 auth m3 final :
  2 <= length (splitInput d) ->
  cache st !! suffix d 1 = None ->
  root_p (world st) = Listening -> tld_p (world st) = Listening -> auth_p (world st) = Listening ->
  findOutTld d rootNameServer = LibOk (m1 ++ [tld]) -> plain_payload tld = true ->
  tld_handler tld d = LibOk (m2 ++ [auth]) -> plain_payload auth = true ->
  findOutResultantIp d auth = LibOk (m3 ++ [final]) -> plain_payload final = true ->
  cache (final_state (handle_request rootNameServer d st)) !! suffix d 2 =
    Some (if length (splitInput d) =? 2 then final else auth).
Proof.
  intros Hlen Hc Hr Ht Ha Hroot Pt Htld Pa Hauth Pf.
  rewrite (handle_request_resolves st rootNameServer d m1 tld m2 auth m3 final
             Hlen Hc Hr Ht Ha Hroot Pt Htld Pa Hauth Pf).
  cbn [final_state resolved cache]. destruct (Nat.eqb_spec (length (splitInput d)) 2) as [E2|E2].
  - pose proof (suffix_full d) as Hf. rewrite E2 in Hf. rewrite Hf. apply lookup_insert_eq.
  - rewrite lookup_insert_ne by (apply not_eq_sym, suffix_2_neq_full; lia).
    apply lookup_insert_eq.
Qed.

(** [C2] A resolution through the library: when the root tier's
    library finds the NS record of the rightmost label naming the TLD
    server and that server's address [ip], the TLD tier names the
    authoritative server [auth], and the authoritative tier's library
    finds the A record [rr] (first in the answer section, or by the
    fallback lookup), the resolver caches [ip], [auth] and the address of
    [rr] under [suffix d 1], [suffix d 2] and [d], sends that address to
    the client after the acknowledgement, and logs exactly the three
    queries. *)
Theorem resolution_through_library (st : LState World) rootNameServer d
    respRoot rr1 tldName ip m2 auth respAuth extra rr :
  2 <= length (splitInput d) ->
  cache st !! suffix d 1 = None ->
  root_p (world st) = Listening -> tld_p (world st) = Listening -> auth_p (world st) = Listening ->
  name_from_text d = true ->
  query_udp (suffix d 1 +:+ ".") NS rootNameServer = LibOk respRoot ->
  rcode respRoot = NOERROR -> first_record respRoot = LibOk rr1 -> rdtype rr1 = NS ->
  rr_target rr1 = Some tldName -> resolver_query_text tldName = LibOk ip -> plain_payload ip = true ->
  tld_handler ip d = LibOk (m2 ++ [auth]) -> plain_payload auth = true ->
  query_udp (d +:+ ".") A auth = LibOk respAuth -> rcode respAuth = NOERROR ->
  answer_record d respAuth = LibOk (extra, rr) -> plain_payload (rr_text rr) = true ->
  handle_request rootNameServer d st = Ret tt (resolved st rootNameServer d ip auth (rr_text rr)).
Proof.
  intros Hlen Hc Hr Ht Ha Hn Hq Hrc Hf Hns Htg Hip Pip Htld Pa Hqa Hrca Har Pf.
  assert (Hg : getInput d 1 = inr (suffix d 1 +:+ ".")) by (apply getInput_suffix; lia).
  eapply handle_request_resolves; try eassumption.
  - eapply findOutTld_ok; try eassumption. by rewrite Hns.
  - eapply findOutResultantIp_ok; eassumption.
Qed.

(** [C15] An authoritative tier that answers NXDOMAIN does not abort the
    resolution (spec section 7: the failure is surfaced and no cache
    entry is written for the failing stage): the resolver caches the
    advice "Please enter a legible domain" under the whole domain and
    sends it to the client as the address of the domain. *)
Theorem auth_nxdomain_answered (st : LState World) rootNameServer d m1 tld m2 auth response :
  2 <= length (splitInput d) ->
  cache st !! suffix d 1 = None ->
  root_p (world st) = Listening -> tld_p (world st) = Listening -> auth_p (world st) = Listening ->
  findOutTld d rootNameServer = LibOk (m1 ++ [tld]) -> plain_payload tld = true ->
  tld_handler tld d = LibOk (m2 ++ [auth]) -> plain_payload auth = true ->
  name_from_text d = true ->
  query_udp (d +:+ ".") A auth = LibOk response -> rcode response = NXDOMAIN ->
  cache (final_state (handle_request rootNameServer d st)) !! d = Some "Please enter a legible domain" /\
  last (to_client (final_state (handle_request rootNameServer d st))) =
    Some "Please enter a legible domain".
Proof.
  intros Hlen Hc Hr Ht Ha Hroot Pt Htld Pa Hn Hq Hrc.
  rewrite (handle_request_resolves st rootNameServer d m1 tld m2 auth _ _ Hlen Hc Hr Ht Ha
             Hroot Pt Htld Pa (findOutResultantIp_nxdomain d auth response Hn Hq Hrc) eq_refl).
  split; [apply lookup_insert_eq|]. cbn [final_state resolved to_client].
  change [hang_in_there d; "Please enter a legible domain"]
    with ([hang_in_there d] ++ ["Please enter a legible domain"]).
  by rewrite app_assoc, last_app_single.
Qed.

(** A name [dns.name.from_text] rejects makes [findOutTld] raise, and
    the root process [exit()]s: the exchange gets no reply. *)
Lemma root_exchange_malformed w ns d :
  root_p w = Listening -> name_from_text d = false ->
  world_exchange w ROOT_SERVER_PORT ns d = (None, mkWorld Dead (tld_p w) (auth_p w)).
Proof.
  intros Hl Hn. unfold world_exchange. rewrite N.eqb_refl, Hl, tier_exchange_listening.
  unfold root_handler, findOutTld. by rewrite Hn.
Qed.

(** The request for such a name blocks on the root query, after the
    acknowledgement, with the root tier dead. *)
Lemma handle_request_malformed (st : LState World) rootNameServer d :
  2 <= length (splitInput d) -> cache st !! suffix d 1 = None ->
  root_p (world st) = Listening -> name_from_text d = false ->
  handle_request rootNameServer d st =
    Blocked (mkLState (cache st) (mkWorld Dead (tld_p (world st)) (auth_p (world st)))
               (sent st ++ [(ROOT_SERVER_PORT, rootNameServer, d)])
               (to_client st ++ [hang_in_there d])).
Proof.
  intros Hlen Hc Hl Hn. set (s0 := with_reply (hang_in_there d) st).
  rewrite <- length_rev in Hlen.
  destruct (rev (splitInput d)) as [|r0 [|r1 t]] eqn:E; simpl in Hlen; [lia|lia|].
  rewrite (handle_request_unfold rootNameServer d st r0 r1 t E). unfold root_part.
  cbv [mbind PyM_bind]. rewrite (bind_Blocked _ _ _ _ (eq_trans
    (root_stage_miss rootNameServer d _ s0 Hc)
    (@generalServerHandler_cases World world_network d rootNameServer ROOT_SERVER_PORT "" s0 _ _
       (root_exchange_malformed (world s0) rootNameServer d Hl Hn)))).
  reflexivity.
Qed.

(** [C16] A name the root tier's library rejects (an empty label, say)
    kills the root tier and leaves the resolver waiting for ever for its
    reply: after the acknowledgement the client gets nothing, and no
    later request is served (spec section 7: a MalformedDomain is
    surfaced to the client with a corrective prompt). *)
Theorem malformed_name_hangs_resolver (st : LState World) rootNameServer d rest :
  2 <= length (splitInput d) -> cache st !! suffix d 1 = None ->
  root_p (world st) = Listening -> name_from_text d = false ->
  localDnsServer rootNameServer (d :: rest) st =
    (Waiting, mkLState (cache st) (mkWorld Dead (tld_p (world st)) (auth_p (world st)))
                (sent st ++ [(ROOT_SERVER_PORT, rootNameServer, d)]) (to_client st ++ [hang_in_there d])).
Proof.
  intros Hlen Hc Hl Hn. pose proof (handle_request_malformed st rootNameServer d Hlen Hc Hl Hn) as Hb.
  change (d :: rest) with ([d] ++ rest). rewrite localDnsServer_after.
  assert (localDnsServer rootNameServer [d] st =
            (Waiting, mkLState (cache st) (mkWorld Dead (tld_p (world st)) (auth_p (world st)))
                        (sent st ++ [(ROOT_SERVER_PORT, rootNameServer, d)])
                        (to_client st ++ [hang_in_there d])))
    as -> by (cbn; by rewrite Hb).
  by apply serve_stopped.
Qed.

(** [C21] The resolver keeps the tiers in step with the two-datagram
    protocol: if no tier process is half-way through a request (between
    the datagram naming the server and the datagram with the domain),
    none is after any sequence of client requests, whatever the tiers
    answer, raise or hang on. *)
Theorem resolver_keeps_tiers_settled rootNameServer inputs (st : LState World) :
  world_settled (world st) = true ->
  world_settled (world (localDnsServer rootNameServer inputs st).2) = true.
Proof.
  apply (localDnsServer_preserves (fun w => world_settled w = true)).
  intros w port ns m. apply world_exchange_settled.
Qed.

(** [C30] An SOA record first in the root tier's answer: [findOutTld]
    replies without an address, its last message being the remark
    "Same server is TLD Server for ...", which the resolver caches as the
    address of the TLD server under the rightmost label. *)
Theorem soa_cached_as_server (st : LState World) rootNameServer d response rr :
  2 <= length (splitInput d) ->
  cache st !! suffix d 1 = None ->
  root_p (world st) = Listening ->
  name_from_text d = true ->
  query_udp (suffix d 1 +:+ ".") NS rootNameServer = LibOk response ->
  rcode response = NOERROR -> first_record response = LibOk rr -> rdtype rr = SOA ->
  plain_payload (suffix d 1) = true ->
  cache (final_state (handle_request rootNameServer d st)) !! suffix d 1 =
    Some ("Same server is TLD Server for " +:+ dq (suffix d 1 +:+ ".")).
Proof.
  intros Hlen Hc Hl Hn Hq Hr Hf Hs Hp.
  assert (Hg : getInput d 1 = inr (suffix d 1 +:+ ".")) by (apply getInput_suffix; lia).
  apply (root_payload_cached st rootNameServer d
    [root_intro d (suffix d 1 +:+ "."); looking_up (suffix d 1 +:+ ".") rootNameServer]);
    [done|done|done|exact (findOutTld_soa d rootNameServer _ response rr Hn Hg Hq Hr Hf Hs)|].
  unfold plain_payload, dq in *. rewrite all_chars_app. cbn [all_chars].
  rewrite !all_chars_app, Hp. reflexivity.
Qed.

(** [C32] The whole system on a typing slip: whatever line the user
    types, if the client sends it (its check passes) and the root tier's
    library rejects the name (an empty label, say) while the rightmost
    label is not cached, the client prints the acknowledgement and then
    waits for ever: the root tier died, the resolver waits for its
    reply, and no later line is read. *)
Theorem client_typo_hangs_system (st : LState World) rootNameServer line rest d :
  client_step line = Query d -> cache st !! suffix d 1 = None ->
  root_p (world st) = Listening -> name_from_text d = false ->
  client_session rootNameServer (line :: rest) (Serving, st) = ([hang_in_there d], true).
Proof.
  intros Hl Hc Hr Hn. destruct (client_step_query line d Hl) as [_ Hlen].
  apply (client_session_stops rootNameServer line rest d st Hl). intros u st'.
  by rewrite (handle_request_malformed st rootNameServer d Hlen Hc Hr Hn).
Qed.

(** Tiers whose handlers always return answer every query the
    resolver sends, and stay listening. *)
Lemma world_exchange_answers w port ns m :
  tier_total root_handler -> tier_total tld_handler -> tier_total authoritative_handler ->
  world_listening w -> tier_port port ->
  exists raw, (world_exchange w port ns m).1 = Some raw /\ world_listening (world_exchange w port ns m).2.
Proof.
  intros Hr Ht Ha Hw Hp. destruct Hw as (Lr & Lt & La).
  assert (Hh : exists h get, port_handler port = Some (h, get) /\ tier_total h /\ get w = Listening).
  { destruct Hp as [-> | [-> | ->]]; eexists _, _; (split; [reflexivity|by split]). }
  destruct Hh as (h & get & Hph & Htot & Hl). destruct (Htot ns m) as [r Hhr].
  rewrite (world_exchange_ok w port h get ns m r Hph Hl Hhr). eexists. by split.
Qed.

(** [C3] Progress of the whole system: when the handlers of the three
    tiers return on every query (no exception, no hang in the library),
    the resolver over listening tiers serves every sequence of names of
    two labels or more: it never crashes or blocks, sends the client the
    acknowledgement and an address for each name, in order, and leaves
    every tier listening. *)
Theorem system_serves_every_request rootNameServer inputs (st : LState World) :
  tier_total root_handler -> tier_total tld_handler -> tier_total authoritative_handler ->
  world_listening (world st) -> Forall (fun d => 2 <= length (splitInput d)) inputs ->
  exists st' answers, localDnsServer rootNameServer inputs st = (Serving, st') /\
    world_listening (world st') /\ length answers = length inputs /\
    to_client st' = to_client st ++ replies_for inputs answers.
Proof.
  intros Hr Ht Ha Hw Hall.
  exact (localDnsServer_serves world_listening
    (fun w p ns m Hw' Hp => world_exchange_answers w p ns m Hr Ht Ha Hw' Hp)
    rootNameServer inputs st Hall Hw).
Qed.

(** [C17] The client never waits for ever on a system whose tiers'
    handlers always return: for any lines typed, it prints the
    acknowledgement and an address for every name it sends, and returns
    to the prompt each time. *)
Theorem client_never_hangs rootNameServer lines (st : LState World) :
  tier_total root_handler -> tier_total tld_handler -> tier_total authoritative_handler ->
  world_listening (world st) ->
  exists answers, length answers = length (client_loop lines) /\
    client_session rootNameServer lines (Serving, st) = (replies_for (client_loop lines) answers, false).
Proof.
  intros Hr Ht Ha Hw.
  exact (client_session_serves world_listening
    (fun w p ns m Hw' Hp => world_exchange_answers w p ns m Hr Ht Ha Hw' Hp)
    rootNameServer lines st Hw).
Qed.

End System.

(** ** The textbook example

    A library that answers as the Internet did for the example of
    Kurose and Ross (section 2.5): the NS record of [edu.] and its server's
    address, the A record of [gaia.cs.umass.edu.], NXDOMAIN for
    [invalid.] and [nowhere.umass.edu.], an SOA record for [test.] (a
    reserved name), a name check that refuses an
    empty label; and a TLD tier that names the server of [umass.edu]. *)
Definition textbook_query (qname : string) (t : RdType) (server : string)
  : lib_result DnsResponse :=
  if decide (qname = "edu.") then
    LibOk (mkResponse NOERROR [[mkRR NS (Some "a.edu-servers.net.") "a.edu-servers.net."]] [])
  else if decide (qname = "gaia.cs.umass.edu.") then
    LibOk (mkResponse NOERROR [] [[mkRR A None "128.119.245.12"]])
  else if decide (qname = "invalid.") then LibOk (mkResponse NXDOMAIN [] [])
  else if decide (qname = "nowhere.umass.edu.") then LibOk (mkResponse NXDOMAIN [] [])
  else if decide (qname = "test.") then
    LibOk (mkResponse NOERROR [[mkRR SOA None "a.root-servers.net. nstld.verisign-grs.com."]] [])
  else LibOk (mkResponse NOERROR [] []).

#[local] Instance textbook_lib : DnsLib := {
  name_from_text := fun n => negb (existsb (String.eqb "") (removelast (splitInput n)));
  query_udp := textbook_query;
  resolver_query_text := fun n =>
    if decide (n = "a.edu-servers.net.") then LibOk "192.5.6.30"
    else LibRaise (LibraryError "NXDOMAIN");
  resolver_resolve_A := fun _ => LibOk (mkRR A None "128.119.245.13")
}.

Definition textbook_tld : TierHandler :=
  fun _ _ => LibOk [dq "umass.edu" +:+ " is served by " +:+ dq "dns.umass.edu"; "128.119.40.186"].

#[local] Instance textbook_net : Network World := world_network textbook_tld.

Definition fresh_system : LState World :=
  mkLState ∅ (mkWorld Listening Listening Listening) [] [].

(** The end-to-end scenario of the spec (section 8), run on the
    model: resolving "gaia.cs.umass.edu" then "other.cs.umass.edu"
    queries the root tier once, the TLD and authoritative tiers twice,
    replies with the final addresses, and leaves the cache with the keys
    "edu", "umass.edu" (the spec's scenario says "cs.umass.edu") and the
    two full names. *)
Example textbook_resolution :
  localDnsServer "8.8.8.8" ["gaia.cs.umass.edu"; "other.cs.umass.edu"] fresh_system =
  (Serving,
   mkLState
     (<["other.cs.umass.edu" := "128.119.245.13"]> (<["gaia.cs.umass.edu" := "128.119.245.12"]>
       (<["umass.edu" := "128.119.40.186"]> (<["edu" := "192.5.6.30"]> ∅))))
     (mkWorld Listening Listening Listening)
     [(ROOT_SERVER_PORT, "8.8.8.8", "gaia.cs.umass.edu");
      (TLD_SERVER_PORT, "192.5.6.30", "gaia.cs.umass.edu");
      (AUTHORITATIVE_SERVER_PORT, "128.119.40.186", "gaia.cs.umass.edu");
      (TLD_SERVER_PORT, "192.5.6.30", "other.cs.umass.edu");
      (AUTHORITATIVE_SERVER_PORT, "128.119.40.186", "other.cs.umass.edu")]
     [hang_in_there "gaia.cs.umass.edu"; "128.119.245.12";
      hang_in_there "other.cs.umass.edu"; "128.119.245.13"]).
Proof. vm_compute. reflexivity. Qed.

Lemma nxdomain_cached_as_server_witness :
  2 <= length (splitInput "foo.invalid") /\
  cache fresh_system !! suffix "foo.invalid" 1 = None /\
  root_p (world fresh_system) = Listening /\
  name_from_text "foo.invalid" = true /\
  query_udp (suffix "foo.invalid" 1 +:+ ".") NS "8.8.8.8" = LibOk (mkResponse NXDOMAIN [] []) /\
  rcode (mkResponse NXDOMAIN [] []) = NXDOMAIN /\
  cache (final_state (handle_request "8.8.8.8" "foo.invalid" fresh_system)) !! suffix "foo.invalid" 1 =
    Some "Please enter a legible domain".
Proof.
  assert (H1 : 2 <= length (splitInput "foo.invalid")) by (vm_compute; lia).
  assert (H2 : query_udp (suffix "foo.invalid" 1 +:+ ".") NS "8.8.8.8" = LibOk (mkResponse NXDOMAIN [] []))
    by (vm_compute; reflexivity).
  split; [exact H1|]. split; [reflexivity|]. split; [reflexivity|]. split; [reflexivity|].
  split; [exact H2|]. split; [reflexivity|].
  exact (nxdomain_cached_as_server textbook_tld fresh_system "8.8.8.8" "foo.invalid" _
           H1 eq_refl eq_refl eq_refl H2 eq_refl).
Defined.

Lemma resolution_through_library_witness :
  handle_request "8.8.8.8" "gaia.cs.umass.edu" fresh_system =
    Ret tt (resolved fresh_system "8.8.8.8" "gaia.cs.umass.edu"
              "192.5.6.30" "128.119.40.186" "128.119.245.12").
Proof.
  apply (resolution_through_library textbook_tld fresh_system "8.8.8.8" "gaia.cs.umass.edu"
    (mkResponse NOERROR [[mkRR NS (Some "a.edu-servers.net.") "a.edu-servers.net."]] [])
    (mkRR NS (Some "a.edu-servers.net.") "a.edu-servers.net.") "a.edu-servers.net." "192.5.6.30"
    [dq "umass.edu" +:+ " is served by " +:+ dq "dns.umass.edu"] "128.119.40.186"
    (mkResponse NOERROR [] [[mkRR A None "128.119.245.12"]]) [] (mkRR A None "128.119.245.12"));
    vm_compute; first [reflexivity | lia].
Defined.

Lemma auth_nxdomain_answered_witness :
  cache (final_state (handle_request "8.8.8.8" "nowhere.umass.edu" fresh_system)) !! "nowhere.umass.edu" =
    Some "Please enter a legible domain" /\
  last (to_client (final_state (handle_request "8.8.8.8" "nowhere.umass.edu" fresh_system))) =
    Some "Please enter a legible domain".
Proof.
  apply (auth_nxdomain_answered textbook_tld fresh_system "8.8.8.8" "nowhere.umass.edu"
    [root_intro "nowhere.umass.edu" "edu."; looking_up "edu." "8.8.8.8";
     dq "a.edu-servers.net." +:+ " is TLD Server for " +:+ dq "edu.";
     "IP Address of " +:+ dq "a.edu-servers.net." +:+ " is " +:+ dq "192.5.6.30";
     "a.edu-servers.net."] "192.5.6.30"
    [dq "umass.edu" +:+ " is served by " +:+ dq "dns.umass.edu"] "128.119.40.186"
    (mkResponse NXDOMAIN [] [])); vm_compute; first [reflexivity | lia].
Defined.

Lemma malformed_name_hangs_resolver_witness :
  localDnsServer "8.8.8.8" ["x.y..com"; "gaia.cs.umass.edu"] fresh_system =
    (Waiting, mkLState ∅ (mkWorld Dead Listening Listening)
                [(ROOT_SERVER_PORT, "8.8.8.8", "x.y..com")] [hang_in_there "x.y..com"]).
Proof.
  apply (malformed_name_hangs_resolver textbook_tld fresh_system "8.8.8.8" "x.y..com");
    vm_compute; first [reflexivity | lia].
Defined.

Lemma client_typo_hangs_system_witness :
  client_step "X.Y..com" = Query "x.y..com" /\
  cache fresh_system !! suffix "x.y..com" 1 = None /\
  root_p (world fresh_system) = Listening /\ name_from_text "x.y..com" = false /\
  client_session "8.8.8.8" ["X.Y..com"; "Gaia.CS.umass.edu"; "break"] (Serving, fresh_system) =
    ([hang_in_there "x.y..com"], true).
Proof.
  assert (H1 : client_step "X.Y..com" = Query "x.y..com") by (vm_compute; reflexivity).
  assert (H4 : name_from_text "x.y..com" = false) by (vm_compute; reflexivity).
  split; [exact H1|]. split; [reflexivity|]. split; [reflexivity|]. split; [exact H4|].
  exact (client_typo_hangs_system textbook_tld fresh_system "8.8.8.8" "X.Y..com" _ "x.y..com"
           H1 eq_refl eq_refl H4).
Defined.

Lemma resolver_keeps_tiers_settled_witness :
  world_settled (world fresh_system) = true /\
  world_settled (world (localDnsServer "8.8.8.8" ["x.y..com"; "gaia.cs.umass.edu"] fresh_system).2) = true.
Proof.
  assert (H : world_settled (world fresh_system) = true) by reflexivity.
  split; [exact H|]. exact (resolver_keeps_tiers_settled textbook_tld "8.8.8.8" _ fresh_system H).
Defined.

Lemma soa_cached_as_server_witness :
  cache (final_state (handle_request "8.8.8.8" "my.test" fresh_system)) !! suffix "my.test" 1 =
    Some ("Same server is TLD Server for " +:+ dq (suffix "my.test" 1 +:+ ".")).
Proof.
  apply (soa_cached_as_server textbook_tld fresh_system "8.8.8.8" "my.test"
    (mkResponse NOERROR [[mkRR SOA None "a.root-servers.net. nstld.verisign-grs.com."]] [])
    (mkRR SOA None "a.root-servers.net. nstld.verisign-grs.com."));
    vm_compute; first [reflexivity | lia].
Defined.

Lemma tld_entry_after_resolution_witness :
  cache (final_state (handle_request "8.8.8.8" "umass.edu" fresh_system)) !! suffix "umass.edu" 2 =
    Some (if length (splitInput "umass.edu") =? 2 then "128.119.245.13" else "128.119.40.186").
Proof.
  apply (tld_entry_after_resolution textbook_tld fresh_system "8.8.8.8" "umass.edu"
    [root_intro "umass.edu" "edu."; looking_up "edu." "8.8.8.8";
     dq "a.edu-servers.net." +:+ " is TLD Server for " +:+ dq "edu.";
     "IP Address of " +:+ dq "a.edu-servers.net." +:+ " is " +:+ dq "192.5.6.30";
     "a.edu-servers.net."] "192.5.6.30"
    [dq "umass.edu" +:+ " is served by " +:+ dq "dns.umass.edu"] "128.119.40.186"
    [looking_up "umass.edu." "128.119.40.186"; fetching_directly "umass.edu";
     "IP address of the " +:+ dq "umass.edu" +:+ " is " +:+ dq "128.119.245.13"]
    "128.119.245.13"); vm_compute; first [reflexivity | lia].
Defined.

(** ** A library that always answers

    Every name is well formed, every NS or A query gets a NOERROR answer
    naming a server, and the resolver library always finds an address:
    the handlers of both tiers then return on every query. *)
Definition steady_lib : DnsLib := {|
  name_from_text := fun _ => true;
  query_udp := fun _ _ _ => LibOk (mkResponse NOERROR [[mkRR NS (Some "ns.example.") "ns.example."]] []);
  resolver_query_text := fun _ => LibOk "10.0.0.1";
  resolver_resolve_A := fun _ => LibOk (mkRR A None "10.0.0.3")
|}.

Definition steady_tld : TierHandler := fun _ _ => LibOk ["10.0.0.2"].

Definition steady_net : Network World := @world_network steady_lib steady_tld.

Lemma steady_root_total : tier_total (@root_handler steady_lib).
Proof.
  intros ns u. unfold root_handler, findOutTld. cbn [negb name_from_text steady_lib].
  rewrite (getInput_spec u 1) by (pose proof (splitInput_not_nil u);
    destruct (splitInput u); simpl; [done|lia]).
  eexists. reflexivity.
Qed.

Lemma steady_auth_total : tier_total (@authoritative_handler steady_lib).
Proof.
  intros ns u. unfold authoritative_handler, findOutResultantIp. cbn [negb name_from_text steady_lib].
  rewrite getInput_full. eexists. reflexivity.
Qed.

Lemma steady_tld_total : tier_total steady_tld.
Proof. intros ns u. by eexists. Qed.

Lemma system_serves_every_request_witness :
  world_listening (world fresh_system) /\
  exists st' answers,
    @localDnsServer World steady_net "8.8.8.8" ["gaia.cs.umass.edu"; "x.y..com"] fresh_system =
      (Serving, st') /\
    world_listening (world st') /\ length answers = 2 /\
    to_client st' = to_client fresh_system ++ replies_for ["gaia.cs.umass.edu"; "x.y..com"] answers.
Proof.
  assert (Hw : world_listening (world fresh_system)) by (repeat split).
  split; [exact Hw|].
  apply (@system_serves_every_request steady_lib steady_tld "8.8.8.8" ["gaia.cs.umass.edu"; "x.y..com"]
           fresh_system steady_root_total steady_tld_total steady_auth_total Hw).
  repeat constructor; vm_compute; lia.
Defined.

Lemma client_never_hangs_witness :
  exists answers, length answers = length (client_loop ["Gaia.CS.umass.edu"; "nota"; "x.y..com"; "break"]) /\
    @client_session World steady_net "8.8.8.8" ["Gaia.CS.umass.edu"; "nota"; "x.y..com"; "break"]
      (Serving, fresh_system) =
    (replies_for (client_loop ["Gaia.CS.umass.edu"; "nota"; "x.y..com"; "break"]) answers, false).
Proof.
  apply (@client_never_hangs steady_lib steady_tld "8.8.8.8" _ fresh_system
           steady_root_total steady_tld_total steady_auth_total).
  repeat split.
Defined.
